(** * Cross-venue spread monitor: signals, poller, rate limiter and panel

    A shallow embedding of the arithmetic and control flow of
    [arb/signal/zscore.py], [arb/runner_reminder.py], [arb/rate_limiter.py]
    and [arb/panel/server.py], and of the parts of [arb/connectors] and
    [arb/storage/sqlite.py] they rest on.

    Numbers.  Python [int] is [Z].  Python [float] is idealised as an exact
    number: a real ([R]) in the signal pipeline, which takes square roots and
    logarithms, and a rational ([Q]) in the rate limiter and the panel, which
    only add, multiply, divide and compare and which we want to run.
    Rounding error, infinities and NaN are outside the model; the bounds
    that make a conversion raise are not: the database driver binds
    integers of 64 bits only, and [float] overflows on an integer beyond
    the largest finite float.

    Errors.  A Python exception is a [None] of the option monad (or an
    explicit error constructor for HTTP handlers); [ZeroDivisionError] and
    the domain error of [math.log] are written out where the source can
    raise them. *)

From Stdlib Require Import Reals Lqa Lra QArith Qminmax Qabs Qround ZArith Lia.
From Stdlib Require Import List Sorted Permutation Ascii String.
From Stdlib Require Floats Uint63.
From stdpp Require Import gmap strings list fin_maps.
Import ListNotations.

Local Open Scope string_scope.
Local Open Scope list_scope.

(** ** Python arithmetic on idealised floats *)

Module PyReal.
Local Open Scope R_scope.

(** [sum(xs)]: a left fold from [0]. *)
Definition sum (xs : list R) : R := fold_left Rplus xs 0.

(** [a / b] on floats raises [ZeroDivisionError] when [b == 0]. *)
Definition div (a b : R) : option R :=
  if Req_dec_T b 0 then None else Some (a / b).

(** [math.log(x)] raises [ValueError] unless [0 < x]. *)
Definition log (x : R) : option R :=
  if Rlt_dec 0 x then Some (ln x) else None.

(** Truthiness of an optional float: [None] and [0.0] are falsy. *)
Definition truthy (o : option R) : bool :=
  match o with
  | None => false
  | Some v => if Req_dec_T v 0 then false else true
  end.

(** The textbook sum, as the specification writes [Σ]. *)
Definition Sigma (xs : list R) : R := fold_right Rplus 0 xs.

End PyReal.

(** ** [arb/signal/zscore.py] *)

Module ZScore.
Local Open Scope R_scope.

(** [collections.deque(maxlen=...)], oldest element first. *)
Definition deque_append (maxlen : nat) (d : list R) (x : R) : list R :=
  let d' := d ++ [x] in
  if (maxlen <? length d')%nat then tl d' else d'.

Record RollingZScore := mkRolling { window : Z; buf : list R }.

(** [RollingZScore.__init__]: [ValueError] when [window <= 1]. *)
Definition init (w : Z) : option RollingZScore :=
  if (w <=? 1)%Z then None else Some (mkRolling w []).

(** [RollingZScore.update]: returns [(z, mean, std)] and the object after the
    call. *)
Definition update (self : RollingZScore) (value : R)
  : (R * R * R) * RollingZScore :=
  let b := deque_append (Z.to_nat (window self)) (buf self) value in
  let n := length b in
  let mean := PyReal.sum b / INR n in
  let std :=
    if (1 <? n)%nat then
      let var := PyReal.sum (map (fun x => (x - mean) ^ 2) b) / (INR n - 1) in
      sqrt (Rmax var 0)
    else 0 in
  let z := if Rlt_dec 0 std then (value - mean) / std else 0 in
  ((z, mean, std), mkRolling (window self) b).

(** The objects a program can hold: built by [init], changed by [update]. *)
Inductive reachable (w : Z) : RollingZScore -> Prop :=
| reach_init : forall s, init w = Some s -> reachable w s
| reach_update : forall s x, reachable w s -> reachable w (snd (update s x)).

Record EMA := mkEMA { ema_window : Z; alpha : R; value : option R }.

(** [EMA.__init__]: [ValueError] when [window <= 0]. *)
Definition ema_init (w : Z) : option EMA :=
  if (w <=? 0)%Z then None else Some (mkEMA w (2 / (IZR w + 1)) None).

(** [EMA.update]. *)
Definition ema_update (self : EMA) (x : R) : R * EMA :=
  let v := match value self with
           | None => x
           | Some old => alpha self * x + (1 - alpha self) * old
           end in
  (v, mkEMA (ema_window self) (alpha self) (Some v)).

(** *** The specification's vocabulary *)

(** A FIFO of capacity [cap]: appending to a full window evicts the oldest. *)
Definition fifo_push (cap : nat) (w : list R) (x : R) : list R :=
  if (length w =? cap)%nat then tl w ++ [x] else w ++ [x].

Definition arith_mean (w : list R) : R := PyReal.Sigma w / INR (length w).

Definition sample_std (w : list R) : R :=
  sqrt (PyReal.Sigma (map (fun x => (x - arith_mean w) ^ 2) w)
        / (INR (length w) - 1)).

End ZScore.

(** ** [arb/runner_reminder.py] *)

Module Runner.
Import ZScore.
Local Open Scope R_scope.

(** One leg's [timed(get_mid_price(...))]: the price, the completion time
    [t1] and the duration [t1 - t0], both from [now_ms()]. *)
Record Fetch := mkFetch { price : R; ts_leg : Z; dur : Z }.

(** What [poll_pair_with_store] reads from the configuration and its
    arguments. *)
Record Settings := mkSettings {
  enter_z : R;
  exit_z : R;
  stale_ms_th : Z;
  skew_ms_th : Z
}.

(** The cascade of both pollers (lines 53-59 and 109-115). *)
Definition decide_action (zscore enter_z exit_z : R) : string :=
  if Rle_dec enter_z zscore then "enter_short_A_long_B"
  else if Rle_dec zscore (- enter_z) then "enter_long_A_short_B"
  else if Rle_dec (Rabs zscore) exit_z then "exit"
  else "hold".

(** [stale = 1 if (...) else 0]. *)
Definition stale_flag (age_a_ms age_b_ms skew_ms stale_ms_th skew_ms_th : Z) : Z :=
  if ((stale_ms_th <? age_a_ms) || (stale_ms_th <? age_b_ms)
      || (skew_ms_th <? skew_ms))%Z
  then 1%Z else 0%Z.

(** The fields of a tick that the signal step (lines 98-119) decides; the
    enrichment that follows only adds nullable order-book columns. *)
Record Sample := mkSample {
  ts_ms : Z;
  price_a : R;
  price_b : R;
  spread : R;
  z : R;
  mean : R;
  std : R;
  ema : R;
  center_dev : R;
  age_a_ms : Z;
  age_b_ms : Z;
  skew_ms : Z;
  latency_ms : Z;
  stale : Z;
  action : string
}.

(** Lines 98-119 of [poll_pair_with_store]: one tick from the two fetches. *)
Definition tick (cfg : Settings) (zs : RollingZScore) (ema_calc : EMA)
    (a b : Fetch) : Sample * RollingZScore * EMA :=
  let spread := price a - price b in
  let '((zscore, mean, std), zs') := update zs spread in
  let '(ema, ema_calc') := ema_update ema_calc spread in
  let center_dev :=
    if Rlt_dec (1 / 10 ^ 12) std then (spread - ema) / std else 0 in
  let ts := Z.max (ts_leg a) (ts_leg b) in
  let age_a_ms := (ts - ts_leg a)%Z in
  let age_b_ms := (ts - ts_leg b)%Z in
  let skew_ms := Z.abs (ts_leg a - ts_leg b) in
  let latency_ms := Z.max (dur a) (dur b) in
  let action := decide_action zscore (enter_z cfg) (exit_z cfg) in
  let stale :=
    stale_flag age_a_ms age_b_ms skew_ms (stale_ms_th cfg) (skew_ms_th cfg) in
  let action := if (stale =? 0)%Z then action else "hold" in
  (mkSample ts (price a) (price b) spread zscore mean std ema center_dev
     age_a_ms age_b_ms skew_ms latency_ms stale action, zs', ema_calc').

(** [estimate_reversion_times], the body of the [try]: [None] is a raised
    exception, [Some r] a returned pair. *)
Definition estimate_body (series : list R) (current_z exit_z : R) (poll_ms : Z)
  : option (option R * option R) :=
  let n := length series in
  if (n <? 10)%nat then Some (None, None) else
  let x := removelast series in
  let y := tl series in
  mean_x ← PyReal.div (PyReal.sum x) (INR (length x));
  mean_y ← PyReal.div (PyReal.sum y) (INR (length y));
  let num :=
    PyReal.sum (map (fun '(xi, yi) => (xi - mean_x) * (yi - mean_y))
                  (combine x y)) in
  let den := PyReal.sum (map (fun xi => (xi - mean_x) ^ 2) x) in
  if Req_dec_T den 0 then Some (None, None) else
  phi ← PyReal.div num den;
  if Rle_dec phi 0 then Some (None, None) else
  if Rle_dec (9999 / 10000) phi then Some (None, None) else
  log2 ← PyReal.log 2;
  logphi ← PyReal.log phi;
  half_life_samples ← PyReal.div log2 (- logphi);
  let half_life_s := half_life_samples * (IZR poll_ms / 1000) in
  if Rle_dec exit_z 0 then Some (Some half_life_s, Some 0) else
  if Rle_dec (Rabs current_z) exit_z then Some (Some half_life_s, Some 0) else
  k ← PyReal.div log2 half_life_s;
  ratio ← PyReal.div (Rabs current_z) exit_z;
  logratio ← PyReal.log ratio;
  t_exit_s ← PyReal.div logratio k;
  Some (Some half_life_s, Some t_exit_s).

(** [estimate_reversion_times]: [except Exception: return None, None]. *)
Definition estimate_reversion_times (zs : RollingZScore)
    (current_z exit_z : R) (poll_ms : Z) : option R * option R :=
  match estimate_body (buf zs) current_z exit_z poll_ms with
  | Some r => r
  | None => (None, None)
  end.

(** The two advice texts of lines 268 and 270. *)
Definition advice_avoidable : string :=
  "预计在下一次资金费率前收敛，可考虑规避资金费率影响".
Definition advice_spanning : string :=
  "预计跨越下一次资金费率，可评估净资金费率收益/成本后决定".

(** Truthiness of [countdown_ms]: [None] and [0] are falsy. *)
Definition truthyZ (o : option Z) : bool :=
  match o with
  | None => false
  | Some v => negb (v =? 0)%Z
  end.

Record Funding := mkFunding {
  advice : option string;
  net_funding_cycle_usd : option R;
  expect_funding_next_usd : option R
}.

(** [net_rate] of lines 259-264. *)
Definition net_rate (action : string) (fr_a_rate fr_b_rate : option R)
  : option R :=
  match fr_a_rate, fr_b_rate with
  | Some fa, Some fb =>
      if String.eqb action "enter_short_A_long_B" then Some (fa - fb)
      else if String.eqb action "enter_long_A_short_B" then Some (fb - fa)
      else None
  | _, _ => None
  end.

(** [max(0, int(countdown_ms / 1000))]: [int] truncates towards zero. *)
Definition time_to_funding_s (countdown_ms : Z) : Z :=
  Z.max 0 (Z.quot countdown_ms 1000).

(** Lines 255-278: the funding suggestion of one tick. *)
Definition funding_step (action : string) (fr_a_rate fr_b_rate : option R)
    (countdown_ms : option Z) (t_exit_s : option R) (notional_usd : R)
  : Funding :=
  match countdown_ms, t_exit_s with
  | Some cd, Some te =>
      if truthyZ (Some cd) && PyReal.truthy (Some te) then
        match net_rate action fr_a_rate fr_b_rate with
        | Some nr =>
            let ttf := IZR (time_to_funding_s cd) in
            let adv := if Rlt_dec te ttf then advice_avoidable
                       else advice_spanning in
            let cyc := notional_usd * nr in
            let nxt := if Rle_dec ttf te then cyc else 0 in
            mkFunding (Some adv) (Some cyc) (Some nxt)
        | None => mkFunding None None None
        end
      else mkFunding None None None
  | _, _ => mkFunding None None None
  end.

End Runner.

(** ** Python arithmetic on rationals *)

Module PyQ.
Local Open Scope Q_scope.

(** [x < y]. *)
Definition ltb (x y : Q) : bool := negb (Qle_bool y x).

(** [min(a, b)] returns [a] unless [b < a]; [max(a, b)] returns [a] unless
    [b > a]. *)
Definition min (a b : Q) : Q := if ltb b a then b else a.
Definition max (a b : Q) : Q := if ltb a b then b else a.

(** [int(x)]: truncation towards zero. *)
Definition int (x : Q) : Z := Z.quot (Qnum x) (Zpos (Qden x)).

(** [round(x)]: to the nearest integer, ties to the even one. *)
Definition round (x : Q) : Z :=
  let f := Qfloor x in
  let d := x - inject_Z f in
  if ltb d (1 # 2) then f
  else if ltb (1 # 2) d then (f + 1)%Z
  else if Z.even f then f else (f + 1)%Z.

(** [a / b] raises [ZeroDivisionError] when [b == 0]. *)
Definition div (a b : Q) : option Q :=
  if Qeq_bool b 0 then None else Some (a / b).

(** [sum(xs)]. *)
Definition sum (xs : list Q) : Q := fold_left Qplus xs 0.

End PyQ.

(** ** Binary64, where the idealisation has to be checked *)

Module Binary64.
Import Floats.

(** The exact value of a finite float. *)
Definition to_Q (x : float) : option Q :=
  match Prim2SF x with
  | S754_zero _ => Some 0%Q
  | S754_finite s m e =>
      let mag :=
        match e with
        | Z0 => inject_Z (Zpos m)
        | Zpos p => inject_Z (Zpos m * 2 ^ Zpos p)
        | Zneg p => Qmake (Zpos m) (2 ^ p)%positive
        end in
      Some (if s then Qopp mag else mag)
  | _ => None
  end.

(** [round(p * k)] as Python computes it on floats, [k] a small count. *)
Definition round_mul (p : float) (k : Z) : option Z :=
  PyQ.round <$> to_Q (p * PrimFloat.of_uint63 (Uint63.of_Z k))%float.

End Binary64.

(** ** [arb/rate_limiter.py] *)

Module RateLimit.
Local Open Scope Q_scope.

Record TokenBucket := mkBucket {
  capacity : Z;
  refill_rate : Q;
  _tokens : Q;
  _last : Q
}.

(** [TokenBucket.__init__], with [now] the reading of [time.monotonic()]. *)
Definition new_bucket (capacity : Z) (refill_rate : Q) (now : Q) : TokenBucket :=
  mkBucket capacity refill_rate (inject_Z capacity) now.

(** The three lines that read the clock and top the bucket up. *)
Definition refill (b : TokenBucket) (now : Q) : TokenBucket :=
  mkBucket (capacity b) (refill_rate b)
    (PyQ.min (inject_Z (capacity b))
       (_tokens b + (now - _last b) * refill_rate b))
    now.

(** The [while] loop of [consume].  [asyncio.sleep] wakes no earlier than
    asked: [late k] is how much later the [k]-th sleep of this call wakes.
    [None] when the fuel runs out with the caller still waiting. *)
Fixpoint wait_loop (late : nat -> Q) (fuel k : nat) (b : TokenBucket)
    (need : Q) : option TokenBucket :=
  if PyQ.ltb (_tokens b) need then
    match fuel with
    | O => None
    | S fuel' =>
        let to_wait :=
          if PyQ.ltb 0 (refill_rate b)
          then (need - _tokens b) / refill_rate b else 5 # 100 in
        let now2 := _last b + PyQ.max to_wait (1 # 100) + late k in
        wait_loop late fuel' (S k) (refill b now2) need
    end
  else Some b.

(** [TokenBucket.consume], entered at monotonic time [now]. *)
Definition consume (late : nat -> Q) (fuel : nat) (b : TokenBucket)
    (weight : Z) (now : Q) : option TokenBucket :=
  let need := inject_Z weight in
  b' ← wait_loop late fuel 0 (refill b now) need;
  Some (mkBucket (capacity b') (refill_rate b') (_tokens b' - need) (_last b')).

(** One entry of the configuration: the JSON numbers under "capacity" and
    "refill", when present. *)
Record BucketConf := mkConf {
  conf_capacity : option Q;
  conf_refill : option Q
}.

(** A configuration: exchange, then endpoint, in the dictionaries' order. *)
Definition Config : Type := list (string * list (string * BucketConf)).

Record RateLimiter := mkLimiter { _buckets : gmap string TokenBucket }.

Definition _key (exchange endpoint : string) : string :=
  String.append exchange (String.append ":" endpoint).

(** The body of the inner loop of [update]. *)
Definition install (now : Q) (exch : string) (self : RateLimiter)
    (entry : string * BucketConf) : RateLimiter :=
  let cap := PyQ.int (default 10 (conf_capacity (snd entry))) in
  let ref := default 5 (conf_refill (snd entry)) in
  mkLimiter (<[_key exch (fst entry) := new_bucket cap ref now]> (_buckets self)).

(** [RateLimiter.update]. *)
Definition update (config : Config) (now : Q) (self : RateLimiter)
  : RateLimiter :=
  fold_left
    (fun rl exch_cfg => fold_left (install now (fst exch_cfg)) (snd exch_cfg) rl)
    config self.

(** [RateLimiter.__init__]. *)
Definition init (config : option Config) (now : Q) : RateLimiter :=
  match config with
  | Some (c :: cs) => update (c :: cs) now (mkLimiter ∅)
  | _ => mkLimiter ∅
  end.

(** The first lines of [allow]: the key and the bucket that will be
    consumed, and the limiter after [setdefault]. *)
Definition pick (self : RateLimiter) (exchange endpoint : string) (now : Q)
  : string * TokenBucket * RateLimiter :=
  match _buckets self !! _key exchange endpoint with
  | Some bucket => (_key exchange endpoint, bucket, self)
  | None =>
      match _buckets self !! _key exchange "global" with
      | Some bucket => (_key exchange "global", bucket, self)
      | None =>
          let bucket := new_bucket 1000 1000 now in
          (_key exchange "global", bucket,
           mkLimiter (<[_key exchange "global" := bucket]> (_buckets self)))
      end
  end.

(** [RateLimiter.allow]: the bucket is consumed in place, so the limiter
    holds it afterwards under the same key. *)
Definition allow (late : nat -> Q) (fuel : nat) (self : RateLimiter)
    (exchange endpoint : string) (weight : Z) (now : Q)
  : option RateLimiter :=
  let '(key, bucket, self') := pick self exchange endpoint now in
  bucket' ← consume late fuel bucket weight now;
  Some (mkLimiter (<[key := bucket']> (_buckets self'))).

End RateLimit.

(** ** [arb/panel/server.py] *)

Module Panel.
Local Open Scope Q_scope.

(** What a handler answers: a body, an [HTTPException], or any other
    exception, which the framework turns into a 500. *)
Inductive Reply (A : Type) : Type :=
| Ok (body : A)
| HTTPException (status_code : Z) (detail : string)
| Raised.
Arguments Ok {A} body.
Arguments HTTPException {A} status_code detail.
Arguments Raised {A}.

(** [list.sort]: a stable insertion sort. *)
Fixpoint insert_sorted {A : Type} (le : A -> A -> bool) (x : A) (l : list A)
  : list A :=
  match l with
  | [] => [x]
  | y :: l' => if le x y then x :: l else y :: insert_sorted le x l'
  end.

Definition sort {A : Type} (le : A -> A -> bool) (l : list A) : list A :=
  fold_right (insert_sorted le) [] l.

(** *** [GET /api/stats/bins] *)

(** The columns of a stored sample that the endpoint reads. *)
Record Row := mkRow {
  ts_ms : Z;
  z : option Q;
  fr_countdown_ms : option Q
}.

Fixpoint pair_up (parts : list Q) : list (Q * option Q) :=
  match parts with
  | [] => []
  | lo :: rest => (lo, hd_error rest) :: pair_up rest
  end.

(** [_parse_edges]; [parts] are the floats read from the comma-separated
    text, [None] when [float] raises on one of them. *)
Definition _parse_edges (parts : option (list Q)) : list (Q * option Q) :=
  match parts with
  | Some ps => pair_up (sort Qle_bool ps)
  | None => [(3 # 2, Some 2); (2, Some (5 # 2)); (5 # 2, Some 3); (3, None)]
  end.

(** The inner [while j < n]: the first index from [j] on, in the rest of
    [absz], whose value is at most [exit_z]. *)
Fixpoint find_exit (rest : list Q) (exit_z : Q) (j : nat) : option nat :=
  match rest with
  | [] => None
  | a :: rest' =>
      if Qle_bool a exit_z then Some j else find_exit rest' exit_z (S j)
  end.

(** The outer [while i < n] of one bin; [None] when the fuel runs out. *)
Fixpoint scan (fuel : nat) (absz : list Q) (tms : list Z)
    (countdown : list (option Q)) (lo : Q) (hi : option Q) (exit_z : Q)
    (i : nat) (samples prob_before_funding : list Q)
  : option (list Q * list Q) :=
  if (i <? length absz)%nat then
    match fuel with
    | O => None
    | S fuel' =>
        let prev := nth (i - 1) absz 0 in
        let cur := nth i absz 0 in
        let enter :=
          PyQ.ltb prev lo && Qle_bool lo cur
          && match hi with None => true | Some h => PyQ.ltb cur h end in
        if enter then
          let start_t := nth i tms 0%Z in
          match find_exit (skipn i absz) exit_z i with
          | Some j =>
              let dt_ms := (nth j tms 0%Z - start_t)%Z in
              let samples' := samples ++ [inject_Z dt_ms / 1000] in
              let prob' :=
                match nth i countdown None with
                | Some c =>
                    prob_before_funding
                    ++ [if Qle_bool (inject_Z dt_ms) c then 1 else 0]
                | None => prob_before_funding
                end in
              scan fuel' absz tms countdown lo hi exit_z j samples' prob'
          | None =>
              scan fuel' absz tms countdown lo hi exit_z (i + 1) samples
                prob_before_funding
          end
        else
          scan fuel' absz tms countdown lo hi exit_z (i + 1) samples
            prob_before_funding
    end
  else Some (samples, prob_before_funding).

(** The local [pct] of the handler, on the sorted durations. *)
Definition pct (samples : list Q) (p : Q) : option Q :=
  let cnt := Z.of_nat (length samples) in
  if (cnt =? 0)%Z then None
  else
    let k := Z.max 0 (Z.min (cnt - 1) (PyQ.round (p * inject_Z (cnt - 1)))) in
    Some (nth (Z.to_nat k) samples 0).

Record BinStat := mkBinStat {
  bin_lo : Q;
  bin_hi : option Q;
  samples : nat;
  p25_s : option Q;
  median_s : option Q;
  p75_s : option Q;
  p90_s : option Q;
  prob_exit_before_funding : option Q
}.

(** What the handler reports for a bin from its two lists. *)
Definition bin_stat (lo : Q) (hi : option Q) (durations prob : list Q)
  : BinStat :=
  let samples := sort Qle_bool durations in
  mkBinStat lo hi (length samples)
    (pct samples (1 # 4)) (pct samples (1 # 2)) (pct samples (3 # 4))
    (pct samples (9 # 10))
    (match prob with
     | [] => None
     | _ => Some (PyQ.sum prob / inject_Z (Z.of_nat (length prob)))
     end).

Fixpoint each_bin (fuel : nat) (absz : list Q) (tms : list Z)
    (countdown : list (option Q)) (exit_z : Q) (bins : list (Q * option Q))
  : option (list BinStat) :=
  match bins with
  | [] => Some []
  | (lo, hi) :: bins' =>
      '(durations, prob) ← scan fuel absz tms countdown lo hi exit_z 1 [] [];
      stats ← each_bin fuel absz tms countdown exit_z bins';
      Some (bin_stat lo hi durations prob :: stats)
  end.

(** [api_stats_bins]; [rows] is what [get_spreads(db, pair, 10000)] returned
    and [now_ms] is [int(time.time() * 1000)].  The outer [None] is a loop
    that outlives the fuel. *)
Definition api_stats_bins (fuel : nat) (pair : string) (rows : list Row)
    (now_ms days : Z) (exit_z : Q) (parts : option (list Q))
  : option (Reply (list BinStat)) :=
  if String.eqb pair EmptyString then Some (HTTPException 400 "pair is required")
  else
    let since_ms := (now_ms - days * 86400000)%Z in
    let seq := List.filter (fun r => (since_ms <=? ts_ms r)%Z) rows in
    let seq := sort (fun r1 r2 => (ts_ms r1 <=? ts_ms r2)%Z) seq in
    let bins := _parse_edges parts in
    let absz := map (fun r => Qabs (default 0 (z r))) seq in
    let tms := map ts_ms seq in
    let countdown := map fr_countdown_ms seq in
    stats ← each_bin fuel absz tms countdown exit_z bins;
    Some (Ok stats).

(** *** [GET /api/simulate] *)

(** The loop of [_avg_exec_price]: what is left to fill, the quote spent and
    the base filled. *)
Fixpoint walk (seq : list (Q * Q)) (remaining total_quote filled : Q)
  : Q * Q * Q :=
  match seq with
  | [] => (remaining, total_quote, filled)
  | (price, qty) :: seq' =>
      if Qle_bool remaining 0 then (remaining, total_quote, filled)
      else
        let take := PyQ.min remaining qty in
        walk seq' (remaining - take) (total_quote + take * price)
          (filled + take)
  end.

Definition _avg_exec_price (levels : list (Q * Q)) (base_qty : Q)
    (side : string) : Q * Q :=
  let '(_, total_quote, filled) := walk levels base_qty 0 0 in
  let avg := if PyQ.ltb 0 filled then total_quote / filled else 0 in
  (avg, filled).

Record Levels := mkLevels { bids : list (Q * Q); asks : list (Q * Q) }.

Record Simulation := mkSimulation {
  mid_a : Q;
  mid_b : Q;
  avg_a : Q;
  avg_b : Q;
  slip_a_pct : Q;
  slip_b_pct : Q;
  slip_a_usd : Q;
  slip_b_usd : Q;
  fee_a_usd : Q;
  fee_b_usd : Q;
  total_cost_usd : Q;
  filled_base_a : Q;
  filled_base_b : Q
}.

(** What [api_simulate] is told by the configuration and the connectors:
    whether the pair is configured, both mid prices, both books and both
    taker fees ([None] when the venue gives none). *)
Record Upstream := mkUpstream {
  configured : bool;
  quoted_mid_a : Q;
  quoted_mid_b : Q;
  levels_a : Levels;
  levels_b : Levels;
  taker_a : option Q;
  taker_b : option Q
}.

(** [x or 0.0]: [None] and [0] both give [0]. *)
Definition or_zero (x : option Q) : Q := default 0 x.

(** [api_simulate]. *)
Definition api_simulate (m : Upstream) (notional_usd : Q) (pattern : string)
  : Reply Simulation :=
  if negb (configured m) then HTTPException 404 "pair not configured" else
  let mid_a := quoted_mid_a m in
  let mid_b := quoted_mid_b m in
  match PyQ.div notional_usd mid_a, PyQ.div notional_usd mid_b with
  | Some base_qty_a, Some base_qty_b =>
      let sides :=
        if String.eqb pattern "enter_short_A_long_B" then Some ("sell", "buy")
        else if String.eqb pattern "enter_long_A_short_B"
             then Some ("buy", "sell")
             else None in
      match sides with
      | None => HTTPException 400 "invalid pattern"
      | Some (side_a, side_b) =>
          let book (l : Levels) (side : string) :=
            if String.eqb side "buy" then asks l else bids l in
          let '(avg_a, filled_a) :=
            _avg_exec_price (book (levels_a m) side_a) base_qty_a side_a in
          let '(avg_b, filled_b) :=
            _avg_exec_price (book (levels_b m) side_b) base_qty_b side_b in
          let slip_a_pct :=
            if PyQ.ltb 0 avg_a then Qabs (avg_a - mid_a) / mid_a else 0 in
          let slip_b_pct :=
            if PyQ.ltb 0 avg_b then Qabs (avg_b - mid_b) / mid_b else 0 in
          let slip_a_usd := slip_a_pct * notional_usd in
          let slip_b_usd := slip_b_pct * notional_usd in
          let fee_a_usd := or_zero (taker_a m) * notional_usd in
          let fee_b_usd := or_zero (taker_b m) * notional_usd in
          Ok (mkSimulation mid_a mid_b avg_a avg_b slip_a_pct slip_b_pct
                slip_a_usd slip_b_usd fee_a_usd fee_b_usd
                (slip_a_usd + slip_b_usd + fee_a_usd + fee_b_usd)
                filled_a filled_b)
      end
  | _, _ => Raised
  end.

(** *** [POST /api/ingest/spread] and the WebSocket manager *)

(** A decoded JSON value. *)
#[local] Unset Elimination Schemes.
Inductive jvalue : Type :=
| JNull
| JBool (b : bool)
| JInt (n : Z)
| JFloat (x : Q)
| JStr (s : string)
| JList (items : list jvalue)
| JDict (fields : list (string * jvalue)).
#[local] Set Elimination Schemes.

Section Ingest.

(** What [int(s)] and [float(s)] make of a text; [None] is [ValueError]. *)
Variable int_of_str : string -> option Z.
Variable float_of_str : string -> option Q.

(** [int(v)]. *)
Definition py_int (v : jvalue) : option Z :=
  match v with
  | JBool b => Some (if b then 1 else 0)%Z
  | JInt n => Some n
  | JFloat x => Some (PyQ.int x)
  | JStr s => int_of_str s
  | JNull | JList _ | JDict _ => None
  end.

(** [float(v)]; on an integer it raises [OverflowError] from
    [2^1024 - 2^970] on, where the nearest float is no longer finite. *)
Definition py_float (v : jvalue) : option Q :=
  match v with
  | JBool b => Some (if b then 1 else 0)
  | JInt n =>
      if (Z.abs n <? 2 ^ 1024 - 2 ^ 970)%Z then Some (inject_Z n) else None
  | JFloat x => Some x
  | JStr s => float_of_str s
  | JNull | JList _ | JDict _ => None
  end.

(** The integers the database driver binds are those of 64 bits; on a
    larger one it raises [OverflowError]. *)
Definition int64 (n : Z) : bool := ((- 2 ^ 63 <=? n) && (n <? 2 ^ 63))%Z.

(** What the database driver binds to a parameter: not a list or a dict,
    and no integer beyond 64 bits. *)
Definition bindable (v : jvalue) : bool :=
  match v with
  | JList _ | JDict _ => false
  | JInt n => int64 n
  | _ => true
  end.

Definition required : list string :=
  ["pair"; "ts_ms"; "price_a"; "price_b"; "spread"; "z"; "mean"; "std"].

(** The keyword arguments that [ingest_spread] reads with [payload.get]. *)
Definition extra_columns : list string :=
  ["ema"; "center_dev"; "ob_spread_a"; "ob_spread_b"; "ob_spread_pct_a";
   "ob_spread_pct_b"; "vol_a"; "vol_b"; "depth_qty_a"; "depth_qty_b";
   "depth_notional_a"; "depth_notional_b"; "maker_fee_a"; "taker_fee_a";
   "maker_fee_b"; "taker_fee_b"; "fr_a"; "fr_b"; "fr_countdown_ms";
   "half_life_s"; "t_exit_s"; "advice"; "net_funding_cycle_usd";
   "expect_funding_next_usd"; "age_a_ms"; "age_b_ms"; "skew_ms";
   "latency_ms"; "stale"].

(** One line of the [spreads] table. *)
Record Stored := mkStored {
  s_pair : jvalue;
  s_ts_ms : Z;
  s_price_a : Q;
  s_price_b : Q;
  s_spread : Q;
  s_z : Q;
  s_mean : Q;
  s_std : Q;
  s_extras : list (option jvalue)
}.

(** The table, the manager's [active] sets, and every message pushed to a
    socket so far, oldest first.  A socket is a number. *)
Record Server := mkServer {
  db : list Stored;
  active : gmap string (gset positive);
  pushed : list (positive * gmap string jvalue)
}.

(** [insert_spread]: the row is appended unless the driver refuses a value
    ([pair] is [NOT NULL]; [ts_ms] is bound as an integer). *)
Definition insert_spread (st : Server) (row : Stored) : option Server :=
  match s_pair row with
  | JNull => None
  | _ =>
      if bindable (s_pair row) && int64 (s_ts_ms row)
         && forallb (fun v => bindable (default JNull v)) (s_extras row)
      then Some (mkServer (db st ++ [row]) (active st) (pushed st))
      else None
  end.

(** [WSManager.disconnect]. *)
Definition disconnect (pair : string) (ws : positive) (st : Server) : Server :=
  match active st !! pair with
  | Some subs =>
      mkServer (db st) (<[pair := subs ∖ {[ws]}]> (active st)) (pushed st)
  | None => st
  end.

(** The subscribers [active.get(pair, set())] finds: the sets are keyed by
    the text of the query parameter, so only a text can find one. *)
Definition subscribers (st : Server) (pair : jvalue) : list positive :=
  match pair with
  | JStr p => elements (default ∅ (active st !! p))
  | _ => []
  end.

(** [WSManager.broadcast]; [broken] are the sockets whose [send_json]
    raises. *)
Definition broadcast (broken : gset positive) (pair : jvalue)
    (message : gmap string jvalue) (st : Server) : Server :=
  fold_left
    (fun st ws =>
       if decide (ws ∈ broken) then
         match pair with JStr p => disconnect p ws st | _ => st end
       else mkServer (db st) (active st) (pushed st ++ [(ws, message)]))
    (subscribers st pair) st.

(** The arguments [ingest_spread] passes to [insert_spread], evaluated in
    order; [None] when [int] or [float] raises. *)
Definition row_of (payload : gmap string jvalue) : option Stored :=
  let field k := default JNull (payload !! k) in
  ts_ms ← py_int (field "ts_ms");
  price_a ← py_float (field "price_a");
  price_b ← py_float (field "price_b");
  spread ← py_float (field "spread");
  z ← py_float (field "z");
  mean ← py_float (field "mean");
  std ← py_float (field "std");
  Some (mkStored (field "pair") ts_ms price_a price_b spread z mean std
          (map (fun k => payload !! k) extra_columns)).

(** [ingest_spread]. *)
Definition ingest_spread (broken : gset positive)
    (payload : gmap string jvalue) (st : Server) : Reply unit * Server :=
  match find (fun k => negb (bool_decide (is_Some (payload !! k)))) required with
  | Some k => (HTTPException 400 (String.append "missing field " k), st)
  | None =>
      match row_of payload ≫= insert_spread st with
      | Some st' =>
          (Ok tt, broadcast broken (default JNull (payload !! "pair")) payload st')
      | None => (Raised, st)
      end
  end.

End Ingest.

End Panel.

(** ** The specification's AR(1) vocabulary *)

Module Reversion.
Local Open Scope R_scope.

(** [xs = B[:-1]] and [ys = B[1:]]. *)
Definition xs (B : list R) : list R := removelast B.
Definition ys (B : list R) : list R := tl B.

(** [Σ (xi - x̄)²], the denominator of the least-squares slope. *)
Definition ols_den (B : list R) : R :=
  PyReal.Sigma (map (fun xi => (xi - ZScore.arith_mean (xs B)) ^ 2) (xs B)).

(** [Σ (xi - x̄)(yi - ȳ)]. *)
Definition ols_num (B : list R) : R :=
  PyReal.Sigma
    (map (fun '(xi, yi) => (xi - ZScore.arith_mean (xs B))
                           * (yi - ZScore.arith_mean (ys B)))
       (combine (xs B) (ys B))).

Definition phi (B : list R) : R := ols_num B / ols_den B.

(** [ln 2 / (- ln φ) · (poll_ms / 1000)]. *)
Definition half_life_s (B : list R) (poll_ms : Z) : R :=
  ln 2 / (- ln (phi B)) * (IZR poll_ms / 1000).

(** [ln (|z| / exit_z) · half_life_s / ln 2]. *)
Definition t_exit_s (B : list R) (current_z exit_z : R) (poll_ms : Z) : R :=
  ln (Rabs current_z / exit_z) * half_life_s B poll_ms / ln 2.

End Reversion.

(** ** The rate-limit configuration, flattened *)

Module LimiterSpec.
Import RateLimit.

(** The bucket [update] builds for one entry at time [now]. *)
Definition fresh (conf : BucketConf) (now : Q) : TokenBucket :=
  new_bucket (PyQ.int (default 10%Q (conf_capacity conf)))
    (default 5%Q (conf_refill conf)) now.

(** Every (key, entry) of a configuration, in iteration order. *)
Definition entries (config : Config) : list (string * BucketConf) :=
  flat_map (fun ec => map (fun e => (_key (fst ec) (fst e), snd e)) (snd ec))
    config.

Definition conf_keys (config : Config) : list string :=
  map fst (entries config).

(** An exchange name without the separator of [_key]. *)
Fixpoint no_colon (s : string) : bool :=
  match s with
  | EmptyString => true
  | String c s' => negb (Ascii.eqb c ":"%char) && no_colon s'
  end.

(** A configuration as JSON gives it: a dictionary of dictionaries (no key
    twice at either level), the exchange names free of colons. *)
Definition dict_of_dicts (config : Config) : Prop :=
  NoDup (map fst config)
  /\ Forall (fun ec => no_colon (fst ec) = true /\ NoDup (map fst (snd ec)))
       config.


End LimiterSpec.

(** ** The panel's vocabulary *)

Module PanelSpec.
Local Open Scope Q_scope.


(** The percentile the handler computes: the element at the index nearest
    to [p·(n - 1)], counting from zero, ties going to the even index. *)
Definition nearest_index (sorted : list Q) (p : Q) : option Q :=
  match sorted with
  | [] => None
  | _ =>
      let idx := PyQ.round (p * inject_Z (Z.of_nat (length sorted) - 1)) in
      Some (nth (Z.to_nat idx) sorted 0)
  end.


(** A greedy fill: each level gives [min(remaining, qty)]; the quote spent
    and the base filled are the sums over the levels. *)
Fixpoint greedy (levels : list (Q * Q)) (remaining : Q) : Q * Q :=
  match levels with
  | [] => (0, 0)
  | (price, qty) :: rest =>
      let take := Qmin remaining qty in
      let '(quote, filled) := greedy rest (remaining - take) in
      (take * price + quote, take + filled)
  end.

(** One leg of the simulation, in the specification's formulas, with the
    two guards of the handler: nothing filled gives an average of 0, and an
    average that is not positive gives a slippage of 0. *)
Definition leg_spec (book : list (Q * Q)) (mid notional : Q)
    (taker : option Q) (avg filled slip_pct slip_usd fee_usd : Q) : Prop :=
  let base_qty := notional / mid in
  let quote := fst (greedy book base_qty) in
  let fill := snd (greedy book base_qty) in
  filled == fill
  /\ (0 < fill -> avg == quote / fill)
  /\ (~ 0 < fill -> avg == 0)
  /\ (0 < avg -> slip_pct == Qabs (avg - mid) / mid)
  /\ (~ 0 < avg -> slip_pct == 0)
  /\ slip_usd == slip_pct * notional
  /\ fee_usd == Panel.or_zero taker * notional.

(** The side of the book a leg consumes: bids to sell, asks to buy. *)
Definition book_a (m : Panel.Upstream) (pattern : string) : list (Q * Q) :=
  if String.eqb pattern "enter_short_A_long_B"
  then Panel.bids (Panel.levels_a m) else Panel.asks (Panel.levels_a m).
Definition book_b (m : Panel.Upstream) (pattern : string) : list (Q * Q) :=
  if String.eqb pattern "enter_short_A_long_B"
  then Panel.asks (Panel.levels_b m) else Panel.bids (Panel.levels_b m).

(** A JSON number. *)
Definition is_number (v : Panel.jvalue) : Prop :=
  match v with
  | Panel.JInt _ | Panel.JFloat _ => True
  | _ => False
  end.

(** An integer of 64 bits, signed. *)
Definition fits_int64 (n : Z) : Prop := (- 2 ^ 63 <= n < 2 ^ 63)%Z.

(** A timestamp: a number whose integer part fits in 64 bits. *)
Definition is_timestamp (v : Panel.jvalue) : Prop :=
  match v with
  | Panel.JInt n => fits_int64 n
  | Panel.JFloat x => fits_int64 (PyQ.int x)
  | _ => False
  end.

(** A number that a float holds: any JSON float, and an integer below the
    largest finite float. *)
Definition is_measure (v : Panel.jvalue) : Prop :=
  match v with
  | Panel.JInt n => (Z.abs n < 2 ^ 1024 - 2 ^ 970)%Z
  | Panel.JFloat _ => True
  | _ => False
  end.

(** A value a column of the table stores: null, a boolean, a float, a text
    or an integer of 64 bits. *)
Definition storable (v : Panel.jvalue) : Prop :=
  match v with
  | Panel.JList _ | Panel.JDict _ => False
  | Panel.JInt n => fits_int64 n
  | _ => True
  end.

(** A value that neither [int] nor [float] takes. *)
Definition unreadable (v : Panel.jvalue) : Prop :=
  match v with
  | Panel.JNull | Panel.JList _ | Panel.JDict _ => True
  | _ => False
  end.

(** A sample as the poller posts it: the pair is a text, the time a
    timestamp, the six other required fields are numbers a float holds, and
    every optional field that is there is storable. *)
Definition well_typed (payload : gmap string Panel.jvalue) : Prop :=
  (exists p, payload !! "pair" = Some (Panel.JStr p))
  /\ (exists v, payload !! "ts_ms" = Some v /\ is_timestamp v)
  /\ (forall k, In k (tl (tl Panel.required)) ->
        exists v, payload !! k = Some v /\ is_measure v)
  /\ (forall k v, In k Panel.extra_columns -> payload !! k = Some v ->
        storable v).

(** *** The exits of a bin *)





End PanelSpec.

(** ** Sample inputs *)

Module Inputs.
Import ZScore Runner.
Local Open Scope R_scope.

(** A window of three fed 1, 2 and 3. *)
Definition rolling_123 : RollingZScore :=
  snd (update (snd (update (snd (update (mkRolling 3 []) 1)) 2)) 3).

(** A happy tick: both legs fetched at the same millisecond, the window
    seeded with 0.27 four times and 0.22, so that pushing the spread 0.5 gives
    mean 0.3 and std 0.1. *)
Definition happy_cfg : Settings := mkSettings 2 (1 / 2) 3000 500.
Definition happy_window : RollingZScore :=
  mkRolling 6 [27 / 100; 27 / 100; 27 / 100; 27 / 100; 22 / 100].
Definition happy_ema : EMA := mkEMA 30 (2 / 31) None.
Definition happy_a : Fetch := mkFetch 100 1700000000000 40.
Definition happy_b : Fetch := mkFetch (995 / 10) 1700000000000 55.

(** Ten points of a geometric decay with ratio one half. *)
Definition halving : RollingZScore :=
  mkRolling 60 [512; 256; 128; 64; 32; 16; 8; 4; 2; 1].

End Inputs.

(** ** Sample inputs of the rate limiter and the panel *)

Module Fixtures.
Local Open Scope Q_scope.

(** The configuration of the class docstring. *)
Definition docstring_config : RateLimit.Config :=
  [("aster", [("global", RateLimit.mkConf (Some 20%Q) (Some 10%Q));
              ("depth", RateLimit.mkConf (Some 10%Q) (Some 5%Q))]);
   ("lighter", [("global", RateLimit.mkConf (Some 20%Q) (Some 10%Q))])].

(** A limiter that already holds a drained aster bucket and one for orders. *)
Definition busy_limiter : RateLimit.RateLimiter :=
  RateLimit.mkLimiter
    (<["aster:global" := RateLimit.mkBucket 20 10 (1 # 2) 7]>
       (<["aster:order" := RateLimit.mkBucket 3 1 2 7]> ∅)).


(** Four excursions to |z| = 2 that take one, two, three and four seconds
    to come back. *)
Definition four_exits : list Panel.Row :=
  [Panel.mkRow 14000 (Some (4 # 10)%Q) None;
   Panel.mkRow 10000 (Some 2%Q) None;
   Panel.mkRow 9000 (Some (4 # 10)%Q) None;
   Panel.mkRow 6000 (Some 2%Q) None;
   Panel.mkRow 5000 (Some (4 # 10)%Q) None;
   Panel.mkRow 3000 (Some 2%Q) None;
   Panel.mkRow 2000 (Some (4 # 10)%Q) None;
   Panel.mkRow 1000 (Some 2%Q) None;
   Panel.mkRow 0 (Some 0%Q) None].

(** Scenario S4: 150 USD sold into two bid levels on A at a mid of 100. *)
Definition s4_market : Panel.Upstream :=
  Panel.mkUpstream true 100 50
    (Panel.mkLevels [(100, 1); (99, 2)] [(101, 1); (102, 2)])
    (Panel.mkLevels [(49, 10)] [(51, 10)])
    (Some (5 # 10000)%Q) None.

(** The same market with no bid left on A. *)
Definition no_bids_market : Panel.Upstream :=
  Panel.mkUpstream true 100 50
    (Panel.mkLevels [] [(101, 1); (102, 2)])
    (Panel.mkLevels [(49, 10)] [(51, 10)])
    (Some (5 # 10000)%Q) None.

(** A sample with every required key, whose "mean" is null. *)
Definition null_mean : gmap string Panel.jvalue :=
  list_to_map
    [("pair", Panel.JStr "BTCUSDT"); ("ts_ms", Panel.JInt 1700000000000);
     ("price_a", Panel.JFloat 100); ("price_b", Panel.JFloat (995 # 10));
     ("spread", Panel.JFloat (5 # 10)); ("z", Panel.JFloat 0);
     ("mean", Panel.JNull); ("std", Panel.JFloat 0)].

(** The same sample with a mean, and a stale flag. *)
Definition good_sample : gmap string Panel.jvalue :=
  <["stale" := Panel.JInt 0]> (<["mean" := Panel.JFloat (3 # 10)]> null_mean).

(** The same sample stamped with the first integer beyond 64 bits. *)
Definition late_sample : gmap string Panel.jvalue :=
  <["ts_ms" := Panel.JInt (2 ^ 63)]> good_sample.

(** A server with two subscribers of BTCUSDT, socket 2 being broken. *)
Definition two_subscribers : Panel.Server :=
  Panel.mkServer [] {["BTCUSDT" := {[1%positive; 2%positive]}]} [].

(** Texts are not parsed in the examples. *)
Definition no_text_int (s : string) : option Z := None.
Definition no_text_float (s : string) : option Q := None.

End Fixtures.

(** ** Feeding the signals *)

Module Feed.
Import ZScore.
Local Open Scope R_scope.

(** A poller calls [update] once per tick: the window after the values
    [xs], oldest first. *)
Fixpoint feed (zs : RollingZScore) (xs : list R) : RollingZScore :=
  match xs with
  | [] => zs
  | x :: xs' => feed (snd (update zs x)) xs'
  end.

(** The last [n] elements of a list. *)
Definition lastn {A : Type} (n : nat) (l : list A) : list A :=
  skipn (length l - n) l.

End Feed.

(** ** More of [arb/runner_reminder.py] *)

Module Poller.
Local Open Scope R_scope.

(** The cascade is symmetric in the sign of the spread. *)
Definition mirror (action : string) : string :=
  if String.eqb action "enter_short_A_long_B" then "enter_long_A_short_B"
  else if String.eqb action "enter_long_A_short_B" then "enter_short_A_long_B"
  else action.

End Poller.

(** ** [arb/connectors/lighter.py] and [arb/connectors/aster.py] *)

Module Connectors.
Local Open Scope Q_scope.

(** [l[:k]]: the first [k] elements, all but the last [-k] when [k < 0]. *)
Definition prefix {A : Type} (k : Z) (l : list A) : list A :=
  if (k <? 0)%Z then firstn (length l - Z.to_nat (- k)) l
  else firstn (Z.to_nat k) l.

(** The price of the first level of a side, as [(price, qty)]. *)
Definition best (side : list (Q * Q)) : option Q :=
  match side with
  | [] => None
  | (p, _) :: _ => Some p
  end.

(** [LighterConnector.get_mid_price] on the decoded book; [None] is the
    [ValueError] of a missing [market_id] or the [RuntimeError] of an empty
    book. *)
Definition lighter_mid_price (market_id : option Z) (bids asks : list (Q * Q))
  : option Q :=
  match market_id with
  | None => None
  | Some _ =>
      match best bids, best asks with
      | None, None => None
      | None, Some best_ask => Some best_ask
      | Some best_bid, None => Some best_bid
      | Some best_bid, Some best_ask => Some ((best_bid + best_ask) / 2)
      end
  end.

(** The approximation of the next funding time in
    [LighterConnector.get_funding_info]; [None] is the [ZeroDivisionError]
    of a zero period. *)
Definition lighter_next_funding (cycle_hours now_ms : Z) : option Z :=
  let period_ms := (cycle_hours * 3600 * 1000)%Z in
  if (period_ms =? 0)%Z then None
  else Some ((now_ms / period_ms + 1) * period_ms)%Z.

Record Summary := mkSummary {
  best_bid : Q;
  best_ask : Q;
  spread_abs : Q;
  spread_pct : Q;
  depth_qty : Q;
  depth_notional : Q
}.

(** [x or 0.0] on an optional float. *)
Definition or0 (x : option Q) : Q := default 0 x.

(** [if x:] on a float. *)
Definition nonzero (x : Q) : bool := negb (Qeq_bool x 0).

(** [_sum_levels] of the Lighter summary. *)
Definition _sum_levels (levels : Z) (side : list (Q * Q)) : Q * Q :=
  fold_left
    (fun acc o => (fst acc + snd o, snd acc + fst o * snd o))
    (prefix levels side) (0, 0).

(** [LighterConnector.get_order_book_summary] on the decoded book. *)
Definition lighter_summary (levels : Z) (bids asks : list (Q * Q))
  : option Summary :=
  match best bids, best asks with
  | None, None => None
  | bb, ba =>
      let mid :=
        match bb, ba with
        | Some b, Some a => Some ((b + a) / 2)
        | _, _ => None
        end in
      let spread :=
        match bb, ba, mid with
        | Some b, Some a, Some m =>
            if nonzero m then (Some (a - b), Some ((a - b) / m))
            else (None, None)
        | _, _, _ => (None, None)
        end in
      let '(depth_qty_bids, depth_notional_bids) := _sum_levels levels bids in
      let '(depth_qty_asks, depth_notional_asks) := _sum_levels levels asks in
      Some (mkSummary (or0 bb) (or0 ba) (or0 (fst spread)) (or0 (snd spread))
              (depth_qty_bids + depth_qty_asks)
              (depth_notional_bids + depth_notional_asks))
  end.

(** [AsterConnector.get_order_book_summary] on the decoded book. *)
Definition aster_summary (levels : Z) (bids asks : list (Q * Q)) : Summary :=
  let bb := best bids in
  let ba := best asks in
  let mid :=
    match bb, ba with
    | Some b, Some a => Some ((b + a) / 2)
    | _, _ => None
    end in
  let spread :=
    match bb, ba with
    | Some b, Some a =>
        (Some (a - b),
         match mid with
         | Some m => if nonzero m then Some ((a - b) / m) else None
         | None => None
         end)
    | _, _ => (None, None)
    end in
  let depth_qty_bid :=
    match bids with
    | [] => 0
    | _ => PyQ.sum (map snd (prefix levels bids))
    end in
  let depth_qty_ask :=
    match asks with
    | [] => 0
    | _ => PyQ.sum (map snd (prefix levels asks))
    end in
  let depth_notional :=
    fold_left (fun acc pq => acc + fst pq * snd pq) (prefix levels asks)
      (fold_left (fun acc pq => acc + fst pq * snd pq) (prefix levels bids) 0) in
  mkSummary (or0 bb) (or0 ba) (or0 (fst spread)) (or0 (snd spread))
    (depth_qty_bid + depth_qty_ask) depth_notional.

End Connectors.

(** ** Runs of the rate limiter *)

Module LimiterRuns.
Import RateLimit.
Local Open Scope Q_scope.

(** [n] calls of [consume(1)] at the same instant [now], none of them
    allowed to sleep. *)
Fixpoint burst (n : nat) (b : TokenBucket) (now : Q) : option TokenBucket :=
  match n with
  | O => Some b
  | S n' => b' ← consume (fun _ => 0) 0 b 1 now; burst n' b' now
  end.

(** The entry of a flattened configuration that [update] installs last
    under the key [k]. *)
Fixpoint last_conf (k : string) (l : list (string * BucketConf))
  : option BucketConf :=
  match l with
  | [] => None
  | (k', c) :: l' =>
      match last_conf k l' with
      | Some c' => Some c'
      | None => if String.eqb k' k then Some c else None
      end
  end.

End LimiterRuns.

(** ** More of [arb/panel/server.py] *)

Module Manager.
Import Panel.

(** [WSManager.connect], once the socket is accepted. *)
Definition connect (pair : string) (ws : positive) (st : Server) : Server :=
  mkServer (db st)
    (<[pair := default ∅ (active st !! pair) ∪ {[ws]}]> (active st))
    (pushed st).

(** The sockets subscribed to a pair. *)
Definition subscribed (st : Server) (pair : string) : gset positive :=
  default ∅ (active st !! pair).

End Manager.

Module BookSpec.
Local Open Scope Q_scope.

(** A bin statistic whose durations are not negative and whose
    probability is one. *)
Definition in_range (st : Panel.BinStat) : Prop :=
  (forall q, In (Some q) [Panel.p25_s st; Panel.median_s st; Panel.p75_s st;
                          Panel.p90_s st] -> 0 <= q)
  /\ (forall p, Panel.prob_exit_before_funding st = Some p -> 0 <= p <= 1).

End BookSpec.

(** ** [arb/storage/sqlite.py] *)

Module Storage.

(** The columns of [CREATE_TABLE_SQL], each with its declared type, as
    [PRAGMA table_info] lists them. *)
Definition CREATE_TABLE_SQL : list (string * string) :=
  [("id", "INTEGER"); ("pair", "TEXT"); ("ts_ms", "INTEGER");
   ("price_a", "REAL"); ("price_b", "REAL"); ("spread", "REAL");
   ("z", "REAL"); ("mean", "REAL"); ("std", "REAL"); ("ema", "REAL");
   ("center_dev", "REAL"); ("ob_spread_a", "REAL");
   ("ob_spread_b", "REAL"); ("ob_spread_pct_a", "REAL");
   ("ob_spread_pct_b", "REAL"); ("vol_a", "REAL"); ("vol_b", "REAL");
   ("depth_qty_a", "REAL"); ("depth_qty_b", "REAL");
   ("depth_notional_a", "REAL"); ("depth_notional_b", "REAL");
   ("maker_fee_a", "REAL"); ("taker_fee_a", "REAL");
   ("maker_fee_b", "REAL"); ("taker_fee_b", "REAL"); ("fr_a", "REAL");
   ("fr_b", "REAL"); ("fr_countdown_ms", "REAL"); ("half_life_s", "REAL");
   ("t_exit_s", "REAL"); ("advice", "TEXT")].

(** [open_db]: [CREATE TABLE IF NOT EXISTS] keeps a table that is there. *)
Definition open_db (existing : option (list (string * string)))
  : list (string * string) :=
  default CREATE_TABLE_SQL existing.

(** The names of the set [EXPECTED_COLUMNS], as written. *)
Definition EXPECTED_COLUMNS : list string :=
  ["pair"; "ts_ms"; "price_a"; "price_b"; "spread"; "z"; "mean"; "std";
   "ema"; "center_dev"; "ob_spread_a"; "ob_spread_b"; "ob_spread_pct_a";
   "ob_spread_pct_b"; "vol_a"; "vol_b"; "depth_qty_a"; "depth_qty_b";
   "depth_notional_a"; "depth_notional_b"; "maker_fee_a"; "taker_fee_a";
   "maker_fee_b"; "taker_fee_b"; "fr_a"; "fr_b"; "fr_countdown_ms";
   "half_life_s"; "t_exit_s"; "advice"; "net_funding_cycle_usd";
   "expect_funding_next_usd"; "age_a_ms"; "age_b_ms"; "skew_ms";
   "latency_ms"; "stale"].

(** The [columns] that the [INSERT] of [insert_spread] names. *)
Definition columns : list string :=
  ["pair"; "ts_ms"; "price_a"; "price_b"; "spread"; "z"; "mean"; "std";
   "ema"; "center_dev"; "ob_spread_a"; "ob_spread_b"; "ob_spread_pct_a";
   "ob_spread_pct_b"; "vol_a"; "vol_b"; "depth_qty_a"; "depth_qty_b";
   "depth_notional_a"; "depth_notional_b"; "maker_fee_a"; "taker_fee_a";
   "maker_fee_b"; "taker_fee_b"; "fr_a"; "fr_b"; "fr_countdown_ms";
   "half_life_s"; "t_exit_s"; "advice"; "net_funding_cycle_usd";
   "expect_funding_next_usd"; "age_a_ms"; "age_b_ms"; "skew_ms";
   "latency_ms"; "stale"].

(** The columns that [get_spreads] selects. *)
Definition selected : list string :=
  ["ts_ms"; "price_a"; "price_b"; "spread"; "z"; "mean"; "std";
   "ema"; "center_dev"; "ob_spread_a"; "ob_spread_b"; "ob_spread_pct_a";
   "ob_spread_pct_b"; "vol_a"; "vol_b"; "depth_qty_a"; "depth_qty_b";
   "depth_notional_a"; "depth_notional_b"; "maker_fee_a"; "taker_fee_a";
   "maker_fee_b"; "taker_fee_b"; "fr_a"; "fr_b"; "fr_countdown_ms";
   "half_life_s"; "t_exit_s"; "advice"; "net_funding_cycle_usd";
   "expect_funding_next_usd"; "age_a_ms"; "age_b_ms"; "skew_ms";
   "latency_ms"; "stale"].

(** The engine compares column names without regard to the case of ASCII
    letters. *)
Definition lower (c : ascii) : ascii :=
  let n := nat_of_ascii c in
  if ((65 <=? n) && (n <=? 90))%nat then ascii_of_nat (n + 32) else c.

Fixpoint lowercase (s : string) : string :=
  match s with
  | EmptyString => EmptyString
  | String c s' => String (lower c) (lowercase s')
  end.

(** [ALTER TABLE spreads ADD COLUMN c ty]: the column goes last; the engine
    refuses a name the table has already. *)
Definition add_column (table : list (string * string)) (c ty : string)
  : option (list (string * string)) :=
  if existsb (fun col => String.eqb (lowercase (fst col)) (lowercase c)) table
  then None
  else Some (table ++ [(c, ty)]).

(** [missing = [c for c in EXPECTED_COLUMNS if c not in cols]]; [expected]
    is the set in the order its iteration gives. *)
Definition missing (expected : list string) (table : list (string * string))
  : list string :=
  List.filter (fun c => negb (existsb (String.eqb c) (map fst table)))
    expected.

(** The loop over [missing]. *)
Fixpoint add_all (cs : list string) (table : list (string * string))
  : option (list (string * string)) :=
  match cs with
  | [] => Some table
  | c :: cs' =>
      table' ← add_column table c
                 (if String.eqb c "advice" then "TEXT" else "REAL");
      add_all cs' table'
  end.

(** [ensure_schema]; [None] when the engine refuses a statement. *)
Definition ensure_schema (expected : list string)
    (table : list (string * string)) : option (list (string * string)) :=
  add_all (missing expected table) table.

(** A column added by [ensure_schema], with its type. *)
Definition typed (c : string) : string * string :=
  (c, if String.eqb c "advice" then "TEXT" else "REAL").

(** A column the engine finds in the table, names compared without regard
    to case. *)
Definition has_column (schema : list (string * string)) (c : string) : bool :=
  existsb (fun col => String.eqb (lowercase (fst col)) (lowercase c)) schema.

(** [get_spreads] and the handler of [GET /api/spreads] over it. *)
Section Query.

(** A line of the table, of which the query reads the pair and the time. *)
Variable Line : Type.
Variable pair_of : Line -> string.
Variable ts_of : Line -> Z.

(** [ORDER BY ts_ms DESC], the order among equal times being the engine's
    choice. *)
Variable order_by_ts_desc : list Line -> list Line.

(** [SELECT ... WHERE pair = ? ORDER BY ts_ms DESC LIMIT ?] on a table with
    the columns [schema]: [None] is the [OperationalError] of a column the
    statement names and the table does not have; a negative [LIMIT] is no
    limit. *)
Definition get_spreads (schema : list (string * string)) (table : list Line)
    (pair : string) (limit : Z) : option (list Line) :=
  if forallb (has_column schema) ("pair" :: selected) then
    let rows :=
      order_by_ts_desc
        (List.filter (fun l => String.eqb (pair_of l) pair) table) in
    Some (if (limit <? 0)%Z then rows else firstn (Z.to_nat limit) rows)
  else None.

(** [api_spreads]. *)
Definition api_spreads (schema : list (string * string)) (table : list Line)
    (pair : string) (limit : Z) : Panel.Reply (list Line) :=
  if String.eqb pair EmptyString
  then Panel.HTTPException 400 "pair is required"
  else
    match get_spreads schema table pair (Z.min (Z.max limit 1) 5000) with
    | Some rows => Panel.Ok (rev rows)
    | None => Panel.Raised
    end.

End Query.

End Storage.

(** ** The order books cache of [arb/connectors/lighter.py] *)

Module Books.
Local Open Scope Q_scope.

(** An entry of [order_books] as the connector reads it: [str] of the
    symbol, [int] of the market id and [float] of the two fees, each [None]
    where the conversion raises. *)
Record Book := mkBook {
  symbol : string;
  market_id : option Z;
  maker_fee : option Q;
  taker_fee : option Q
}.

(** The loop of [fetch_market_map] over the books. *)
Fixpoint fill (books : list Book) (mapping : gmap string Z)
  : option (gmap string Z) :=
  match books with
  | [] => Some mapping
  | ob :: books' =>
      mid ← market_id ob;
      fill books' (<[symbol ob := mid]> mapping)
  end.

(** [fetch_market_map] when the request succeeds with [served]: the result
    ([None] when [int] raises) and the new [_books_cache], set before the
    loop. *)
Definition fetch_market_map (served : list Book)
  : option (gmap string Z) * option (list Book) :=
  (fill served ∅, Some served).

(** The [try] of [get_fees] on the book found. *)
Definition read_fees (ob : Book) : option Q * option Q :=
  match maker_fee ob with
  | None => (None, None)
  | Some m => (Some m, taker_fee ob)
  end.

(** [get_fees]: the fees, or [None] when the fetch it starts raises, and the
    cache afterwards. *)
Definition get_fees (served : list Book) (_books_cache : option (list Book))
    (sym : string) : option (option Q * option Q) * option (list Book) :=
  let run (cache : list Book) :=
    match find (fun ob => String.eqb (symbol ob) sym) cache with
    | Some ob => read_fees ob
    | None => (None, None)
    end in
  match _books_cache with
  | Some cache => (Some (run cache), Some cache)
  | None =>
      let '(mapping, cache) := fetch_market_map served in
      match mapping with
      | None => (None, cache)
      | Some _ => (Some (run served), cache)
      end
  end.

End Books.

(** ** More inputs *)

Module Samples.
Local Open Scope Q_scope.

(** Three lines of one pair and one of another, with the time of each. *)
Definition four_lines : list (string * Z) :=
  [("BTCUSDT", 10%Z); ("ETHUSDT", 40%Z); ("BTCUSDT", 30%Z);
   ("BTCUSDT", 20%Z)].

(** The table of [CREATE_TABLE_SQL] after [ensure_schema], the set iterated
    in the order written. *)
Definition upgraded : list (string * string) :=
  default [] (Storage.ensure_schema Storage.EXPECTED_COLUMNS
                (Storage.open_db None)).

(** Two books, the second without a maker fee that [float] accepts. *)
Definition two_books : list Books.Book :=
  [Books.mkBook "BTC" (Some 1%Z) (Some (2 # 10000)) (Some (5 # 10000));
   Books.mkBook "ETH" (Some 2%Z) None (Some (5 # 10000))].

End Samples.

(** * Proofs *)

(** ** Sums *)

Section Sums.
Local Open Scope R_scope.

Lemma sum_acc (xs : list R) (a : R) :
  fold_left Rplus xs a = a + PyReal.Sigma xs.
Proof.
  revert a; induction xs as [|x xs IH]; intros a; cbn.
  - lra.
  - rewrite IH. unfold PyReal.Sigma. lra.
Qed.

Lemma sum_Sigma (xs : list R) : PyReal.sum xs = PyReal.Sigma xs.
Proof. unfold PyReal.sum. rewrite sum_acc. lra. Qed.

Lemma Sigma_squares_nonneg (f : R -> R) (xs : list R) :
  0 <= PyReal.Sigma (map (fun x => (f x) ^ 2) xs).
Proof.
  unfold PyReal.Sigma. induction xs as [|x xs IH]; cbn [map fold_right].
  - lra.
  - pose proof (pow2_ge_0 (f x)). lra.
Qed.

End Sums.

(** ** The rolling window *)

Section Rolling.
Import ZScore Inputs.
Local Open Scope R_scope.

Lemma deque_append_length (m : nat) (d : list R) (x : R) :
  (length d <= m)%nat -> (1 <= m)%nat ->
  (1 <= length (deque_append m d x) <= m)%nat.
Proof.
  intros Hd Hm. unfold deque_append.
  rewrite length_app. cbn [length].
  destruct (Nat.ltb_spec m (length d + 1)) as [H|H].
  - destruct d as [|y d]; cbn in *; [lia|]. rewrite length_app. cbn. lia.
  - rewrite length_app. cbn. lia.
Qed.

Lemma deque_append_fifo (m : nat) (d : list R) (x : R) :
  (length d <= m)%nat -> (1 <= m)%nat ->
  deque_append m d x = fifo_push m d x.
Proof.
  intros Hd Hm. unfold deque_append, fifo_push.
  rewrite length_app. cbn [length].
  destruct (Nat.ltb_spec m (length d + 1)) as [H|H];
    destruct (Nat.eqb_spec (length d) m) as [E|E]; try lia; try reflexivity.
  destruct d as [|y d]; cbn in *; [lia | reflexivity].
Qed.

Lemma reachable_inv (w : Z) (s : RollingZScore) :
  reachable w s ->
  (1 < w)%Z /\ window s = w /\ (length (buf s) <= Z.to_nat w)%nat.
Proof.
  induction 1 as [s Hs | s x Hr IH].
  - unfold init in Hs. destruct (Z.leb_spec w 1); [discriminate|].
    injection Hs as <-. cbn. repeat split; lia.
  - destruct IH as (Hw & Hwin & Hlen). cbn. repeat split; auto.
    rewrite Hwin. apply deque_append_length; lia.
Qed.

(** C2.  For a [RollingZScore] of window [W > 1] (any object obtained from
    the constructor by updates), [update x] pushes [x] into a FIFO of capacity
    [W], evicting the oldest element when the window is full; with [n] the
    resulting size, the returned mean is the arithmetic mean of the window,
    the returned std is [sqrt (Σ (xi - mean)² / (n - 1))] when [n > 1] and [0]
    when [n = 1], and the returned z is [(x - mean) / std] when [std > 0] and
    [0] otherwise. *)
Theorem C2_rolling_update (W : Z) (s : RollingZScore) (x : R) :
  (1 < W)%Z -> reachable W s ->
  let r := update s x in
  let z := fst (fst (fst r)) in
  let mean := snd (fst (fst r)) in
  let std := snd (fst r) in
  let w' := buf (snd r) in
  let n := length w' in
  w' = fifo_push (Z.to_nat W) (buf s) x
  /\ (1 <= n <= Z.to_nat W)%nat
  /\ mean = arith_mean w'
  /\ ((1 < n)%nat -> std = sample_std w')
  /\ (n = 1%nat -> std = 0)
  /\ (0 < std -> z = (x - mean) / std)
  /\ (~ 0 < std -> z = 0).
Proof.
  intros HW Hr. apply reachable_inv in Hr as (_ & Hwin & Hlen).
  cbn zeta. unfold update. cbn [fst snd buf]. rewrite Hwin.
  set (b := deque_append (Z.to_nat W) (buf s) x).
  assert (Hb : (1 <= length b <= Z.to_nat W)%nat)
    by (apply deque_append_length; lia).
  assert (Hmean : PyReal.sum b / INR (length b) = arith_mean b)
    by (unfold arith_mean; now rewrite sum_Sigma).
  split; [apply deque_append_fifo; lia|].
  split; [exact Hb|].
  split; [exact Hmean|].
  split; [|split; [|split]].
  - intros Hn. apply Nat.ltb_lt in Hn as Hn'. rewrite Hn'.
    unfold sample_std. rewrite Hmean, sum_Sigma.
    f_equal. apply Rmax_left.
    apply Rmult_le_pos; [apply Sigma_squares_nonneg|].
    apply Rlt_le, Rinv_0_lt_compat.
    apply lt_INR in Hn. cbn in Hn. lra.
  - intros Hn. rewrite Hn. reflexivity.
  - intros Hstd. destruct (Rlt_dec 0 _) as [|N]; [reflexivity|].
    exfalso; apply N; exact Hstd.
  - intros Hstd. destruct (Rlt_dec 0 _) as [P|]; [|reflexivity].
    exfalso; apply Hstd; exact P.
Qed.

Lemma rolling_123_reachable : reachable 3 rolling_123.
Proof. do 3 apply reach_update. apply reach_init. reflexivity. Qed.

Lemma C2_rolling_update_witness :
  let r := update rolling_123 4 in
  buf (snd r) = fifo_push 3 (buf rolling_123) 4
  /\ snd (fst (fst r)) = arith_mean (buf (snd r)).
Proof.
  pose proof (C2_rolling_update 3 rolling_123 4 ltac:(lia) rolling_123_reachable)
    as H.
  cbn zeta in H. destruct H as (H1 & _ & H3 & _). split; assumption.
Defined.

(** The window after that update holds 2, 3, 4: mean 3 and sample std 1. *)
Example rolling_2345 :
  buf (snd (update rolling_123 4)) = [2; 3; 4]
  /\ arith_mean [2; 3; 4] = 3 /\ sample_std [2; 3; 4] = 1.
Proof.
  split; [reflexivity|]. 
  assert (E : arith_mean [2; 3; 4] = 3).
  { unfold arith_mean, PyReal.Sigma. cbn. lra. }
  split; [exact E|].
  unfold sample_std. rewrite E. unfold PyReal.Sigma. cbn.
  replace ((_ + _) / _) with 1 by lra. apply sqrt_1.
Qed.

End Rolling.

(** ** The poller tick *)

Section Tick.
Import ZScore Runner Inputs.
Local Open Scope R_scope.

Lemma stale_flag_spec (age_a age_b skew sth kth : Z) :
  (stale_flag age_a age_b skew sth kth = 1
   <-> sth < age_a \/ sth < age_b \/ kth < skew)%Z.
Proof.
  unfold stale_flag.
  destruct (Z.ltb_spec sth age_a), (Z.ltb_spec sth age_b),
    (Z.ltb_spec kth skew); cbn; split; intros; try lia; try discriminate.
Qed.

Lemma stale_flag_01 (age_a age_b skew sth kth : Z) :
  stale_flag age_a age_b skew sth kth = 0%Z
  \/ stale_flag age_a age_b skew sth kth = 1%Z.
Proof. unfold stale_flag. destruct (_ || _ || _)%bool; auto. Qed.

(** The sample of a tick, field by field. *)
Lemma tick_sample (cfg : Settings) (zs : RollingZScore) (e : EMA) (a b : Fetch) :
  let s := fst (fst (tick cfg zs e a b)) in
  let u := fst (update zs (price a - price b)) in
  ts_ms s = Z.max (ts_leg a) (ts_leg b)
  /\ spread s = price a - price b
  /\ z s = fst (fst u) /\ mean s = snd (fst u) /\ std s = snd u
  /\ age_a_ms s = (ts_ms s - ts_leg a)%Z
  /\ age_b_ms s = (ts_ms s - ts_leg b)%Z
  /\ skew_ms s = Z.abs (ts_leg a - ts_leg b)
  /\ stale s = stale_flag (age_a_ms s) (age_b_ms s) (skew_ms s)
                 (stale_ms_th cfg) (skew_ms_th cfg)
  /\ action s = if (stale s =? 0)%Z
                then decide_action (z s) (enter_z cfg) (exit_z cfg)
                else "hold".
Proof.
  unfold tick.
  destruct (update zs (price a - price b)) as [[[zv m] sd] zs'].
  destruct (ema_update e (price a - price b)) as [ev e'].
  cbn. repeat split; reflexivity.
Qed.

(** C1.  On every sample of a poller tick, [stale] is [1] exactly when
    [age_a_ms] or [age_b_ms] exceeds the stale threshold or [skew_ms] exceeds
    the skew threshold, and a stale sample's action is "hold" whatever z is. *)
Theorem C1_stale_iff_and_hold (cfg : Settings) (zs : RollingZScore) (e : EMA)
    (a b : Fetch) :
  let s := fst (fst (tick cfg zs e a b)) in
  (stale s = 1%Z
   <-> (stale_ms_th cfg < age_a_ms s \/ stale_ms_th cfg < age_b_ms s
        \/ skew_ms_th cfg < skew_ms s)%Z)
  /\ (stale s = 1%Z -> action s = "hold").
Proof.
  destruct (tick_sample cfg zs e a b)
    as (_ & _ & _ & _ & _ & _ & _ & _ & Hst & Hact).
  cbn zeta in *. split.
  - rewrite Hst. apply stale_flag_spec.
  - intros H1. rewrite Hact, H1. reflexivity.
Qed.

Lemma decide_action_cases (zv ez xz : R) :
  (ez <= zv -> decide_action zv ez xz = "enter_short_A_long_B")
  /\ (~ ez <= zv -> zv <= - ez ->
      decide_action zv ez xz = "enter_long_A_short_B")
  /\ (~ ez <= zv -> ~ zv <= - ez -> Rabs zv <= xz ->
      decide_action zv ez xz = "exit")
  /\ (~ ez <= zv -> ~ zv <= - ez -> ~ Rabs zv <= xz ->
      decide_action zv ez xz = "hold").
Proof.
  unfold decide_action.
  destruct (Rle_dec ez zv), (Rle_dec zv (- ez)), (Rle_dec (Rabs zv) xz);
    repeat split; intros; try reflexivity; contradiction.
Qed.

Lemma update_z (zs : RollingZScore) (x : R) :
  let u := fst (update zs x) in
  0 < snd u -> fst (fst u) = (x - snd (fst u)) / snd u.
Proof.
  cbn. intros H. destruct (Rlt_dec 0 _); [reflexivity | contradiction].
Qed.

(** A spread of 0.5 pushed into a window of mean 0.3 and std 0.1. *)
Lemma seeded_z (cfg : Settings) (zs : RollingZScore) (e : EMA) (a b : Fetch) :
  let s := fst (fst (tick cfg zs e a b)) in
  price a = 100 -> price b = 995 / 10 -> mean s = 3 / 10 -> std s = 1 / 10 ->
  z s = 2.
Proof.
  destruct (tick_sample cfg zs e a b)
    as (_ & _ & Hz & Hm & Hsd & _).
  cbn zeta in *. intros Ha Hb Hmean Hstd.
  rewrite Hz. rewrite update_z.
  - rewrite <- Hm, <- Hsd, Hmean, Hstd, Ha, Hb. lra.
  - rewrite <- Hsd, Hstd. lra.
Qed.

(** C6.  Before the stale override the action of a tick follows the
    precedence: [z >= enter_z] gives "enter_short_A_long_B", else
    [z <= -enter_z] gives "enter_long_A_short_B", else [|z| <= exit_z] gives
    "exit", else "hold"; the emitted action is that one unless the sample is
    stale.  With prices 100.0 and 99.5, a window whose mean is 0.3 and std
    0.1, [enter_z = 2.0] and [exit_z = 0.5], z is 2.0 and the action is
    "enter_short_A_long_B". *)
Theorem C6_action_precedence (cfg : Settings) (zs : RollingZScore) (e : EMA)
    (a b : Fetch) :
  let s := fst (fst (tick cfg zs e a b)) in
  let pre := decide_action (z s) (enter_z cfg) (exit_z cfg) in
  (action s = if (stale s =? 0)%Z then pre else "hold")
  /\ (enter_z cfg <= z s -> pre = "enter_short_A_long_B")
  /\ (~ enter_z cfg <= z s -> z s <= - enter_z cfg ->
      pre = "enter_long_A_short_B")
  /\ (~ enter_z cfg <= z s -> ~ z s <= - enter_z cfg ->
      Rabs (z s) <= exit_z cfg -> pre = "exit")
  /\ (~ enter_z cfg <= z s -> ~ z s <= - enter_z cfg ->
      ~ Rabs (z s) <= exit_z cfg -> pre = "hold")
  /\ (price a = 100 -> price b = 995 / 10 ->
      mean s = 3 / 10 -> std s = 1 / 10 ->
      enter_z cfg = 2 -> exit_z cfg = 1 / 2 ->
      z s = 2 /\ pre = "enter_short_A_long_B").
Proof.
  destruct (tick_sample cfg zs e a b)
    as (_ & _ & Hz & Hm & Hsd & _ & _ & _ & _ & Hact).
  cbn zeta in *.
  destruct (decide_action_cases (z (fst (fst (tick cfg zs e a b))))
              (enter_z cfg) (exit_z cfg)) as (D1 & D2 & D3 & D4).
  split; [exact Hact|]. split; [exact D1|]. split; [exact D2|].
  split; [exact D3|]. split; [exact D4|].
  intros Ha Hb Hmean Hstd Hen _.
  pose proof (seeded_z cfg zs e a b Ha Hb Hmean Hstd) as Hz2.
  split; [exact Hz2|]. apply D1. rewrite Hen, Hz2. lra.
Qed.

Lemma happy_mean :
  mean (fst (fst (tick happy_cfg happy_window happy_ema happy_a happy_b)))
  = 3 / 10.
Proof.
  cbn. unfold PyReal.sum, deque_append.
  change (Z.to_nat 6) with 6%nat. cbn. lra.
Qed.

Lemma happy_std :
  std (fst (fst (tick happy_cfg happy_window happy_ema happy_a happy_b)))
  = 1 / 10.
Proof.
  cbn. unfold PyReal.sum, deque_append.
  change (Z.to_nat 6) with 6%nat. cbn.
  match goal with |- sqrt (Rmax ?v 0) = _ =>
    replace v with ((1 / 10) * (1 / 10)) by lra end.
  rewrite Rmax_left by lra. apply sqrt_square. lra.
Qed.

Lemma happy_fresh :
  stale (fst (fst (tick happy_cfg happy_window happy_ema happy_a happy_b)))
  = 0%Z.
Proof. reflexivity. Qed.

Lemma C6_action_precedence_witness :
  let s := fst (fst (tick happy_cfg happy_window happy_ema happy_a happy_b)) in
  z s = 2 /\ stale s = 0%Z /\ action s = "enter_short_A_long_B".
Proof.
  pose proof (C6_action_precedence happy_cfg happy_window happy_ema
                happy_a happy_b) as H.
  cbn zeta in H. destruct H as (Ha & _ & _ & _ & _ & H).
  destruct H as [Hz Hpre];
    [reflexivity | reflexivity | exact happy_mean | exact happy_std
     | reflexivity | reflexivity |].
  cbn zeta. split; [exact Hz|]. split; [exact happy_fresh|].
  rewrite Ha, happy_fresh. exact Hpre.
Defined.

(** Scenario S2: the same prices, leg B answering four seconds after leg A.
    The sample is stale and the action is held although z is 2. *)
Example stale_tick_holds :
  let late_b := mkFetch (995 / 10) 1700000004000 55 in
  let s := fst (fst (tick happy_cfg happy_window happy_ema happy_a late_b)) in
  age_a_ms s = 4000%Z /\ age_b_ms s = 0%Z /\ skew_ms s = 4000%Z
  /\ stale s = 1%Z /\ action s = "hold"
  /\ decide_action (z s) (enter_z happy_cfg) (exit_z happy_cfg)
     = "enter_short_A_long_B".
Proof.
  cbn zeta.
  pose proof (seeded_z happy_cfg happy_window happy_ema happy_a
                (mkFetch (995 / 10) 1700000004000 55)
                eq_refl eq_refl happy_mean happy_std) as Hz.
  cbn zeta in Hz.
  repeat split; try reflexivity.
  apply decide_action_cases. rewrite Hz. cbn. lra.
Qed.

End Tick.

(** ** The AR(1) reversion estimator *)

Section Estimator.
Import ZScore Runner Reversion Inputs.
Local Open Scope R_scope.

Lemma div_Some (a b : R) : b <> 0 -> PyReal.div a b = Some (a / b).
Proof. intros H. unfold PyReal.div. destruct (Req_dec_T b 0); [contradiction | reflexivity]. Qed.

Lemma div_None (a : R) : PyReal.div a 0 = None.
Proof. unfold PyReal.div. destruct (Req_dec_T 0 0); [reflexivity | contradiction]. Qed.

Lemma log_Some (x : R) : 0 < x -> PyReal.log x = Some (ln x).
Proof. intros H. unfold PyReal.log. destruct (Rlt_dec 0 x); [reflexivity | contradiction]. Qed.

Lemma div_neq0 (a b : R) : a <> 0 -> b <> 0 -> a / b <> 0.
Proof.
  intros Ha Hb E. apply Rmult_integral in E as [E|E]; [contradiction|].
  now apply (Rinv_neq_0_compat b).
Qed.

Lemma ln2_pos : 0 < ln 2.
Proof. pose proof ln_lt_2. lra. Qed.

Lemma ln_neg (x : R) : 0 < x -> x < 1 -> ln x < 0.
Proof. intros H0 H1. rewrite <- ln_1. now apply ln_increasing. Qed.

(** Past the length guard the body computes the specification's slope. *)
Lemma estimate_body_slope (B : list R) (cz ez : R) (pm : Z) :
  (10 <= length B)%nat ->
  estimate_body B cz ez pm =
    if Req_dec_T (ols_den B) 0 then Some (None, None) else
    if Rle_dec (phi B) 0 then Some (None, None) else
    if Rle_dec (9999 / 10000) (phi B) then Some (None, None) else
    let hl := half_life_s B pm in
    if Rle_dec ez 0 then Some (Some hl, Some 0) else
    if Rle_dec (Rabs cz) ez then Some (Some hl, Some 0) else
    if Req_dec_T hl 0 then None
    else Some (Some hl, Some (t_exit_s B cz ez pm)).
Proof.
  intros Hn. unfold estimate_body.
  destruct (Nat.ltb_spec (length B) 10) as [|_]; [lia|].
  assert (Hx : INR (length (removelast B)) <> 0).
  { apply not_0_INR. rewrite removelast_firstn_len, length_take. lia. }
  assert (Hy : INR (length (tl B)) <> 0).
  { apply not_0_INR. rewrite length_tl. lia. }
  rewrite (div_Some _ _ Hx), (div_Some _ _ Hy). cbn [mbind option_bind].
  rewrite !sum_Sigma.
  fold (xs B) (ys B). fold (arith_mean (xs B)) (arith_mean (ys B)).
  fold (ols_den B) (ols_num B).
  destruct (Req_dec_T (ols_den B) 0) as [|Hden]; [reflexivity|].
  rewrite (div_Some _ _ Hden). cbn [mbind option_bind]. fold (phi B).
  destruct (Rle_dec (phi B) 0) as [|Hlo]; [reflexivity|].
  destruct (Rle_dec (9999 / 10000) (phi B)) as [|Hhi]; [reflexivity|].
  assert (Hphi : 0 < phi B < 1) by lra.
  rewrite (log_Some 2) by lra. cbn [mbind option_bind].
  rewrite (log_Some (phi B)) by lra. cbn [mbind option_bind].
  pose proof (ln_neg (phi B) ltac:(lra) ltac:(lra)) as Hln.
  rewrite (div_Some (ln 2) (- ln (phi B))) by (intros E; lra).
  cbn [mbind option_bind].
  fold (half_life_s B pm). cbn zeta.
  destruct (Rle_dec ez 0) as [|Hez]; [reflexivity|].
  destruct (Rle_dec (Rabs cz) ez) as [|Hcz]; [reflexivity|].
  destruct (Req_dec_T (half_life_s B pm) 0) as [Hhl|Hhl].
  { replace (PyReal.div (ln 2) (half_life_s B pm)) with (@None R)
      by (rewrite Hhl; symmetry; apply div_None).
    reflexivity. }
  rewrite (div_Some (ln 2) _ Hhl). cbn [mbind option_bind].
  rewrite (div_Some (Rabs cz) ez) by (intros E; lra).
  cbn [mbind option_bind].
  assert (Hr : 0 < Rabs cz / ez) by (apply Rdiv_lt_0_compat; lra).
  rewrite log_Some by exact Hr. cbn [mbind option_bind].
  pose proof ln2_pos as H2.
  rewrite div_Some by (apply div_neq0; [lra | exact Hhl]).
  cbn [mbind option_bind]. unfold t_exit_s. do 3 f_equal. field. lra.
Qed.

Lemma half_life_zero (B : list R) (pm : Z) :
  0 < phi B < 1 -> (half_life_s B pm = 0 <-> pm = 0%Z).
Proof.
  intros Hphi. unfold half_life_s.
  pose proof ln2_pos as H2.
  pose proof (ln_neg (phi B) ltac:(lra) ltac:(lra)) as Hln.
  assert (Hc : ln 2 / - ln (phi B) <> 0) by (apply div_neq0; lra).
  split.
  - intros E. apply Rmult_integral in E as [E|E]; [contradiction|].
    apply eq_IZR. lra.
  - intros ->. lra.
Qed.

Lemma estimate_short (zs : RollingZScore) (cz ez : R) (pm : Z) :
  (length (buf zs) < 10)%nat ->
  estimate_reversion_times zs cz ez pm = (None, None).
Proof.
  intros Hn. unfold estimate_reversion_times, estimate_body.
  destruct (Nat.ltb_spec (length (buf zs)) 10); [reflexivity | lia].
Qed.

Lemma estimate_long (zs : RollingZScore) (cz ez : R) (pm : Z) :
  (10 <= length (buf zs))%nat ->
  estimate_reversion_times zs cz ez pm =
    match estimate_body (buf zs) cz ez pm with
    | Some r => r
    | None => (None, None)
    end.
Proof. reflexivity. Qed.

Ltac by_length zs :=
  destruct (Nat.lt_ge_cases (length (buf zs)) 10) as [Hn|Hn];
  [now apply estimate_short |
   unfold estimate_reversion_times; rewrite (estimate_body_slope _ _ _ _ Hn)].

(** C3 (amended).  [estimate_reversion_times] returns [(None, None)] when
    the buffer has fewer than 10 points, when the least-squares denominator
    over [xs = B[:-1]] is 0, and when the slope φ is [<= 0] or [>= 0.9999].
    Otherwise [half_life_s = (ln 2 / (- ln φ)) · (poll_ms / 1000)]; [t_exit_s]
    is 0 when [exit_z <= 0] or [|z| <= exit_z], and otherwise
    [ln (|z| / exit_z) · half_life_s / ln 2] provided [poll_ms] is not 0.
    With [poll_ms = 0], [0 < exit_z < |z|], the half-life is 0, the division
    [ln 2 / half_life_s] raises and the handler returns [(None, None)]. *)
Theorem C3_reversion_times (zs : RollingZScore) (cz ez : R) (pm : Z) :
  let B := buf zs in
  let r := estimate_reversion_times zs cz ez pm in
  ((length B < 10)%nat -> r = (None, None))
  /\ (ols_den B = 0 -> r = (None, None))
  /\ (phi B <= 0 \/ 9999 / 10000 <= phi B -> r = (None, None))
  /\ ((10 <= length B)%nat -> ols_den B <> 0 -> 0 < phi B < 9999 / 10000 ->
      (ez <= 0 \/ Rabs cz <= ez -> r = (Some (half_life_s B pm), Some 0))
      /\ (0 < ez < Rabs cz -> pm <> 0%Z ->
          r = (Some (half_life_s B pm), Some (t_exit_s B cz ez pm)))
      /\ (0 < ez < Rabs cz -> pm = 0%Z -> r = (None, None))).
Proof.
  cbn zeta. split; [apply estimate_short|].
  split; [|split].
  - intros Hden. by_length zs.
    destruct (Req_dec_T _ 0); [reflexivity | contradiction].
  - intros Hphi. by_length zs.
    destruct (Req_dec_T _ 0); [reflexivity|].
    destruct (Rle_dec (phi _) 0); [reflexivity|].
    destruct (Rle_dec _ (phi _)); [reflexivity | lra].
  - intros Hn Hden Hphi.
    unfold estimate_reversion_times.
    rewrite (estimate_body_slope _ _ _ _ Hn).
    destruct (Req_dec_T _ 0); [contradiction|].
    destruct (Rle_dec (phi _) 0); [lra|].
    destruct (Rle_dec _ (phi _)); [lra|]. cbn zeta.
    pose proof (half_life_zero (buf zs) pm ltac:(lra)) as Hz.
    split; [|split].
    + intros Hex.
      destruct (Rle_dec ez 0); [reflexivity|].
      destruct (Rle_dec (Rabs cz) ez); [reflexivity | lra].
    + intros Hex Hpm.
      destruct (Rle_dec ez 0); [lra|].
      destruct (Rle_dec (Rabs cz) ez); [lra|].
      destruct (Req_dec_T _ 0) as [E|]; [|reflexivity].
      apply Hz in E. contradiction.
    + intros Hex Hpm.
      destruct (Rle_dec ez 0); [lra|].
      destruct (Rle_dec (Rabs cz) ez); [lra|].
      destruct (Req_dec_T _ 0) as [|E]; [reflexivity|].
      exfalso. apply E, Hz, Hpm.
Qed.

(** The halving series: slope exactly one half. *)
Lemma halving_den : ols_den (buf halving) = 2101232 / 9.
Proof. unfold ols_den, arith_mean, xs, PyReal.Sigma. cbn. lra. Qed.

Lemma halving_phi : phi (buf halving) = 1 / 2.
Proof.
  unfold phi. rewrite halving_den.
  unfold ols_num, arith_mean, xs, ys, PyReal.Sigma. cbn. lra.
Qed.

Lemma halving_guards :
  (10 <= length (buf halving))%nat
  /\ ols_den (buf halving) <> 0
  /\ 0 < phi (buf halving) < 9999 / 10000.
Proof.
  split; [cbn; lia|]. rewrite halving_den, halving_phi. lra.
Qed.

Lemma C3_reversion_times_witness :
  estimate_reversion_times halving 2 (1 / 2) 1000
  = (Some (half_life_s (buf halving) 1000),
     Some (t_exit_s (buf halving) 2 (1 / 2) 1000)).
Proof.
  destruct halving_guards as (Hn & Hden & Hphi).
  destruct (C3_reversion_times halving 2 (1 / 2) 1000)
    as (_ & _ & _ & H).
  destruct (H Hn Hden Hphi) as (_ & H1 & _).
  apply H1; [|lia]. rewrite Rabs_pos_eq; lra.
Defined.

(** Scenario S3: on the halving series polled every second, with
    [exit_z = 0.5] and [z = 2.0], the half-life is one second and the exit
    time two. *)
Example halving_times :
  half_life_s (buf halving) 1000 = 1
  /\ t_exit_s (buf halving) 2 (1 / 2) 1000 = 2.
Proof.
  pose proof ln2_pos as H2.
  assert (Hh : half_life_s (buf halving) 1000 = 1).
  { unfold half_life_s. rewrite halving_phi.
    replace (1 / 2) with (/ 2) by lra. rewrite ln_Rinv by lra.
    field. lra. }
  split; [exact Hh|].
  unfold t_exit_s. rewrite Hh. rewrite Rabs_pos_eq by lra.
  replace (2 / (1 / 2)) with (2 * 2) by lra.
  rewrite ln_mult by lra. field. lra.
Qed.

(** With [poll_ms = 0] every guard of the claim is passed and yet the
    estimator answers [(None, None)], where the claim promises
    [half_life_s = 0] and [t_exit_s = 0]. *)
Lemma C3_counterexample :
  (10 <= length (buf halving))%nat
  /\ ols_den (buf halving) <> 0
  /\ 0 < phi (buf halving) < 9999 / 10000
  /\ estimate_reversion_times halving 2 (1 / 2) 0 = (None, None)
  /\ estimate_reversion_times halving 2 (1 / 2) 0
     <> (Some (half_life_s (buf halving) 0),
         Some (t_exit_s (buf halving) 2 (1 / 2) 0)).
Proof.
  destruct halving_guards as (Hn & Hden & Hphi).
  assert (E : estimate_reversion_times halving 2 (1 / 2) 0 = (None, None)).
  { unfold estimate_reversion_times.
    rewrite (estimate_body_slope _ _ _ _ Hn).
    destruct (Req_dec_T _ 0); [contradiction|].
    destruct (Rle_dec (phi _) 0); [lra|].
    destruct (Rle_dec _ (phi _)); [lra|]. cbn zeta.
    destruct (Rle_dec (1 / 2) 0); [lra|].
    destruct (Rle_dec (Rabs 2) (1 / 2)) as [A|_].
    { rewrite Rabs_pos_eq in A; lra. }
    destruct (Req_dec_T _ 0) as [|Hh]; [reflexivity|].
    exfalso. apply Hh. apply half_life_zero; [lra | reflexivity]. }
  repeat split; try assumption; try apply Hphi.
  rewrite E. discriminate.
Qed.

End Estimator.

(** ** The funding suggestion *)

Section FundingAdvice.
Import Runner.
Local Open Scope R_scope.

Lemma truthy_Some (v : R) : v <> 0 -> PyReal.truthy (Some v) = true.
Proof. intros H. cbn. destruct (Req_dec_T v 0); [contradiction | reflexivity]. Qed.

Lemma truthyZ_Some (v : Z) : v <> 0%Z -> truthyZ (Some v) = true.
Proof. intros H. cbn. destruct (Z.eqb_spec v 0); [contradiction | reflexivity]. Qed.

(** A countdown or an exit time that is absent or zero switches the whole
    suggestion off: that is what [if countdown_ms and t_exit_s] tests. *)
Lemma funding_step_falsy (action : string) (fa fb : option R)
    (cd : option Z) (te : option R) (notional : R) :
  truthyZ cd = false \/ PyReal.truthy te = false ->
  funding_step action fa fb cd te notional = mkFunding None None None.
Proof.
  intros H. unfold funding_step.
  destruct cd as [c|], te as [t|]; try reflexivity.
  destruct H as [-> | ->]; [reflexivity|].
  now rewrite andb_false_r.
Qed.

(** C5 (amended).  When both funding rates are known, the action is one of
    the two entries and [countdown_ms] and [t_exit_s] are available (neither
    absent nor zero): [net_rate] is the short leg's rate minus the long
    leg's; with [time_to_funding_s = max(0, int(countdown_ms / 1000))] the
    advice is the source's Chinese sentence [advice_avoidable] when
    [t_exit_s < time_to_funding_s] and [advice_spanning] otherwise;
    [net_funding_cycle_usd = notional · net_rate]; and
    [expect_funding_next_usd] is that amount when
    [t_exit_s >= time_to_funding_s] and 0 otherwise. *)
Theorem C5_funding_advice (action : string) (fa fb : R) (cd : Z)
    (te notional : R) :
  action = "enter_short_A_long_B" \/ action = "enter_long_A_short_B" ->
  cd <> 0%Z -> te <> 0 ->
  let f := funding_step action (Some fa) (Some fb) (Some cd) (Some te)
             notional in
  let nr := if String.eqb action "enter_short_A_long_B"
            then fa - fb else fb - fa in
  let ttf := IZR (Z.max 0 (Z.quot cd 1000)) in
  net_rate action (Some fa) (Some fb) = Some nr
  /\ (te < ttf -> advice f = Some advice_avoidable)
  /\ (~ te < ttf -> advice f = Some advice_spanning)
  /\ net_funding_cycle_usd f = Some (notional * nr)
  /\ (ttf <= te -> expect_funding_next_usd f = Some (notional * nr))
  /\ (~ ttf <= te -> expect_funding_next_usd f = Some 0).
Proof.
  intros Hact Hcd Hte. cbn zeta.
  assert (Hnr : net_rate action (Some fa) (Some fb)
                = Some (if String.eqb action "enter_short_A_long_B"
                        then fa - fb else fb - fa)).
  { destruct Hact as [-> | ->]; reflexivity. }
  unfold funding_step.
  rewrite (truthyZ_Some cd Hcd), (truthy_Some te Hte), Hnr.
  cbn [andb advice net_funding_cycle_usd expect_funding_next_usd].
  unfold time_to_funding_s.
  split; [reflexivity|].
  split; [|split; [|split; [|split]]].
  - intros H. destruct (Rlt_dec te _); [reflexivity | contradiction].
  - intros H. destruct (Rlt_dec te _); [contradiction | reflexivity].
  - reflexivity.
  - intros H. destruct (Rle_dec _ te); [reflexivity | contradiction].
  - intros H. destruct (Rle_dec _ te); [contradiction | reflexivity].
Qed.

(** Scenario S5: an hour to funding, ten minutes to exit. *)
Lemma C5_funding_advice_witness :
  let f := funding_step "enter_short_A_long_B" (Some (1 / 10000))
             (Some (- 2 / 10000)) (Some 3600000%Z) (Some 600) 1000 in
  advice f = Some advice_avoidable
  /\ net_funding_cycle_usd f = Some (1000 * (1 / 10000 - - 2 / 10000))
  /\ expect_funding_next_usd f = Some 0.
Proof.
  destruct (C5_funding_advice "enter_short_A_long_B" (1 / 10000)
              (- 2 / 10000) 3600000 600 1000)
    as (_ & Ha & _ & Hc & _ & He); [left; reflexivity | lia | lra |].
  change (Z.max 0 (Z.quot 3600000 1000)) with 3600%Z in *.
  cbn zeta. split; [apply Ha; lra|]. split; [exact Hc|]. apply He; lra.
Defined.

(** On that input the advice is not the English sentence of the claim. *)
Lemma C5_counterexample :
  advice (funding_step "enter_short_A_long_B" (Some (1 / 10000))
            (Some (- 2 / 10000)) (Some 3600000%Z) (Some 600) 1000)
  <> Some "convergence expected before next funding; funding avoidable".
Proof.
  unfold funding_step.
  rewrite (truthyZ_Some 3600000) by lia. rewrite (truthy_Some 600) by lra.
  cbn [andb net_rate String.eqb Ascii.eqb Bool.eqb advice].
  unfold time_to_funding_s.
  change (Z.max 0 (Z.quot 3600000 1000)) with 3600%Z.
  destruct (Rlt_dec 600 3600); [|lra].
  cbn. discriminate.
Qed.

End FundingAdvice.

(** ** The rate limiter *)

Ltac qlra := Lqa.lra.

Section Limiter.
Import RateLimit LimiterSpec Fixtures.
Local Open Scope Q_scope.

Lemma ltb_lt (x y : Q) : PyQ.ltb x y = true <-> x < y.
Proof.
  unfold PyQ.ltb. rewrite negb_true_iff.
  split.
  - intros H. apply Qnot_le_lt. intros L.
    apply Qle_bool_iff in L. congruence.
  - intros H. destruct (Qle_bool y x) eqn:E; [|reflexivity].
    apply Qle_bool_iff in E. apply Qle_not_lt in E. contradiction.
Qed.

Lemma ltb_ge (x y : Q) : PyQ.ltb x y = false <-> y <= x.
Proof.
  unfold PyQ.ltb. rewrite negb_false_iff. apply Qle_bool_iff.
Qed.



(** *** [update] *)

Lemma update_entries (config : Config) (now : Q) (self : RateLimiter) :
  update config now self =
  fold_left (fun rl ke => mkLimiter (<[fst ke := fresh (snd ke) now]> (_buckets rl)))
    (entries config) self.
Proof.
  unfold update, entries. revert self.
  induction config as [|[exch cfg] config IH]; intros self; cbn [fold_left flat_map].
  - reflexivity.
  - rewrite fold_left_app, IH. f_equal. cbn [fst snd].
    generalize self. clear.
    induction cfg as [|[ep conf] cfg IH]; intros self; cbn [fold_left map].
    + reflexivity.
    + rewrite IH. reflexivity.
Qed.

Lemma fold_install_frame (l : list (string * BucketConf)) (now : Q)
    (self : RateLimiter) (k : string) :
  ~ In k (map fst l) ->
  _buckets (fold_left (fun rl ke =>
              mkLimiter (<[fst ke := fresh (snd ke) now]> (_buckets rl))) l self)
    !! k = _buckets self !! k.
Proof.
  revert self. induction l as [|[k' c] l IH]; intros self Hk; cbn [fold_left].
  - reflexivity.
  - cbn in Hk. rewrite IH by tauto. cbn.
    apply lookup_insert_ne. tauto.
Qed.

Lemma fold_install_keeps (l : list (string * BucketConf)) (now : Q)
    (self : RateLimiter) (k : string) :
  is_Some (_buckets self !! k) ->
  is_Some (_buckets (fold_left (fun rl ke =>
              mkLimiter (<[fst ke := fresh (snd ke) now]> (_buckets rl))) l self)
           !! k).
Proof.
  revert self. induction l as [|[k' c'] l IH]; intros self Hk; cbn [fold_left].
  - exact Hk.
  - apply IH. cbn. destruct (decide (k' = k)) as [->|Hne].
    + rewrite lookup_insert_eq. eauto.
    + now rewrite lookup_insert_ne.
Qed.

Lemma fold_install_last (l : list (string * BucketConf)) (now : Q)
    (self : RateLimiter) (k : string) :
  In k (map fst l) ->
  exists c,
    In (k, c) l
    /\ _buckets (fold_left (fun rl ke =>
                   mkLimiter (<[fst ke := fresh (snd ke) now]> (_buckets rl)))
                   l self) !! k = Some (fresh c now).
Proof.
  revert self. induction l as [|[k' c'] l IH]; intros self Hin;
    cbn [fold_left].
  - destruct Hin.
  - destruct (in_dec string_dec k (map fst l)) as [Hl|Hl].
    + destruct (IH (mkLimiter (<[k' := fresh c' now]> (_buckets self))) Hl)
        as (c & Hc & E).
      exists c. split; [now right | exact E].
    + destruct Hin as [E|Hin]; [|contradiction]. cbn in E. subst k'.
      exists c'. split; [now left|].
      rewrite fold_install_frame by exact Hl.
      cbn. apply lookup_insert_eq.
Qed.

Lemma nodup_fst_unique {V : Type} (l : list (string * V)) (k : string)
    (c c' : V) :
  NoDup (map fst l) -> In (k, c) l -> In (k, c') l -> c = c'.
Proof.
  induction l as [|[k0 c0] l IH]; intros Hnd H1 H2; [destruct H1|].
  cbn in Hnd. apply NoDup_cons in Hnd as [Hk Hnd].
  rewrite list_elem_of_In in Hk.
  destruct H1 as [E1|H1], H2 as [E2|H2].
  - congruence.
  - injection E1 as -> ->. exfalso. apply Hk.
    apply in_map_iff. exists (k, c'). split; [reflexivity | exact H2].
  - injection E2 as -> ->. exfalso. apply Hk.
    apply in_map_iff. exists (k, c). split; [reflexivity | exact H1].
  - now apply IH.
Qed.

Lemma in_entries (config : Config) (exch ep : string)
    (cfg : list (string * BucketConf)) (conf : BucketConf) :
  In (exch, cfg) config -> In (ep, conf) cfg ->
  In (_key exch ep, conf) (entries config).
Proof.
  intros H1 H2. unfold entries. apply in_flat_map.
  exists (exch, cfg). split; [exact H1|].
  apply in_map_iff. exists (ep, conf). split; [reflexivity | exact H2].
Qed.

(** C10.  [update config] installs, for every (exchange, endpoint) entry of
    [config], a freshly constructed bucket whose tokens start at its full new
    capacity, whatever the old bucket held (the bucket of that very entry
    when no two entries share a key); it leaves every bucket whose key is not
    in [config] as it was, and removes none. *)
Theorem C10_update_frame (config : Config) (now : Q) (self : RateLimiter) :
  (forall exch cfg ep conf,
      In (exch, cfg) config -> In (ep, conf) cfg ->
      exists b conf',
        _buckets (update config now self) !! _key exch ep = Some b
        /\ In (_key exch ep, conf') (entries config)
        /\ b = new_bucket (PyQ.int (default 10 (conf_capacity conf')))
                 (default 5 (conf_refill conf')) now
        /\ _tokens b = inject_Z (capacity b)
        /\ (NoDup (conf_keys config) -> conf' = conf))
  /\ (forall k, ~ In k (conf_keys config) ->
        _buckets (update config now self) !! k = _buckets self !! k)
  /\ (forall k, is_Some (_buckets self !! k) ->
        is_Some (_buckets (update config now self) !! k)).
Proof.
  rewrite update_entries. split; [|split].
  - intros exch cfg ep conf H1 H2.
    pose proof (in_entries _ _ _ _ _ H1 H2) as Hin.
    destruct (fold_install_last (entries config) now self (_key exch ep))
      as (conf' & Hc & E).
    { apply in_map_iff. exists (_key exch ep, conf). split; [reflexivity | exact Hin]. }
    exists (fresh conf' now), conf'.
    split; [exact E|]. split; [exact Hc|]. split; [reflexivity|].
    split; [reflexivity|].
    intros Hnd. exact (nodup_fst_unique _ _ _ _ Hnd Hc Hin).
  - intros k Hk. now apply fold_install_frame.
  - intros k Hk. now apply fold_install_keeps.
Qed.

(** Two (exchange, endpoint) pairs share a key only if they are equal, as
    long as exchange names hold no colon. *)
Lemma key_inj (e1 e2 p1 p2 : string) :
  no_colon e1 = true -> no_colon e2 = true ->
  _key e1 p1 = _key e2 p2 -> e1 = e2 /\ p1 = p2.
Proof.
  unfold _key. revert e2.
  induction e1 as [|c1 e1 IH]; intros [|c2 e2] H1 H2 E.
  - change (String ":" p1 = String ":" p2) in E. injection E as ->. auto.
  - change (String ":" p1
            = String c2 (String.append e2 (String.append ":" p2))) in E.
    injection E as <- _. discriminate H2.
  - change (String c1 (String.append e1 (String.append ":" p1))
            = String ":" p2) in E.
    injection E as -> _. discriminate H1.
  - change (String c1 (String.append e1 (String.append ":" p1))
            = String c2 (String.append e2 (String.append ":" p2))) in E.
    injection E as -> E. cbn in H1, H2.
    apply andb_prop in H1 as [_ H1]. apply andb_prop in H2 as [_ H2].
    destruct (IH e2 H1 H2 E) as [-> ->]. auto.
Qed.

Lemma dict_of_dicts_nodup (config : Config) :
  dict_of_dicts config -> NoDup (conf_keys config).
Proof.
  intros [Hnd Hall]. unfold conf_keys, entries.
  induction config as [|[e cfg] config IH]; cbn [flat_map map].
  - constructor.
  - cbn in Hnd. apply NoDup_cons in Hnd as [He Hnd].
    apply Forall_cons in Hall as [[Hc Hcfg] Hall]. cbn [fst snd] in *.
    rewrite map_app. apply NoDup_app. split; [|split].
    + rewrite map_map. cbn [fst].
      clear -Hc Hcfg. induction cfg as [|[p c] cfg IHc]; cbn in *.
      * constructor.
      * apply NoDup_cons in Hcfg as [Hp Hcfg].
        apply NoDup_cons. split; [|now apply IHc].
        rewrite list_elem_of_In, in_map_iff. intros ([p' c'] & E & Hin).
        cbn in E. destruct (key_inj _ _ _ _ Hc Hc E) as [_ ->].
        apply Hp. rewrite list_elem_of_In, in_map_iff.
        exists (p, c'). split; [reflexivity | exact Hin].
    + intros k Hk1 Hk2.
      rewrite list_elem_of_In, map_map, in_map_iff in Hk1.
      destruct Hk1 as ([p c] & <- & _). cbn [fst] in Hk2.
      rewrite list_elem_of_In, in_map_iff in Hk2.
      destruct Hk2 as ([k' c'] & E & Hin). cbn in E. subst k'.
      apply in_flat_map in Hin as ([e' cfg'] & He' & Hin).
      apply in_map_iff in Hin as ([p' c''] & E & _). cbn in E.
      injection E as E _.
      rewrite Forall_forall in Hall.
      destruct (Hall (e', cfg')) as [Hc' _];
        [now rewrite list_elem_of_In|]. cbn in Hc'.
      destruct (key_inj _ _ _ _ Hc' Hc E) as [-> _].
      apply He. rewrite list_elem_of_In, in_map_iff.
      exists (e, cfg'). split; [reflexivity | exact He'].
    + now apply IH.
Qed.

Lemma docstring_config_nodup : NoDup (conf_keys docstring_config).
Proof. apply (bool_decide_unpack _). vm_compute. reflexivity. Qed.

Lemma C10_update_frame_witness :
  (exists b,
      _buckets (update docstring_config 9 busy_limiter) !! "aster:global"
      = Some b /\ _tokens b = 20 /\ capacity b = 20%Z)
  /\ _buckets (update docstring_config 9 busy_limiter) !! "aster:order"
     = _buckets busy_limiter !! "aster:order".
Proof.
  destruct (C10_update_frame docstring_config 9 busy_limiter) as (H1 & H2 & _).
  split.
  - destruct (H1 "aster"
                  [("global", mkConf (Some 20) (Some 10));
                   ("depth", mkConf (Some 10) (Some 5))]
                  "global" (mkConf (Some 20) (Some 10)))
      as (b & conf' & Hb & _ & E & _ & Hc);
      [left; reflexivity | left; reflexivity |].
    rewrite (Hc docstring_config_nodup) in E. subst b.
    eexists. split; [exact Hb | split; reflexivity].
  - apply H2. vm_compute. intuition discriminate.
Defined.

(** *** [allow] *)

Lemma refill_fields (b : TokenBucket) (now : Q) :
  capacity (refill b now) = capacity b
  /\ refill_rate (refill b now) = refill_rate b
  /\ _last (refill b now) = now.
Proof. repeat split. Qed.

(** Whatever the loop returns holds at least [need] tokens and the same
    parameters. *)
Lemma wait_loop_done (late : nat -> Q) (fuel k : nat) (b b' : TokenBucket)
    (need : Q) :
  wait_loop late fuel k b need = Some b' ->
  need <= _tokens b' /\ capacity b' = capacity b
  /\ refill_rate b' = refill_rate b.
Proof.
  revert k b. induction fuel as [|fuel IH]; intros k b; cbn [wait_loop];
    destruct (PyQ.ltb (_tokens b) need) eqn:E; intros H;
    try discriminate.
  - injection H as <-. apply ltb_ge in E. auto.
  - apply IH in H as (H1 & H2 & H3). auto.
  - injection H as <-. apply ltb_ge in E. auto.
Qed.


Lemma min_le_l (a b : Q) : PyQ.min a b <= a.
Proof.
  unfold PyQ.min. destruct (PyQ.ltb b a) eqn:E.
  - apply ltb_lt in E. now apply Qlt_le_weak.
  - apply Qle_refl.
Qed.

(** A weight above the capacity is waited for without end: the bucket never
    holds more than its capacity. *)
Lemma wait_loop_never (late : nat -> Q) (need : Q) (fuel k : nat)
    (b : TokenBucket) :
  inject_Z (capacity b) < need -> _tokens b <= inject_Z (capacity b) ->
  wait_loop late fuel k b need = None.
Proof.
  revert k b. induction fuel as [|fuel IH]; intros k b Hcap Htok;
    cbn [wait_loop];
    (destruct (PyQ.ltb (_tokens b) need) eqn:E;
     [|apply ltb_ge in E; exfalso; qlra]).
  - reflexivity.
  - apply IH; cbn [refill capacity _tokens]; [exact Hcap | apply min_le_l].
Qed.

Lemma consume_never (late : nat -> Q) (fuel : nat) (b : TokenBucket)
    (weight : Z) (now : Q) :
  (capacity b < weight)%Z -> consume late fuel b weight now = None.
Proof.
  intros H. unfold consume. rewrite wait_loop_never; [reflexivity | |].
  - cbn. now rewrite <- Zlt_Qlt.
  - cbn [refill capacity _tokens]. apply min_le_l.
Qed.

Lemma pymin_Qmin (a b a' b' : Q) :
  a == a' -> b == b' -> PyQ.min a b == Qmin a' b'.
Proof.
  intros Ha Hb. unfold PyQ.min.
  destruct (Q.min_spec a' b') as [[H ->] | [H ->]];
    destruct (PyQ.ltb b a) eqn:E;
    [apply ltb_lt in E | apply ltb_ge in E | apply ltb_lt in E
     | apply ltb_ge in E]; qlra.
Qed.

Lemma min_r_eq (a b : Q) : b <= a -> PyQ.min a b == b.
Proof.
  intros H. unfold PyQ.min. destruct (PyQ.ltb b a) eqn:E; [reflexivity|].
  apply ltb_ge in E. qlra.
Qed.

Lemma wait_loop_bounds (late : nat -> Q) (need : Q) (fuel k : nat)
    (b b' : TokenBucket) :
  (forall i, 0 <= late i) ->
  _tokens b <= inject_Z (capacity b) ->
  wait_loop late fuel k b need = Some b' ->
  _tokens b' <= inject_Z (capacity b') /\ _last b <= _last b'.
Proof.
  intros Hlate. revert k b.
  induction fuel as [|fuel IH]; intros k b Hcap; cbn [wait_loop];
    destruct (PyQ.ltb (_tokens b) need); intros H; try discriminate.
  - injection H as <-. split; [exact Hcap | apply Qle_refl].
  - apply IH in H as [H1 H2].
    + split; [exact H1|]. cbn [refill _last] in H2.
      pose proof (Hlate k).
      assert (1 # 100 <= PyQ.max
                (if PyQ.ltb 0 (refill_rate b)
                 then (need - _tokens b) / refill_rate b else 5 # 100)
                (1 # 100)).
      { unfold PyQ.max. destruct (PyQ.ltb _ (1 # 100)) eqn:E.
        - apply Qle_refl.
        - now apply ltb_ge in E. }
      qlra.
    + cbn [refill capacity _tokens]. apply min_le_l.
  - injection H as <-. split; [exact Hcap | apply Qle_refl].
Qed.








Example allow_waits_once :
  allow (fun _ => 0) 0 busy_limiter "aster" "depth" 3 7 = None
  /\ exists out b,
       allow (fun _ => 0) 1 busy_limiter "aster" "depth" 3 7 = Some out
       /\ _buckets out !! "aster:global" = Some b
       /\ _tokens b == 0 /\ _last b == 29 # 4
       /\ _buckets out !! "aster:order" = Some (mkBucket 3 1 2 7).
Proof.
  split; [vm_compute; reflexivity|].
  eexists _, _. split; [vm_compute; reflexivity|].
  split; [vm_compute; reflexivity|].
  repeat split; vm_compute; reflexivity.
Qed.

End Limiter.

(** ** Bin statistics *)

Section Sorting.
Import Panel.
Context {A : Type} (le : A -> A -> bool) (R : A -> A -> Prop).
Hypothesis le_R : forall x y, le x y = true -> R x y.
Hypothesis le_total : forall x y, le x y = false -> R y x.

Lemma insert_sorted_perm (x : A) (l : list A) :
  Permutation (x :: l) (insert_sorted le x l).
Proof.
  induction l as [|y l IH]; cbn.
  - reflexivity.
  - destruct (le x y); [reflexivity|].
    rewrite perm_swap. now apply perm_skip.
Qed.

Lemma sort_perm (l : list A) : Permutation l (sort le l).
Proof.
  induction l as [|x l IH]; cbn.
  - reflexivity.
  - rewrite <- insert_sorted_perm. now apply perm_skip.
Qed.

Lemma sort_length (l : list A) : length (sort le l) = length l.
Proof. symmetry. apply Permutation_length, sort_perm. Qed.

Lemma insert_sorted_sorted (x : A) (l : list A) :
  Sorted R l -> Sorted R (insert_sorted le x l).
Proof.
  induction 1 as [|y l Hs IH Hhd]; cbn.
  - repeat constructor.
  - destruct (le x y) eqn:E.
    + constructor; [now constructor|]. constructor. now apply le_R.
    + constructor; [exact IH|].
      destruct l as [|w l]; cbn.
      * constructor. now apply le_total.
      * destruct (le x w); constructor.
        -- now apply le_total.
        -- now inversion Hhd.
Qed.

Lemma sort_sorted (l : list A) : Sorted R (sort le l).
Proof.
  induction l as [|x l IH]; cbn.
  - constructor.
  - now apply insert_sorted_sorted.
Qed.

End Sorting.

Section Binary64Index.
Import Floats.

(** On binary64 the index is the same: for every count the endpoint can see
    (it reads at most 10000 rows), rounding the float product [p * (cnt - 1)]
    and rounding the exact product give the same integer, the literal 0.9
    included. *)
Lemma pct_index_binary64 :
  forallb
    (fun k =>
       let same (pf : float) (pq : Q) :=
         bool_decide (Binary64.round_mul pf k
                      = Some (PyQ.round (pq * inject_Z k))) in
       same (1 / 4)%float (1 # 4) && same (1 / 2)%float (1 # 2)
       && same (3 / 4)%float (3 # 4) && same (9 / 10)%float (9 # 10))
    (map Z.of_nat (seq 0 (Z.to_nat 10000))) = true.
Proof. vm_compute. reflexivity. Qed.

End Binary64Index.

Section Bins.
Import Panel PanelSpec Fixtures.
Local Open Scope Q_scope.

Lemma Qle_bool_total (x y : Q) : Qle_bool x y = false -> y <= x.
Proof.
  intros H. apply Qlt_le_weak, Qnot_le_lt. intros L.
  apply Qle_bool_iff in L. congruence.
Qed.

Lemma durations_sorted (l : list Q) :
  Sorted Qle (sort Qle_bool l) /\ Permutation l (sort Qle_bool l).
Proof.
  split; [|apply sort_perm].
  apply sort_sorted.
  - intros x y. apply Qle_bool_iff.
  - apply Qle_bool_total.
Qed.

(** *** Rounding *)

Lemma round_floor_or_next (x : Q) :
  (PyQ.round x = Qfloor x /\ x - inject_Z (Qfloor x) <= 1 # 2)
  \/ (PyQ.round x = (Qfloor x + 1)%Z /\ 1 # 2 <= x - inject_Z (Qfloor x)).
Proof.
  unfold PyQ.round. cbn zeta.
  destruct (PyQ.ltb (x - inject_Z (Qfloor x)) (1 # 2)) eqn:E1.
  - left. split; [reflexivity|]. apply ltb_lt in E1. now apply Qlt_le_weak.
  - apply ltb_ge in E1.
    destruct (PyQ.ltb (1 # 2) (x - inject_Z (Qfloor x))) eqn:E2.
    + right. split; [reflexivity | exact E1].
    + apply ltb_ge in E2. destruct (Z.even (Qfloor x)); auto.
Qed.

Lemma round_range (x : Q) (m : Z) :
  0 <= x -> x <= inject_Z m -> (0 <= PyQ.round x <= m)%Z.
Proof.
  intros H0 Hm.
  assert (Hf : (0 <= Qfloor x)%Z).
  { change 0%Z with (Qfloor 0). now apply Qfloor_resp_le. }
  pose proof (Qfloor_le x) as Hfl.
  assert (Hfm : (Qfloor x <= m)%Z).
  { rewrite Zle_Qle. qlra. }
  destruct (round_floor_or_next x) as [[-> _] | [-> Hd]]; [lia|].
  split; [lia|].
  assert (inject_Z (Qfloor x) < inject_Z m) by qlra.
  rewrite <- Zlt_Qlt in H. lia.
Qed.

(** The handler's [pct] is the nearest-index percentile. *)
Lemma pct_nearest_index (sorted : list Q) (p : Q) :
  0 <= p <= 1 -> pct sorted p = nearest_index sorted p.
Proof.
  intros [Hp0 Hp1]. unfold pct, nearest_index.
  destruct sorted as [|s sorted]; [reflexivity|].
  set (n := Z.of_nat (length (s :: sorted))).
  assert (Hn : (1 <= n)%Z) by (unfold n; cbn [length]; lia).
  destruct (Z.eqb_spec n 0) as [|_]; [lia|].
  assert (Hn1 : 0 <= inject_Z (n - 1)).
  { change 0 with (inject_Z 0). rewrite <- Zle_Qle. lia. }
  destruct (round_range (p * inject_Z (n - 1)) (n - 1)) as [Hr0 Hr1].
  - now apply Qmult_le_0_compat.
  - rewrite <- (Qmult_1_l (inject_Z (n - 1))) at 2.
    now apply Qmult_le_compat_r.
  - rewrite Z.min_r by lia. rewrite Z.max_r by lia. reflexivity.
Qed.

(** *** The scan of one bin ends *)

Lemma find_exit_ge (rest : list Q) (exit_z : Q) (j0 j : nat) :
  find_exit rest exit_z j0 = Some j -> (j0 <= j)%nat.
Proof.
  revert j0. induction rest as [|a rest IH]; intros j0; cbn; [discriminate|].
  destruct (Qle_bool a exit_z).
  - intros [= <-]. lia.
  - intros H. apply IH in H. lia.
Qed.



(** The condition is needed: with a lower edge of 0.3 under [exit_z = 0.5],
    a sample at |z| = 0.4 is an entry and its own exit, [i] does not move
    and no amount of fuel ends the scan. *)
Example scan_stuck (fuel : nat) (s p : list Q) :
  scan fuel [0; 4 # 10] [0%Z; 1000%Z] [None; None] (3 # 10) None (1 # 2) 1 s p
  = None.
Proof.
  revert s p. induction fuel as [|fuel IH]; intros s p; [reflexivity|].
  change (scan fuel [0; 4 # 10] [0%Z; 1000%Z] [None; None] (3 # 10) None
            (1 # 2) 1 (s ++ [inject_Z (1000 - 1000) / 1000]) p = None).
  apply IH.
Qed.



(** *** The exits the scan finds *)






(** *** The order of the scan *)







End Bins.

(** ** The execution simulator *)

Section Simulator.
Import Panel PanelSpec Fixtures.
Local Open Scope Q_scope.

Lemma Qmin_bounds (r q : Q) : 0 <= r -> 0 <= q -> 0 <= Qmin r q <= r.
Proof.
  intros Hr Hq. destruct (Q.min_spec r q) as [[H ->] | [H ->]]; split; qlra.
Qed.

(** With nothing left to fill, a greedy pass over the rest adds nothing. *)
Lemma greedy_nothing (levels : list (Q * Q)) (r : Q) :
  Forall (fun l => 0 <= snd l) levels -> r == 0 ->
  fst (greedy levels r) == 0 /\ snd (greedy levels r) == 0.
Proof.
  intros Hl. revert r. induction Hl as [|[price qty] levels Hq Hl IH];
    intros r Hr; cbn [greedy].
  - split; reflexivity.
  - cbn in Hq.
    assert (Ht : Qmin r qty == 0).
    { destruct (Q.min_spec r qty) as [[H ->] | [H ->]]; qlra. }
    destruct (IH (r - Qmin r qty)) as [I1 I2]; [qlra|].
    destruct (greedy levels (r - Qmin r qty)) as [q f]. cbn [fst snd] in *.
    rewrite Ht, I1, I2. split; ring.
Qed.

(** The loop of [_avg_exec_price] accumulates the greedy fill: leaving the
    loop once nothing remains changes nothing when no level has a negative
    quantity. *)
Lemma walk_greedy (levels : list (Q * Q)) :
  Forall (fun l => 0 <= snd l) levels ->
  forall r r' tq f, r == r' -> 0 <= r ->
    snd (fst (walk levels r tq f)) == tq + fst (greedy levels r')
    /\ snd (walk levels r tq f) == f + snd (greedy levels r').
Proof.
  induction 1 as [|[price qty] levels Hq Hl IH]; intros r r' tq f Hr H0;
    cbn [walk greedy].
  - cbn. split; ring.
  - cbn in Hq.
    pose proof (pymin_Qmin r qty r' qty Hr (Qeq_refl _)) as Hm.
    pose proof (Qmin_bounds r' qty ltac:(qlra) Hq) as Hb.
    destruct (Qle_bool r 0) eqn:E.
    + apply Qle_bool_iff in E.
      destruct (greedy_nothing ((price, qty) :: levels) r') as [G1 G2].
      { now constructor. }
      { qlra. }
      cbn [greedy] in G1, G2. cbn [fst snd]. rewrite G1, G2. split; ring.
    + destruct (IH (r - PyQ.min r qty) (r' - Qmin r' qty)
                  (tq + PyQ.min r qty * price) (f + PyQ.min r qty))
        as [I1 I2]; [qlra | qlra |].
      destruct (greedy levels (r' - Qmin r' qty)) as [q fl].
      cbn [fst snd] in *. rewrite I1, I2, Hm. split; ring.
Qed.

Lemma avg_exec_greedy (levels : list (Q * Q)) (base_qty : Q) (side : string) :
  Forall (fun l => 0 <= snd l) levels -> 0 <= base_qty ->
  let quote := fst (greedy levels base_qty) in
  let fill := snd (greedy levels base_qty) in
  let r := _avg_exec_price levels base_qty side in
  snd r == fill
  /\ (0 < fill -> fst r == quote / fill)
  /\ (~ 0 < fill -> fst r == 0).
Proof.
  intros Hl Hb. cbn zeta. unfold _avg_exec_price.
  destruct (walk_greedy levels Hl base_qty base_qty 0 0 (Qeq_refl _) Hb)
    as [W1 W2].
  destruct (walk levels base_qty 0 0) as [[r' tq] f]. cbn [fst snd] in *.
  rewrite Qplus_0_l in W1, W2.
  split; [exact W2|].
  destruct (PyQ.ltb 0 f) eqn:E; cbn [fst].
  - apply ltb_lt in E. split.
    + intros _. rewrite W1, W2. reflexivity.
    + intros N. exfalso. apply N. qlra.
  - apply ltb_ge in E. split.
    + intros P. exfalso. qlra.
    + reflexivity.
Qed.

Lemma div_Some_Q (a b : Q) : ~ b == 0 -> PyQ.div a b = Some (a / b).
Proof.
  intros H. unfold PyQ.div. destruct (Qeq_bool b 0) eqn:E; [|reflexivity].
  apply Qeq_bool_iff in E. contradiction.
Qed.

Lemma slip_guard (avg mid : Q) :
  let s := if PyQ.ltb 0 avg then Qabs (avg - mid) / mid else 0 in
  (0 < avg -> s == Qabs (avg - mid) / mid) /\ (~ 0 < avg -> s == 0).
Proof.
  cbn zeta. destruct (PyQ.ltb 0 avg) eqn:E.
  - apply ltb_lt in E. split; [reflexivity | contradiction].
  - apply ltb_ge in E. split; [intros P; exfalso; qlra | reflexivity].
Qed.

Lemma leg_ok (book : list (Q * Q)) (mid notional : Q) (taker : option Q)
    (side : string) :
  Forall (fun l => 0 <= snd l) book -> 0 <= notional / mid ->
  let r := _avg_exec_price book (notional / mid) side in
  let slip := if PyQ.ltb 0 (fst r) then Qabs (fst r - mid) / mid else 0 in
  leg_spec book mid notional taker (fst r) (snd r) slip (slip * notional)
    (or_zero taker * notional).
Proof.
  intros Hb Hq. cbn zeta. unfold leg_spec. cbn zeta.
  destruct (avg_exec_greedy book (notional / mid) side Hb Hq)
    as (A1 & A2 & A3).
  destruct (slip_guard (fst (_avg_exec_price book (notional / mid) side)) mid)
    as (S1 & S2).
  repeat split; try assumption; reflexivity.
Qed.

(** C9 (amended).  For a configured pair, positive mids, a notional that is
    not negative and books without negative quantities, [api_simulate]
    answers, for each leg: base qty [notional / mid]; the levels of the
    leg's side consumed greedily with [take = min(remaining, qty)],
    accumulating the quote total and the filled base; the average
    [quote / filled] when something was filled and 0 otherwise; the slippage
    fraction [|avg - mid| / mid] when the average is positive and 0
    otherwise; slippage USD [slippage · notional]; fee USD
    [taker · notional]; and [total_cost_usd], the sum over both legs of
    slippage USD plus fee USD.  Selling 1.5 (150 USD at a mid of 100) into
    bids [[100, 1], [99, 2]] averages 149.5 / 1.5 (about 99.667) and slips
    by 1/300 (about 0.00333). *)
Theorem C9_simulate :
  (forall (m : Upstream) (notional : Q) (pattern : string),
      configured m = true ->
      0 < quoted_mid_a m -> 0 < quoted_mid_b m -> 0 <= notional ->
      pattern = "enter_short_A_long_B" \/ pattern = "enter_long_A_short_B" ->
      Forall (fun l => 0 <= snd l) (book_a m pattern) ->
      Forall (fun l => 0 <= snd l) (book_b m pattern) ->
      exists r,
        api_simulate m notional pattern = Ok r
        /\ mid_a r = quoted_mid_a m /\ mid_b r = quoted_mid_b m
        /\ leg_spec (book_a m pattern) (mid_a r) notional (taker_a m)
             (avg_a r) (filled_base_a r) (slip_a_pct r) (slip_a_usd r)
             (fee_a_usd r)
        /\ leg_spec (book_b m pattern) (mid_b r) notional (taker_b m)
             (avg_b r) (filled_base_b r) (slip_b_pct r) (slip_b_usd r)
             (fee_b_usd r)
        /\ total_cost_usd r
           == (slip_a_usd r + fee_a_usd r) + (slip_b_usd r + fee_b_usd r))
  /\ (exists r,
        api_simulate s4_market 150 "enter_short_A_long_B" = Ok r
        /\ filled_base_a r == 15 # 10
        /\ avg_a r == (1495 # 10) / (15 # 10)
        /\ Qabs (avg_a r - (99667 # 1000)) < 1 # 1000
        /\ slip_a_pct r == 1 # 300
        /\ Qabs (slip_a_pct r - (333 # 100000)) < 1 # 100000).
Proof.
  split.
  - intros m notional pattern Hc Ha Hb Hn Hp Hba Hbb.
    assert (Hqa : 0 <= notional / quoted_mid_a m).
    { apply Qle_shift_div_l; [exact Ha | qlra]. }
    assert (Hqb : 0 <= notional / quoted_mid_b m).
    { apply Qle_shift_div_l; [exact Hb | qlra]. }
    unfold api_simulate. rewrite Hc. cbn [negb].
    rewrite !div_Some_Q by (intros E; rewrite E in *; discriminate).
    destruct Hp as [-> | ->]; cbn [String.eqb Ascii.eqb Bool.eqb];
      unfold book_a, book_b in Hba, Hbb |- *;
      cbn [String.eqb Ascii.eqb Bool.eqb] in Hba, Hbb |- *.
    + pose proof (leg_ok _ _ notional (taker_a m) "sell" Hba Hqa) as La.
      pose proof (leg_ok _ _ notional (taker_b m) "buy" Hbb Hqb) as Lb.
      cbn zeta in La, Lb.
      destruct (_avg_exec_price _ (notional / quoted_mid_a m) "sell")
        as [avga fa].
      destruct (_avg_exec_price _ (notional / quoted_mid_b m) "buy")
        as [avgb fb].
      eexists. split; [reflexivity|].
      cbn [mid_a mid_b avg_a avg_b slip_a_pct slip_b_pct slip_a_usd slip_b_usd
           fee_a_usd fee_b_usd total_cost_usd filled_base_a filled_base_b
           fst snd] in *.
      split; [reflexivity|]. split; [reflexivity|].
      split; [exact La|]. split; [exact Lb|]. ring.
    + pose proof (leg_ok _ _ notional (taker_a m) "buy" Hba Hqa) as La.
      pose proof (leg_ok _ _ notional (taker_b m) "sell" Hbb Hqb) as Lb.
      cbn zeta in La, Lb.
      destruct (_avg_exec_price _ (notional / quoted_mid_a m) "buy")
        as [avga fa].
      destruct (_avg_exec_price _ (notional / quoted_mid_b m) "sell")
        as [avgb fb].
      eexists. split; [reflexivity|].
      cbn [mid_a mid_b avg_a avg_b slip_a_pct slip_b_pct slip_a_usd slip_b_usd
           fee_a_usd fee_b_usd total_cost_usd filled_base_a filled_base_b
           fst snd] in *.
      split; [reflexivity|]. split; [reflexivity|].
      split; [exact La|]. split; [exact Lb|]. ring.
  - eexists. split; [vm_compute; reflexivity|].
    cbn [filled_base_a avg_a slip_a_pct].
    repeat split; vm_compute; reflexivity.
Qed.

Lemma C9_simulate_witness :
  exists r,
    api_simulate s4_market 150 "enter_short_A_long_B" = Ok r
    /\ total_cost_usd r
       == (slip_a_usd r + fee_a_usd r) + (slip_b_usd r + fee_b_usd r).
Proof.
  destruct C9_simulate as [H _].
  destruct (H s4_market 150 "enter_short_A_long_B")
    as (r & E & _ & _ & _ & _ & T).
  - reflexivity.
  - reflexivity.
  - reflexivity.
  - discriminate.
  - left; reflexivity.
  - repeat constructor; discriminate.
  - repeat constructor; discriminate.
  - exists r. split; [exact E | exact T].
Defined.

(** With no bid on A nothing is filled: the average is 0 and the handler
    reports a slippage of 0, where [|avg - mid| / mid] is 1. *)
Lemma C9_counterexample :
  exists r,
    api_simulate no_bids_market 150 "enter_short_A_long_B" = Ok r
    /\ filled_base_a r == 0 /\ avg_a r == 0
    /\ slip_a_pct r == 0
    /\ Qabs (avg_a r - mid_a r) / mid_a r == 1
    /\ ~ slip_a_pct r == Qabs (avg_a r - mid_a r) / mid_a r.
Proof.
  eexists. split; [vm_compute; reflexivity|].
  cbn [filled_base_a avg_a slip_a_pct mid_a].
  repeat split; try (vm_compute; reflexivity).
  intros H. discriminate H.
Qed.

End Simulator.

(** ** Ingestion and fan-out *)

Section Ingestion.
Import Panel PanelSpec Fixtures.
Variable int_of_str : string -> option Z.
Variable float_of_str : string -> option Q.

Abbreviation ingest := (ingest_spread int_of_str float_of_str).

Lemma find_missing (payload : gmap string jvalue) (ks : list string) :
  match find (fun k => negb (bool_decide (is_Some (payload !! k)))) ks with
  | Some k => In k ks /\ payload !! k = None
  | None => forall k, In k ks -> is_Some (payload !! k)
  end.
Proof.
  induction ks as [|k ks IH]; cbn [find].
  - intros k [].
  - destruct (payload !! k) as [v|] eqn:E; cbn.
    + destruct (find _ ks) as [k'|].
      * destruct IH as [I1 I2]. split; [now right | exact I2].
      * intros k' [<- | Hk]; [rewrite E; eauto | now apply IH].
    + split; [now left | exact E].
Qed.

(** Disconnecting and pushing touch different fields. *)
Lemma broadcast_fold (broken : gset positive) (pair : jvalue)
    (message : gmap string jvalue) (conns : list positive) (st : Server) :
  let st' :=
    fold_left
      (fun st ws =>
         if decide (ws ∈ broken) then
           match pair with JStr p => disconnect p ws st | _ => st end
         else mkServer (db st) (active st) (pushed st ++ [(ws, message)]))
      conns st in
  db st' = db st
  /\ pushed st'
     = pushed st
       ++ map (fun ws => (ws, message))
            (List.filter (fun ws => negb (bool_decide (ws ∈ broken))) conns).
Proof.
  cbn zeta. revert st.
  induction conns as [|ws conns IH]; intros st; cbn [fold_left List.filter map].
  - rewrite app_nil_r. split; reflexivity.
  - destruct (decide (ws ∈ broken)) as [Hb|Hb].
    + rewrite (bool_decide_eq_true_2 _ Hb). cbn [negb].
      destruct (IH (match pair with
                    | JStr p => disconnect p ws st
                    | _ => st
                    end)) as [I1 I2].
      rewrite I1, I2.
      destruct pair; try (split; reflexivity).
      unfold disconnect. destruct (active st !! s); split; reflexivity.
    + rewrite (bool_decide_eq_false_2 _ Hb). cbn [negb map].
      destruct (IH (mkServer (db st) (active st)
                      (pushed st ++ [(ws, message)]))) as [I1 I2].
      rewrite I1, I2. cbn [db pushed]. rewrite <- app_assoc.
      split; reflexivity.
Qed.

Lemma fits_int64_spec (n : Z) : int64 n = true <-> fits_int64 n.
Proof.
  unfold int64, fits_int64. rewrite andb_true_iff, Z.leb_le, Z.ltb_lt.
  reflexivity.
Qed.

Lemma timestamp_int (v : jvalue) :
  is_timestamp v ->
  exists n, py_int int_of_str v = Some n /\ int64 n = true.
Proof.
  destruct v; cbn [is_timestamp py_int]; try contradiction;
    intros H; eexists; (split; [reflexivity | now apply fits_int64_spec]).
Qed.

Lemma measure_float (v : jvalue) :
  is_measure v -> is_Some (py_float float_of_str v).
Proof.
  destruct v; cbn [is_measure py_float]; try contradiction; eauto.
  intros H. apply Z.ltb_lt in H. rewrite H. eauto.
Qed.

Lemma storable_bindable (v : jvalue) : bindable v = true <-> storable v.
Proof.
  destruct v; cbn [bindable storable]; try (split; [tauto | reflexivity]);
    try (split; [discriminate | contradiction]).
  apply fits_int64_spec.
Qed.

Lemma unreadable_raises (v : jvalue) :
  unreadable v ->
  py_int int_of_str v = None /\ py_float float_of_str v = None.
Proof. destruct v; cbn; try contradiction; split; reflexivity. Qed.

(** What the row built from a payload holds. *)
Lemma row_of_fields (payload : gmap string jvalue) (row : Stored) :
  row_of int_of_str float_of_str payload = Some row ->
  s_pair row = default JNull (payload !! "pair")
  /\ py_int int_of_str (default JNull (payload !! "ts_ms"))
     = Some (s_ts_ms row)
  /\ s_extras row = map (fun k => payload !! k) extra_columns
  /\ forall k, In k (tl required) ->
       ~ unreadable (default JNull (payload !! k)).
Proof.
  unfold row_of. intros H.
  destruct (py_int int_of_str (default JNull (payload !! "ts_ms")))
    as [ts|] eqn:E0; [|discriminate].
  destruct (py_float float_of_str (default JNull (payload !! "price_a")))
    as [pa|] eqn:E1; [|discriminate].
  destruct (py_float float_of_str (default JNull (payload !! "price_b")))
    as [pb|] eqn:E2; [|discriminate].
  destruct (py_float float_of_str (default JNull (payload !! "spread")))
    as [sp|] eqn:E3; [|discriminate].
  destruct (py_float float_of_str (default JNull (payload !! "z")))
    as [zv|] eqn:E4; [|discriminate].
  destruct (py_float float_of_str (default JNull (payload !! "mean")))
    as [mv|] eqn:E5; [|discriminate].
  destruct (py_float float_of_str (default JNull (payload !! "std")))
    as [sv|] eqn:E6; [|discriminate].
  cbn [mbind option_bind] in H. injection H as <-.
  cbn [s_pair s_ts_ms s_extras]. repeat split.
  intros k Hk U. apply unreadable_raises in U as [U1 U2].
  cbn in Hk.
  repeat (destruct Hk as [<- | Hk]; [congruence|]). destruct Hk.
Qed.

(** A well-typed sample converts and is accepted by the driver. *)
Lemma well_typed_row (payload : gmap string jvalue) (st : Server) :
  well_typed payload ->
  exists row p,
    row_of int_of_str float_of_str payload = Some row
    /\ payload !! "pair" = Some (JStr p) /\ s_pair row = JStr p
    /\ insert_spread st row
       = Some (mkServer (db st ++ [row]) (active st) (pushed st)).
Proof.
  intros ((p & Hp) & (tv & Htv & Hts) & Hnum & Hext). unfold row_of.
  assert (Hf : forall k, In k (tl (tl required)) ->
             is_Some (py_float float_of_str (default JNull (payload !! k)))).
  { intros k Hk. destruct (Hnum k Hk) as (v & -> & Hv). cbn.
    now apply measure_float. }
  assert (Ht : exists ts,
             py_int int_of_str (default JNull (payload !! "ts_ms")) = Some ts
             /\ int64 ts = true).
  { rewrite Htv. cbn. now apply timestamp_int. }
  destruct Ht as (ts & -> & Hts64).
  destruct (Hf "price_a") as [pa ->]; [cbn; tauto|].
  destruct (Hf "price_b") as [pb ->]; [cbn; tauto|].
  destruct (Hf "spread") as [sp ->]; [cbn; tauto|].
  destruct (Hf "z") as [zv ->]; [cbn; tauto|].
  destruct (Hf "mean") as [mv ->]; [cbn; tauto|].
  destruct (Hf "std") as [sv ->]; [cbn; tauto|].
  cbn [mbind option_bind]. rewrite Hp. cbn [default].
  eexists _, p. split; [reflexivity|]. split; [reflexivity|].
  split; [reflexivity|].
  unfold insert_spread. cbn [s_pair s_ts_ms s_extras bindable andb].
  rewrite Hts64. cbn [andb].
  rewrite (proj2 (forallb_forall _ _)); [reflexivity|].
  intros o Ho. apply in_map_iff in Ho as (k & <- & Hk).
  destruct (payload !! k) as [v|] eqn:E; [|reflexivity].
  cbn. apply storable_bindable. now apply (Hext k).
Qed.

(** A payload with a value that cannot be converted or bound is refused by
    the conversions or by the driver. *)
Lemma refused_row (payload : gmap string jvalue) (st : Server) :
  (exists n, payload !! "ts_ms" = Some (JInt n) /\ ~ fits_int64 n)
  \/ (exists k v, In k extra_columns /\ payload !! k = Some v
                  /\ ~ storable v)
  \/ (exists k v, In k (tl required) /\ payload !! k = Some v
                  /\ unreadable v) ->
  row_of int_of_str float_of_str payload ≫= insert_spread st = None.
Proof.
  intros H.
  destruct (row_of int_of_str float_of_str payload) as [row|] eqn:E;
    [|reflexivity].
  cbn [mbind option_bind].
  destruct (row_of_fields payload row E) as (Hpair & Hts & Hex & Hread).
  unfold insert_spread.
  destruct H as [(n & Hn & Hbig) | [(k & v & Hk & Hv & Hs) | (k & v & Hk & Hv & Hu)]].
  - rewrite Hn in Hts. cbn in Hts. injection Hts as <-.
    assert (E64 : int64 n = false).
    { destruct (int64 n) eqn:F; [|reflexivity].
      apply fits_int64_spec in F. contradiction. }
    rewrite E64, andb_false_r. cbn [andb]. destruct (s_pair row); reflexivity.
  - assert (Ef : forallb (fun v => bindable (default JNull v)) (s_extras row)
                 = false).
    { destruct (forallb _ (s_extras row)) eqn:F; [|reflexivity].
      rewrite forallb_forall in F. exfalso. apply Hs.
      apply storable_bindable. rewrite Hex in F.
      specialize (F (payload !! k) (in_map _ _ _ Hk)).
      rewrite Hv in F. exact F. }
    rewrite Ef, andb_false_r. destruct (s_pair row); reflexivity.
  - exfalso. apply (Hread k Hk). rewrite Hv. exact Hu.
Qed.

(** C7 (amended).  [POST /api/ingest/spread] answers 400 exactly when one of
    the eight required keys is absent, and then changes nothing.  When all
    eight are present it answers ok exactly when [int] and [float] convert
    the seven numeric fields and the driver accepts the row; the row is then
    appended to the store and the full payload pushed, once, to every
    subscriber of the pair whose socket is not broken, and the answer is ok
    also when the pair has no subscriber.  In particular this is what a
    well-typed sample gets: a text as pair, a timestamp within 64 bits, six
    numbers a float holds, and optional fields the table stores.  When a
    conversion raises or the driver refuses a value (a null, a list or an
    object as a number, an integer beyond 64 bits as time or in an optional
    field, a list or an object in an optional field), the request fails as a
    server error and nothing is stored or pushed. *)
Theorem C7_ingest (broken : gset positive) (payload : gmap string jvalue)
    (st : Server) :
  let r := ingest broken payload st in
  let missing := exists k, In k required /\ payload !! k = None in
  ((exists d, fst r = HTTPException 400 d) <-> missing)
  /\ (missing -> snd r = st)
  /\ (~ missing ->
      match row_of int_of_str float_of_str payload ≫= insert_spread st with
      | Some st' =>
          fst r = Ok tt
          /\ (exists row, db st' = db st ++ [row]) /\ db (snd r) = db st'
          /\ pushed (snd r)
             = pushed st
               ++ map (fun ws => (ws, payload))
                    (List.filter (fun ws => negb (bool_decide (ws ∈ broken)))
                       (subscribers st (default JNull (payload !! "pair"))))
      | None => fst r = Raised /\ snd r = st
      end)
  /\ (well_typed payload ->
      exists row p,
        row_of int_of_str float_of_str payload = Some row
        /\ payload !! "pair" = Some (JStr p)
        /\ fst r = Ok tt
        /\ db (snd r) = db st ++ [row]
        /\ pushed (snd r)
           = pushed st
             ++ map (fun ws => (ws, payload))
                  (List.filter (fun ws => negb (bool_decide (ws ∈ broken)))
                     (elements (default ∅ (active st !! p))))
        /\ (active st !! p = None -> pushed (snd r) = pushed st))
  /\ (~ missing ->
      (exists n, payload !! "ts_ms" = Some (JInt n) /\ ~ fits_int64 n)
      \/ (exists k v, In k extra_columns /\ payload !! k = Some v
                      /\ ~ storable v)
      \/ (exists k v, In k (tl required) /\ payload !! k = Some v
                      /\ unreadable v) ->
      fst r = Raised /\ snd r = st).
Proof.
  cbn zeta. unfold ingest_spread.
  pose proof (find_missing payload required) as Hfind.
  destruct (find _ required) as [k|] eqn:Ef.
  - destruct Hfind as [Hk Hnone]. cbn [fst snd].
    split; [split; eauto|]. split; [reflexivity|].
    split; [|split].
    + intros N. exfalso. apply N. eauto.
    + intros ((p & Hp) & (tv & Htv & _) & Hnum & _). exfalso.
      destruct Hk as [<- | Hk]; [congruence|].
      destruct Hk as [<- | Hk]; [congruence|].
      destruct (Hnum k Hk) as (v & Hv & _). congruence.
    + intros N. exfalso. apply N. eauto.
  - assert (Hpresent : ~ exists k, In k required /\ payload !! k = None).
    { intros (k & Hk & Hn). destruct (Hfind k Hk) as [v Hv]. congruence. }
    assert (Hdone : forall st',
               row_of int_of_str float_of_str payload ≫= insert_spread st
               = Some st' ->
               (exists row, db st' = db st ++ [row])
               /\ active st' = active st /\ pushed st' = pushed st).
    { intros st' H.
      destruct (row_of int_of_str float_of_str payload) as [row|];
        [|discriminate].
      cbn in H. unfold insert_spread in H.
      destruct (s_pair row); try discriminate;
        destruct (_ && _ && _); try discriminate;
        injection H as <-; cbn; eauto. }
    split; [|split; [|split; [|split]]].
    + split; [|intros; contradiction].
      intros [d Hd].
      destruct (row_of int_of_str float_of_str payload ≫= insert_spread st);
        discriminate.
    + intros; contradiction.
    + intros _.
      destruct (row_of int_of_str float_of_str payload ≫= insert_spread st)
        as [st'|] eqn:E; cbn [fst snd]; [|split; reflexivity].
      destruct (Hdone st' eq_refl) as (Hrow & Hact & Hpush).
      unfold broadcast.
      destruct (broadcast_fold broken (default JNull (payload !! "pair"))
                  payload
                  (subscribers st' (default JNull (payload !! "pair"))) st')
        as [B1 B2].
      split; [reflexivity|]. split; [exact Hrow|]. split; [exact B1|].
      rewrite B2, Hpush. unfold subscribers. rewrite Hact. reflexivity.
    + intros Hwt.
      destruct (well_typed_row payload st Hwt) as (row & p & Hr & Hp & _ & Hi).
      exists row, p. rewrite Hr. cbn [mbind option_bind]. rewrite Hi.
      cbn [fst snd]. rewrite Hp. cbn [default].
      unfold broadcast.
      match goal with |- context [fold_left ?f ?l ?s] =>
        destruct (broadcast_fold broken (JStr p) payload l s) as [B1 B2]
      end.
      split; [reflexivity|]. split; [reflexivity|]. split; [reflexivity|].
      split; [exact B1|].
      split; [exact B2|].
      intros Hn. etransitivity; [exact B2|].
      unfold subscribers. simpl. rewrite Hn. simpl.
      rewrite elements_empty. simpl. now rewrite app_nil_r.
    + intros _ Hbad. rewrite (refused_row payload st Hbad).
      split; reflexivity.
Qed.

End Ingestion.

Section IngestionExamples.
Import Panel PanelSpec Fixtures.

Lemma good_sample_well_typed : well_typed good_sample.
Proof.
  split; [exists "BTCUSDT"; vm_compute; reflexivity|]. split; [|split].
  - eexists. split; [vm_compute; reflexivity|]. cbn. unfold fits_int64. lia.
  - intros k Hk. cbn in Hk.
    repeat (destruct Hk as [<- | Hk];
            [eexists; split; [vm_compute; reflexivity | exact I]|]).
    destruct Hk.
  - intros k v Hk Hv. cbn in Hk.
    repeat (destruct Hk as [<- | Hk];
            [vm_compute in Hv; try discriminate;
             injection Hv as <-; cbn; unfold fits_int64; lia|]).
    destruct Hk.
Qed.

(** One sample fanned out to two subscribers, the second one broken. *)
Lemma C7_ingest_witness :
  let r := ingest_spread no_text_int no_text_float {[2%positive]} good_sample
             two_subscribers in
  fst r = Ok tt /\ length (db (snd r)) = 1%nat
  /\ pushed (snd r) = [(1%positive, good_sample)].
Proof.
  destruct (C7_ingest no_text_int no_text_float {[2%positive]} good_sample
              two_subscribers) as (_ & _ & _ & H & _).
  destruct (H good_sample_well_typed) as (row & p & _ & Hp & Hok & Hdb & Hpush & _).
  cbn zeta. split; [exact Hok|]. split.
  - rewrite Hdb. rewrite length_app. reflexivity.
  - rewrite Hpush.
    assert (p = "BTCUSDT") as ->.
    { vm_compute in Hp. now injection Hp as <-. }
    vm_compute. reflexivity.
Defined.

(** All eight keys are there, "mean" is null: [float(None)] raises, the
    answer is a server error, nothing is stored and nobody is told. *)
Lemma C7_counterexample :
  (forall k, In k required -> is_Some (null_mean !! k))
  /\ forall int_of_str float_of_str broken,
       ingest_spread int_of_str float_of_str broken null_mean two_subscribers
       = (Raised, two_subscribers).
Proof.
  split.
  - intros k Hk. cbn in Hk.
    repeat (destruct Hk as [<- | Hk]; [vm_compute; eauto|]).
    destruct Hk.
  - intros i f broken. reflexivity.
Qed.

(** A timestamp of 2^63 has all eight keys and is a number, and the driver
    refuses it: nothing is stored and nobody is told. *)
Example late_sample_refused :
  (forall k, In k required -> is_Some (late_sample !! k))
  /\ forall int_of_str float_of_str broken,
       ingest_spread int_of_str float_of_str broken late_sample
         two_subscribers
       = (Raised, two_subscribers).
Proof.
  split.
  - intros k Hk. cbn in Hk.
    repeat (destruct Hk as [<- | Hk]; [vm_compute; eauto|]).
    destruct Hk.
  - intros i f broken. vm_compute. reflexivity.
Qed.

End IngestionExamples.

(** * Further properties *)

(** ** The signals over a run of ticks *)

Section FeedFacts.
Import ZScore Feed.
Local Open Scope R_scope.

Lemma lastn_app_lastn {A : Type} (n : nat) (l r : list A) :
  lastn n (lastn n l ++ r) = lastn n (l ++ r).
Proof.
  unfold lastn. rewrite !length_app, length_skipn.
  destruct (Nat.le_gt_cases (length l) n) as [H|H].
  - replace (length l - n)%nat with 0%nat by lia. cbn [skipn].
    f_equal. lia.
  - rewrite <- (drop_app_le l r (length l - n)) by lia.
    rewrite drop_drop. f_equal. lia.
Qed.

Lemma deque_append_lastn (m : nat) (d : list R) (x : R) :
  (length d <= m)%nat -> (1 <= m)%nat ->
  deque_append m d x = lastn m (d ++ [x]).
Proof.
  intros Hd Hm. unfold deque_append, lastn.
  rewrite length_app. cbn [length].
  destruct (Nat.ltb_spec m (length d + 1)) as [H|H].
  - replace (length d + 1 - m)%nat with 1%nat by lia.
    destruct d; reflexivity.
  - replace (length d + 1 - m)%nat with 0%nat by lia. reflexivity.
Qed.

Lemma feed_window (zs : RollingZScore) (xs : list R) :
  (1 <= Z.to_nat (window zs))%nat ->
  (length (buf zs) <= Z.to_nat (window zs))%nat ->
  window (feed zs xs) = window zs
  /\ buf (feed zs xs) = lastn (Z.to_nat (window zs)) (buf zs ++ xs).
Proof.
  revert zs. induction xs as [|x xs IH]; intros zs Hw Hb; cbn [feed].
  - split; [reflexivity|]. rewrite app_nil_r. unfold lastn.
    replace (_ - _)%nat with 0%nat by lia. reflexivity.
  - destruct (IH (snd (update zs x))) as [I1 I2].
    + exact Hw.
    + cbn. apply deque_append_length; assumption.
    + cbn [update snd window buf] in I1, I2 |- *.
      split; [exact I1|]. rewrite I2.
      rewrite deque_append_lastn by assumption.
      rewrite lastn_app_lastn, <- app_assoc. reflexivity.
Qed.

(** X1.  A fresh [RollingZScore(W)] fed the values [xs] one [update] at a
    time holds exactly the last [W] of them, oldest first: all of them while
    fewer than [W] were fed. *)
Theorem rolling_feed_last (W : Z) (zs : RollingZScore) (xs : list R) :
  init W = Some zs ->
  buf (feed zs xs) = lastn (Z.to_nat W) xs
  /\ length (buf (feed zs xs)) = Nat.min (Z.to_nat W) (length xs)
  /\ ((length xs <= Z.to_nat W)%nat -> buf (feed zs xs) = xs).
Proof.
  intros Hi. unfold init in Hi.
  destruct (Z.leb_spec W 1) as [|HW]; [discriminate|]. injection Hi as <-.
  destruct (feed_window (mkRolling W []) xs) as [_ E]; cbn; try lia.
  cbn in E. rewrite E. unfold lastn.
  split; [reflexivity|]. split.
  - rewrite length_skipn. lia.
  - intros H. replace (_ - _)%nat with 0%nat by lia. reflexivity.
Qed.

Lemma rolling_feed_last_witness :
  buf (feed (mkRolling 3 []) [1; 2; 3; 4; 5]) = [3; 4; 5].
Proof.
  destruct (rolling_feed_last 3 (mkRolling 3 []) [1; 2; 3; 4; 5] eq_refl)
    as [E _].
  rewrite E. reflexivity.
Defined.

Lemma Sigma_const (c : R) (l : list R) :
  Forall (fun y => y = c) l -> PyReal.Sigma l = INR (length l) * c.
Proof.
  unfold PyReal.Sigma. induction 1 as [|y l -> _ IH].
  - cbn. lra.
  - cbn [fold_right]. rewrite IH.
    change (length (c :: l)) with (S (length l)). rewrite S_INR. lra.
Qed.

Lemma Sigma_zero (l : list R) :
  Forall (fun y => y = 0) l -> PyReal.Sigma l = 0.
Proof. intros H. rewrite (Sigma_const 0 l H). lra. Qed.

Lemma deque_append_all (P : R -> Prop) (m : nat) (d : list R) (x : R) :
  Forall P d -> P x -> Forall P (deque_append m d x).
Proof.
  intros Hd Hx. unfold deque_append.
  assert (H : Forall P (d ++ [x])) by (apply Forall_app; auto).
  destruct (m <? length (d ++ [x]))%nat; [|exact H].
  destruct (d ++ [x]); [constructor | now inversion H].
Qed.

Lemma update_flat (W : Z) (zs : RollingZScore) (x : R) :
  reachable W zs -> Forall (fun y => y = x) (buf zs) ->
  fst (update zs x) = (0, x, 0).
Proof.
  intros Hr Hflat. apply reachable_inv in Hr as (HW & Hwin & Hlen).
  unfold update. cbn [fst]. rewrite Hwin.
  set (b := deque_append (Z.to_nat W) (buf zs) x).
  assert (Hb : Forall (fun y => y = x) b)
    by (apply deque_append_all; [exact Hflat | reflexivity]).
  assert (Hn : (1 <= length b <= Z.to_nat W)%nat)
    by (apply deque_append_length; lia).
  assert (Hmean : PyReal.sum b / INR (length b) = x).
  { rewrite sum_Sigma, (Sigma_const x b Hb). field.
    apply not_0_INR. lia. }
  rewrite Hmean.
  assert (Hsq : PyReal.sum (map (fun y => (y - x) ^ 2) b) = 0).
  { rewrite sum_Sigma. apply Sigma_zero.
    clear -Hb. induction Hb as [|y l -> _ IH]; cbn [map]; constructor;
      [lra | exact IH]. }
  rewrite Hsq.
  assert (Hstd : (if (1 <? length b)%nat
                  then sqrt (Rmax (0 / (INR (length b) - 1)) 0) else 0) = 0).
  { destruct (1 <? length b)%nat; [|reflexivity].
    replace (0 / (INR (length b) - 1)) with 0 by (unfold Rdiv; lra).
    rewrite Rmax_left by lra. apply sqrt_0. }
  rewrite Hstd.
  destruct (Rlt_dec 0 0) as [H|_]; [lra | reflexivity].
Qed.

(** *** The moving average *)

Lemma ema_alpha (w : Z) (e : EMA) :
  ema_init w = Some e -> 0 < alpha e <= 1 /\ value e = None.
Proof.
  unfold ema_init. destruct (Z.leb_spec w 0) as [|Hw]; [discriminate|].
  intros [= <-]. cbn. split; [|reflexivity].
  assert (H : 1 <= IZR w) by (apply IZR_le; lia).
  split.
  - apply Rdiv_lt_0_compat; lra.
  - apply Rmult_le_reg_r with (IZR w + 1); [lra|].
    unfold Rdiv. rewrite Rmult_assoc, Rinv_l by lra. lra.
Qed.

End FeedFacts.

(** ** More on the poller *)

Section PollerFacts.
Import ZScore Runner Reversion Inputs Poller.
Local Open Scope R_scope.


(** X5.  The first tick of a poller (empty window, average not yet set, with
    [enter_z > 0] and [exit_z >= 0]) has [z = 0], [std = 0], the spread as
    mean and as ema, and no centre deviation; its action is "exit" when the
    sample is fresh and "hold" when it is stale. *)
Theorem first_tick (cfg : Settings) (W We : Z) (zs : RollingZScore) (e : EMA)
    (a b : Fetch) :
  init W = Some zs -> ema_init We = Some e ->
  0 < enter_z cfg -> 0 <= exit_z cfg ->
  let s := fst (fst (tick cfg zs e a b)) in
  z s = 0 /\ std s = 0 /\ mean s = price a - price b
  /\ ema s = price a - price b /\ center_dev s = 0
  /\ action s = if (stale s =? 0)%Z then "exit" else "hold".
Proof.
  intros Hz He Hen Hex.
  assert (Hu : fst (update zs (price a - price b))
               = (0, price a - price b, 0)).
  { apply (update_flat W); [now apply reach_init|].
    unfold init in Hz. destruct (W <=? 1)%Z; [discriminate|].
    injection Hz as <-. constructor. }
  destruct (ema_alpha We e He) as [_ Hnone].
  unfold tick.
  destruct (update zs (price a - price b)) as [[[zv m] sd] zs'].
  cbn [fst] in Hu. injection Hu as -> -> ->.
  unfold ema_update. rewrite Hnone. cbn zeta.
  cbn [fst snd z std mean ema center_dev action stale].
  destruct (Rlt_dec (1 / 10 ^ 12) 0) as [H|_].
  { exfalso. assert (0 < 1 / 10 ^ 12) by (apply Rdiv_lt_0_compat; [lra|apply pow_lt; lra]). lra. }
  repeat split.
  unfold decide_action.
  destruct (Rle_dec (enter_z cfg) 0); [lra|].
  destruct (Rle_dec 0 (- enter_z cfg)); [lra|].
  rewrite Rabs_R0. destruct (Rle_dec 0 (exit_z cfg)); [reflexivity | lra].
Qed.

Lemma first_tick_witness :
  action (fst (fst (tick happy_cfg (mkRolling 60 [])
                      (mkEMA 30 (2 / (30 + 1)) None) happy_a happy_b)))
  = "exit".
Proof.
  destruct (first_tick happy_cfg 60 30 (mkRolling 60 [])
              (mkEMA 30 (2 / (30 + 1)) None) happy_a happy_b)
    as (_ & _ & _ & _ & _ & H); try reflexivity; try (cbn; lra).
  exact H.
Defined.

(** The sign of z is the side of the mean the value lies on. *)
Lemma update_side (zs : RollingZScore) (x : R) :
  let u := fst (update zs x) in
  (0 < fst (fst u) -> 0 < snd u /\ snd (fst u) < x)
  /\ (fst (fst u) < 0 -> 0 < snd u /\ x < snd (fst u)).
Proof.
  cbn zeta. cbn [update fst snd].
  set (b := deque_append _ _ _).
  set (m := PyReal.sum b / INR (length b)).
  set (sd := if (1 <? length b)%nat then _ else 0).
  clearbody sd m.
  destruct (Rlt_dec 0 sd) as [Hs|Hs]; [|split; intros H; lra].
  assert (E : (x - m) / sd * sd = x - m) by (field; lra).
  split; intros H; (split; [exact Hs|]); nra.
Qed.

Lemma happy_action :
  action (fst (fst (tick happy_cfg happy_window happy_ema happy_a happy_b)))
  = "enter_short_A_long_B".
Proof.
  destruct (tick_sample happy_cfg happy_window happy_ema happy_a happy_b)
    as (_ & _ & _ & _ & _ & _ & _ & _ & _ & Hact).
  cbn zeta in Hact. rewrite Hact, happy_fresh. cbn [Z.eqb].
  apply decide_action_cases.
  rewrite (seeded_z happy_cfg happy_window happy_ema happy_a happy_b
             eq_refl eq_refl happy_mean happy_std).
  cbn. lra.
Qed.

(** X2.  With [enter_z > 0], a tick that says "enter_short_A_long_B" is
    fresh, has a positive deviation and a spread above the window's mean
    with [z >= enter_z]; one that says "enter_long_A_short_B" is fresh, has
    a positive deviation and a spread below the mean with [z <= -enter_z].
    An entry is never signalled on the wrong side of the mean. *)
Theorem entry_side_of_mean (cfg : Settings) (zs : RollingZScore) (e : EMA)
    (a b : Fetch) :
  0 < enter_z cfg ->
  let s := fst (fst (tick cfg zs e a b)) in
  (action s = "enter_short_A_long_B" ->
   stale s = 0%Z /\ enter_z cfg <= z s /\ 0 < std s /\ mean s < spread s)
  /\ (action s = "enter_long_A_short_B" ->
      stale s = 0%Z /\ z s <= - enter_z cfg /\ 0 < std s
      /\ spread s < mean s).
Proof.
  intros Hen.
  destruct (tick_sample cfg zs e a b)
    as (_ & Hsp & Hz & Hm & Hsd & _ & _ & _ & _ & Hact).
  destruct (update_side zs (price a - price b)) as [Hpos Hneg].
  cbn zeta in *. rewrite Hact, Hz, Hm, Hsd, Hsp.
  destruct (Z.eqb_spec (stale (fst (fst (tick cfg zs e a b)))) 0)
    as [Hst|_]; [|split; discriminate].
  unfold decide_action.
  destruct (Rle_dec (enter_z cfg) _) as [H1|H1].
  - split; [|discriminate]. intros _.
    split; [exact Hst|]. split; [exact H1|]. apply Hpos. lra.
  - destruct (Rle_dec _ (- enter_z cfg)) as [H2|H2].
    + split; [discriminate|]. intros _.
      split; [exact Hst|]. split; [exact H2|]. apply Hneg. lra.
    + destruct (Rle_dec _ (exit_z cfg)); split; discriminate.
Qed.

Lemma entry_side_of_mean_witness :
  let s := fst (fst (tick happy_cfg happy_window happy_ema happy_a happy_b)) in
  0 < std s /\ mean s < spread s.
Proof.
  destruct (entry_side_of_mean happy_cfg happy_window happy_ema happy_a
              happy_b ltac:(cbn; lra)) as [H _].
  destruct (H happy_action) as (_ & _ & H1 & H2). split; assumption.
Defined.

(** X6.  With [enter_z > 0], negating z swaps the two entry actions and
    leaves "exit" and "hold" as they are. *)
Theorem decide_action_mirror (zv ez xz : R) :
  0 < ez ->
  decide_action (- zv) ez xz = mirror (decide_action zv ez xz).
Proof.
  intros He. unfold decide_action. rewrite Rabs_Ropp.
  destruct (Rle_dec ez zv), (Rle_dec zv (- ez)), (Rle_dec ez (- zv)),
    (Rle_dec (- zv) (- ez)), (Rle_dec (Rabs zv) xz);
    try reflexivity; lra.
Qed.

Lemma decide_action_mirror_witness :
  decide_action (- 3) 2 (1 / 2) = mirror (decide_action 3 2 (1 / 2)).
Proof. apply decide_action_mirror. lra. Defined.

Lemma half_life_pos (B : list R) (pm : Z) :
  0 < phi B < 1 -> (0 < pm)%Z -> 0 < half_life_s B pm.
Proof.
  intros Hphi Hpm. unfold half_life_s.
  pose proof ln2_pos as H2.
  pose proof (ln_neg (phi B) ltac:(lra) ltac:(lra)) as Hln.
  apply Rmult_lt_0_compat.
  - apply Rdiv_lt_0_compat; lra.
  - apply IZR_lt in Hpm. lra.
Qed.

(** X7.  [estimate_reversion_times] answers both numbers or neither.  With a
    positive [poll_ms], a half-life it reports is positive and an exit time
    it reports is never negative, and is 0 exactly when [exit_z <= 0] or z is
    already within [exit_z]. *)
Theorem estimate_outputs (zs : RollingZScore) (cz ez : R) (pm : Z) :
  let r := estimate_reversion_times zs cz ez pm in
  (fst r = None <-> snd r = None)
  /\ ((0 < pm)%Z -> forall h t, r = (Some h, Some t) ->
      0 < h /\ 0 <= t /\ (t = 0 <-> ez <= 0 \/ Rabs cz <= ez)).
Proof.
  cbn zeta.
  destruct (Nat.lt_ge_cases (length (buf zs)) 10) as [Hn|Hn].
  { rewrite (estimate_short zs cz ez pm Hn). cbn.
    split; [tauto | intros _ h t [=]]. }
  unfold estimate_reversion_times. rewrite (estimate_body_slope _ _ _ _ Hn).
  destruct (Req_dec_T _ 0); [cbn; split; [tauto | intros _ h t [=]]|].
  destruct (Rle_dec (phi _) 0); [cbn; split; [tauto | intros _ h t [=]]|].
  destruct (Rle_dec _ (phi _)); [cbn; split; [tauto | intros _ h t [=]]|].
  cbn zeta.
  assert (Hphi : 0 < phi (buf zs) < 1) by lra.
  destruct (Rle_dec ez 0) as [He|He].
  { cbn. split; [split; discriminate|]. intros Hpm h t [= <- <-].
    split; [now apply half_life_pos|]. split; [lra | tauto]. }
  destruct (Rle_dec (Rabs cz) ez) as [Hc|Hc].
  { cbn. split; [split; discriminate|]. intros Hpm h t [= <- <-].
    split; [now apply half_life_pos|]. split; [lra | tauto]. }
  destruct (Req_dec_T _ 0); [cbn; split; [tauto | intros _ h t [=]]|].
  cbn. split; [split; discriminate|]. intros Hpm h t [= <- <-].
  pose proof (half_life_pos (buf zs) pm Hphi Hpm) as Hh.
  pose proof ln2_pos as H2.
  assert (Hr : 1 < Rabs cz / ez).
  { apply Rmult_lt_reg_r with ez; [lra|].
    unfold Rdiv. rewrite Rmult_assoc, Rinv_l by lra. lra. }
  assert (Hl : 0 < ln (Rabs cz / ez)).
  { rewrite <- ln_1. apply ln_increasing; lra. }
  assert (Ht : 0 < t_exit_s (buf zs) cz ez pm).
  { unfold t_exit_s. apply Rdiv_lt_0_compat; [|exact H2].
    now apply Rmult_lt_0_compat. }
  split; [exact Hh|]. split; [lra|]. split; [lra | intros [?|?]; lra].
Qed.

Lemma halving_estimate :
  estimate_reversion_times halving 2 (1 / 2) 1000
  = (Some (half_life_s (buf halving) 1000),
     Some (t_exit_s (buf halving) 2 (1 / 2) 1000)).
Proof.
  destruct halving_guards as (Hn & Hden & Hphi).
  unfold estimate_reversion_times. rewrite (estimate_body_slope _ _ _ _ Hn).
  destruct (Req_dec_T _ 0); [contradiction|].
  destruct (Rle_dec (phi _) 0); [lra|].
  destruct (Rle_dec _ (phi _)); [lra|]. cbn zeta.
  pose proof (half_life_zero (buf halving) 1000 ltac:(lra)) as Hz.
  destruct (Rle_dec (1 / 2) 0); [lra|].
  destruct (Rle_dec (Rabs 2) (1 / 2)) as [H|H];
    [rewrite Rabs_pos_eq in H; lra|].
  destruct (Req_dec_T _ 0) as [E|]; [|reflexivity].
  apply Hz in E. discriminate.
Qed.

Lemma estimate_outputs_witness :
  0 < half_life_s (buf halving) 1000
  /\ 0 <= t_exit_s (buf halving) 2 (1 / 2) 1000.
Proof.
  destruct (estimate_outputs halving 2 (1 / 2) 1000) as [_ H].
  destruct (H ltac:(lia) _ _ halving_estimate) as (H1 & H2 & _).
  split; assumption.
Defined.

(** X8.  The funding suggestion is all or nothing: advice, cycle amount and
    next amount are all absent or all present, and they are present only for
    one of the two entry actions; the amount expected at the next funding is
    either 0 or the whole cycle amount.  A stale tick, whose action is
    "hold", never gets a suggestion. *)
Theorem funding_all_or_nothing (act : string) (fa fb : option R)
    (cd : option Z) (te : option R) (notional : R) :
  let f := funding_step act fa fb cd te notional in
  (f = mkFunding None None None
   \/ exists adv cyc nxt,
        f = mkFunding (Some adv) (Some cyc) (Some nxt)
        /\ (adv = advice_avoidable \/ adv = advice_spanning)
        /\ (nxt = 0 \/ nxt = cyc)
        /\ (act = "enter_short_A_long_B" \/ act = "enter_long_A_short_B"))
  /\ (forall cfg zs e a b,
        let s := fst (fst (tick cfg zs e a b)) in
        stale s = 1%Z ->
        funding_step (action s) fa fb cd te notional
        = mkFunding None None None).
Proof.
  cbn zeta. split.
  - unfold funding_step.
    destruct cd as [c|], te as [t|]; auto.
    destruct (truthyZ (Some c) && PyReal.truthy (Some t)); auto.
    unfold net_rate. destruct fa as [ra|], fb as [rb|]; auto.
    destruct (String.eqb_spec act "enter_short_A_long_B") as [->|_].
    + right. eexists _, _, _. split; [reflexivity|].
      split; [destruct (Rlt_dec t _); auto|].
      split; [destruct (Rle_dec _ t); auto | auto].
    + destruct (String.eqb_spec act "enter_long_A_short_B") as [->|_]; auto.
      right. eexists _, _, _. split; [reflexivity|].
      split; [destruct (Rlt_dec t _); auto|].
      split; [destruct (Rle_dec _ t); auto | auto].
  - intros cfg zs e a b Hst.
    destruct (tick_sample cfg zs e a b)
      as (_ & _ & _ & _ & _ & _ & _ & _ & _ & Hact).
    cbn zeta in Hact. rewrite Hact, Hst. cbn [Z.eqb].
    unfold funding_step.
    destruct cd as [c|], te as [t|]; auto.
    destruct (truthyZ (Some c) && PyReal.truthy (Some t)); auto.
    unfold net_rate. destruct fa, fb; reflexivity.
Qed.

Lemma funding_all_or_nothing_witness :
  funding_step
    (action (fst (fst (tick happy_cfg happy_window happy_ema happy_a
                         (mkFetch (995 / 10) 1700000004000 55)))))
    (Some (1 / 10000)) (Some (- 2 / 10000)) (Some 3600000%Z) (Some 600) 1000
  = mkFunding None None None.
Proof.
  destruct (funding_all_or_nothing "hold" (Some (1 / 10000))
              (Some (- 2 / 10000)) (Some 3600000%Z) (Some 600) 1000)
    as [_ H].
  apply H. reflexivity.
Defined.

End PollerFacts.

(** ** The venue adapters *)

Section ConnectorFacts.
Import Connectors.
Local Open Scope Q_scope.

(** X9.  For a positive cycle length the approximated next funding time is a
    multiple of the period, strictly after [now_ms] and at most one period
    away; with a cycle of 0 hours the computation raises. *)
Theorem lighter_next_funding_aligned (cycle_hours now_ms : Z) :
  let period_ms := (cycle_hours * 3600 * 1000)%Z in
  ((0 < cycle_hours)%Z ->
   exists next,
     lighter_next_funding cycle_hours now_ms = Some next
     /\ (now_ms < next <= now_ms + period_ms)%Z
     /\ (next mod period_ms = 0)%Z)
  /\ (cycle_hours = 0%Z -> lighter_next_funding cycle_hours now_ms = None).
Proof.
  cbn zeta. split.
  - intros Hc. unfold lighter_next_funding.
    set (p := (cycle_hours * 3600 * 1000)%Z).
    assert (Hp : (0 < p)%Z) by (unfold p; lia).
    destruct (Z.eqb_spec p 0) as [|_]; [lia|].
    eexists. split; [reflexivity|].
    pose proof (Z.div_mod now_ms p ltac:(lia)) as Hdm.
    pose proof (Z.mod_pos_bound now_ms p Hp) as Hb.
    split; [nia|]. apply Z_mod_mult.
  - intros ->. reflexivity.
Qed.

Lemma lighter_next_funding_aligned_witness :
  lighter_next_funding 8 1700000000000 = Some 1700006400000%Z.
Proof.
  destruct (lighter_next_funding_aligned 8 1700000000000) as [H _].
  destruct (H ltac:(lia)) as (next & E & _ & _).
  rewrite E. vm_compute in E. symmetry. exact E.
Defined.

(** X10.  [LighterConnector.get_mid_price] raises exactly when the market
    id is missing or the book has neither a bid nor an ask; with one side
    only it returns that side's best price; with both it returns a price
    that lies between the best bid and the best ask whenever the book is not
    crossed. *)
Theorem lighter_mid_price_between (market_id : option Z)
    (bids asks : list (Q * Q)) :
  (lighter_mid_price market_id bids asks = None
   <-> market_id = None \/ (bids = [] /\ asks = []))
  /\ (forall m, lighter_mid_price market_id bids asks = Some m ->
        (best asks = None -> best bids = Some m)
        /\ (best bids = None -> best asks = Some m)
        /\ (forall b a, best bids = Some b -> best asks = Some a ->
              b <= a -> b <= m <= a)).
Proof.
  unfold lighter_mid_price.
  destruct market_id as [id|].
  2:{ split; [split; auto | discriminate]. }
  destruct bids as [|[b qb] bids], asks as [|[a qa] asks]; cbn [best].
  - split; [split; auto | discriminate].
  - split; [split; [discriminate | intros [|[_ ?]]; discriminate]|].
    intros m [= <-]. repeat split; try discriminate; auto.
  - split; [split; [discriminate | intros [|[? _]]; discriminate]|].
    intros m [= <-]. repeat split; try discriminate; auto.
  - split; [split; [discriminate | intros [|[? _]]; discriminate]|].
    intros m [= <-]. split; [discriminate|]. split; [discriminate|].
    intros b' a' [= <-] [= <-] Hba.
    split.
    + apply Qle_shift_div_l; [reflexivity | qlra].
    + apply Qle_shift_div_r; [reflexivity | qlra].
Qed.

Lemma lighter_mid_price_between_witness :
  exists m,
    lighter_mid_price (Some 0%Z) [(99, 1)] [(101, 2)] = Some m
    /\ 99 <= m <= 101.
Proof.
  destruct (lighter_mid_price_between (Some 0%Z) [(99, 1)] [(101, 2)])
    as [_ H].
  eexists. split; [reflexivity|].
  destruct (H _ eq_refl) as (_ & _ & Hb).
  apply Hb; [reflexivity | reflexivity | discriminate].
Defined.

Lemma nonzero_spec (x : Q) : nonzero x = true <-> ~ x == 0.
Proof.
  unfold nonzero. rewrite negb_true_iff. split.
  - intros H E. apply Qeq_bool_iff in E. congruence.
  - intros H. destruct (Qeq_bool x 0) eqn:E; [|reflexivity].
    apply Qeq_bool_iff in E. contradiction.
Qed.

(** X11.  On one decoded book whose mid price is not 0, the two adapters
    report the same best bid, best ask, absolute spread and relative spread;
    on a book with no level on either side Lighter raises where Aster
    reports zeros. *)
Theorem summaries_agree (levels : Z) (bids asks : list (Q * Q)) :
  (lighter_summary levels bids asks = None <-> bids = [] /\ asks = [])
  /\ (bids = [] -> asks = [] ->
      aster_summary levels bids asks = mkSummary 0 0 0 0 (0 + 0) 0)
  /\ (forall s, lighter_summary levels bids asks = Some s ->
        (forall b a, best bids = Some b -> best asks = Some a ->
                     ~ (b + a) / 2 == 0) ->
        let t := aster_summary levels bids asks in
        best_bid s = best_bid t /\ best_ask s = best_ask t
        /\ spread_abs s = spread_abs t /\ spread_pct s = spread_pct t).
Proof.
  split; [|split].
  - unfold lighter_summary.
    destruct bids as [|[b qb] bids], asks as [|[a qa] asks]; cbn [best];
      try (split; [reflexivity | discriminate]).
    + split; [auto | reflexivity].
    + destruct (_sum_levels levels []), (_sum_levels levels ((a, qa) :: asks)).
      split; [discriminate | intros [_ ?]; discriminate].
    + destruct (_sum_levels levels ((b, qb) :: bids)), (_sum_levels levels []).
      split; [discriminate | intros [? _]; discriminate].
    + destruct (_sum_levels levels ((b, qb) :: bids)),
        (_sum_levels levels ((a, qa) :: asks)).
      split; [discriminate | intros [? _]; discriminate].
  - intros -> ->. unfold aster_summary, prefix. cbn.
    destruct (levels <? 0)%Z; rewrite ?firstn_nil; reflexivity.
  - intros s Hs Hmid. cbn zeta.
    unfold lighter_summary in Hs. unfold aster_summary.
    cbn [best_bid best_ask spread_abs spread_pct].
    destruct (_sum_levels levels bids) as [qb nb].
    destruct (_sum_levels levels asks) as [qa na].
    destruct (best bids) as [b|] eqn:Eb, (best asks) as [a|] eqn:Ea;
      try discriminate; injection Hs as <-;
      cbn [best_bid best_ask spread_abs spread_pct fst snd];
      try (repeat split; reflexivity).
    rewrite (proj2 (nonzero_spec _) (Hmid b a eq_refl eq_refl)).
    repeat split; reflexivity.
Qed.

Lemma summaries_agree_witness :
  exists s,
    lighter_summary 5 [(99, 1); (98, 2)] [(101, 2)] = Some s
    /\ spread_pct s
       = spread_pct (aster_summary 5 [(99, 1); (98, 2)] [(101, 2)]).
Proof.
  destruct (summaries_agree 5 [(99, 1); (98, 2)] [(101, 2)]) as (_ & _ & H).
  eexists. split; [reflexivity|].
  apply H; [reflexivity|].
  intros b a [= <-] [= <-]. discriminate.
Defined.

(** X12.  In a summary of a book that has both sides, a positive best bid
    and is not crossed, [spread_abs] is ask minus bid, and [spread_pct] is
    that spread over the mid price, at least 0 and at most 2.  With one side
    missing, the missing best price and both spread figures are reported as
    0. *)
Theorem summary_spread (levels : Z) (bids asks : list (Q * Q)) :
  (forall b a, best bids = Some b -> best asks = Some a -> 0 < b -> b <= a ->
     exists s,
       lighter_summary levels bids asks = Some s
       /\ best_bid s = b /\ best_ask s = a
       /\ spread_abs s = a - b /\ 0 <= spread_abs s
       /\ spread_pct s = (a - b) / ((b + a) / 2)
       /\ 0 <= spread_pct s /\ spread_pct s <= 2)
  /\ (forall s, lighter_summary levels bids asks = Some s ->
        best bids = None \/ best asks = None ->
        spread_abs s = 0 /\ spread_pct s = 0
        /\ (best bids = None -> best_bid s = 0)
        /\ (best asks = None -> best_ask s = 0)).
Proof.
  split.
  - intros b a Eb Ea Hb Hba. unfold lighter_summary. rewrite Eb, Ea.
    assert (Hm : 0 < (b + a) / 2).
    { apply Qlt_shift_div_l; [reflexivity | qlra]. }
    assert (Hnz : nonzero ((b + a) / 2) = true).
    { apply nonzero_spec. intros E. rewrite E in Hm. discriminate. }
    rewrite Hnz.
    destruct (_sum_levels levels bids), (_sum_levels levels asks).
    eexists. split; [reflexivity|]. cbn.
    split; [reflexivity|]. split; [reflexivity|].
    split; [reflexivity|]. split; [qlra|]. split; [reflexivity|].
    split.
    + apply Qle_shift_div_l; [exact Hm | qlra].
    + apply Qle_shift_div_r; [exact Hm|].
      assert (E : 2 * ((b + a) / 2) == b + a) by field.
      rewrite E. qlra.
  - intros s Hs Hone. unfold lighter_summary in Hs.
    destruct (_sum_levels levels bids), (_sum_levels levels asks).
    destruct (best bids) as [b|], (best asks) as [a|];
      try discriminate; injection Hs as <-; cbn.
    + destruct Hone; discriminate.
    + repeat split; try reflexivity; discriminate.
    + repeat split; try reflexivity; discriminate.
Qed.

Lemma summary_spread_witness :
  exists s,
    lighter_summary 5 [(99, 1); (98, 2)] [(101, 2)] = Some s
    /\ spread_abs s = 101 - 99 /\ spread_pct s <= 2.
Proof.
  destruct (summary_spread 5 [(99, 1); (98, 2)] [(101, 2)]) as [H _].
  destruct (H 99 101 eq_refl eq_refl eq_refl ltac:(discriminate))
    as (s & E & _ & _ & Ha & _ & _ & _ & Hp).
  exists s. auto.
Defined.

End ConnectorFacts.

(** ** More on the rate limiter *)

Section LimiterFacts.
Import RateLimit LimiterSpec LimiterRuns Fixtures.
Local Open Scope Q_scope.

(** X13.  Whatever a bucket held before, after a [consume] of a weight that
    is not negative it holds between 0 and its capacity; capacity and refill
    rate are untouched, and its clock has not gone back. *)
Theorem consume_keeps_bounds (late : nat -> Q) (fuel : nat)
    (b b' : TokenBucket) (weight : Z) (now : Q) :
  (forall i, 0 <= late i) -> (0 <= weight)%Z ->
  consume late fuel b weight now = Some b' ->
  0 <= _tokens b' <= inject_Z (capacity b')
  /\ capacity b' = capacity b /\ refill_rate b' = refill_rate b
  /\ now <= _last b'.
Proof.
  intros Hlate Hw H. unfold consume in H.
  destruct (wait_loop late fuel 0 (refill b now) (inject_Z weight))
    as [held|] eqn:E; [|discriminate].
  cbn in H. injection H as <-. cbn [_tokens capacity refill_rate _last].
  destruct (wait_loop_done _ _ _ _ _ _ E) as (D1 & D2 & D3).
  assert (Hr : _tokens (refill b now) <= inject_Z (capacity (refill b now)))
    by (cbn [refill _tokens capacity]; apply min_le_l).
  destruct (wait_loop_bounds _ _ _ _ _ _ Hlate Hr E) as [B1 B2].
  cbn [refill capacity refill_rate _last] in D2, D3, B2.
  assert (0 <= inject_Z weight) by (now rewrite <- (Zle_Qle 0)).
  repeat split; try assumption; qlra.
Qed.

Lemma consume_keeps_bounds_witness :
  exists b',
    consume (fun _ => 0) 1 (mkBucket 20 10 (1 # 2) 7) 3 7 = Some b'
    /\ 0 <= _tokens b' <= 20.
Proof.
  eexists. split; [vm_compute; reflexivity|].
  destruct (consume_keeps_bounds (fun _ => 0) 1 (mkBucket 20 10 (1 # 2) 7)
              _ 3 7 ltac:(intros; apply Qle_refl) ltac:(lia)
              ltac:(vm_compute; reflexivity))
    as (Hb & _).
  exact Hb.
Defined.

Lemma min_le_r (a b : Q) : PyQ.min a b <= b.
Proof.
  unfold PyQ.min. destruct (PyQ.ltb b a) eqn:E.
  - apply Qle_refl.
  - now apply ltb_ge in E.
Qed.

Lemma burst_from (n : nat) (b : TokenBucket) (now : Q) :
  _last b == now -> _tokens b <= inject_Z (capacity b) ->
  inject_Z (Z.of_nat n) <= _tokens b ->
  exists b',
    burst n b now = Some b'
    /\ _tokens b' == _tokens b - inject_Z (Z.of_nat n)
    /\ capacity b' = capacity b /\ _last b' == now.
Proof.
  revert b. induction n as [|n IH]; intros b Hlast Hcap Hn; cbn [burst].
  - exists b. split; [reflexivity|]. split; [cbn; ring|].
    split; [reflexivity | exact Hlast].
  - rewrite Nat2Z.inj_succ in Hn |- *. unfold Z.succ in Hn |- *.
    rewrite inject_Z_plus in Hn |- *.
    assert (Hn0 : 0 <= inject_Z (Z.of_nat n)).
    { rewrite <- (Zle_Qle 0). lia. }
    assert (Ht : _tokens (refill b now) == _tokens b).
    { cbn [refill _tokens].
      assert (Hv : _tokens b + (now - _last b) * refill_rate b == _tokens b)
        by (rewrite Hlast; ring).
      rewrite min_r_eq; [exact Hv | rewrite Hv; exact Hcap]. }
    unfold consume. cbn [wait_loop].
    destruct (PyQ.ltb (_tokens (refill b now)) (inject_Z 1)) eqn:E.
    { apply ltb_lt in E. rewrite Ht in E. exfalso.
      change (inject_Z 1) with 1 in *. qlra. }
    cbn [mbind option_bind].
    match goal with |- context [burst n ?b1 now] =>
      destruct (IH b1) as (b' & Hb & Htok & Hc & Hl)
    end.
    + reflexivity.
    + cbn [_tokens capacity refill]. rewrite Ht.
      change (inject_Z 1) with 1. qlra.
    + cbn [_tokens]. rewrite Ht. change (inject_Z 1) with 1 in *. qlra.
    + exists b'. split; [exact Hb|]. split; [|split; [exact Hc | exact Hl]].
      rewrite Htok. cbn [_tokens]. rewrite Ht. ring.
Qed.

(** X14.  A freshly built bucket of capacity [C] serves [C] unit requests at
    once, without any of them sleeping, and is then empty; one more request
    at that instant has to wait. *)
Theorem fresh_bucket_burst (C : Z) (rate now : Q) (n : nat) :
  (Z.of_nat n <= C)%Z ->
  (exists b',
      burst n (new_bucket C rate now) now = Some b'
      /\ _tokens b' == inject_Z C - inject_Z (Z.of_nat n))
  /\ (Z.of_nat n = C -> burst (S n) (new_bucket C rate now) now = None).
Proof.
  intros Hn.
  destruct (burst_from n (new_bucket C rate now) now)
    as (b' & Hb & Ht & Hc & Hl).
  { reflexivity. }
  { apply Qle_refl. }
  { cbn [new_bucket _tokens]. now rewrite <- Zle_Qle. }
  cbn [new_bucket _tokens] in Ht. split; [eauto|].
  intros HC.
  assert (Hall : forall m b0 b1, burst m b0 now = Some b1 ->
            burst (S m) b0 now
            = consume (fun _ => 0) 0 b1 1 now ≫= fun b2 => Some b2).
  { induction m as [|m IHm]; intros b0 b1 H.
    - cbn in H. injection H as <-. cbn [burst].
      destruct (consume (fun _ => 0) 0 b0 1 now); reflexivity.
    - cbn [burst] in H |- *.
      destruct (consume (fun _ => 0) 0 b0 1 now) as [b0'|]; [|discriminate].
      cbn [mbind option_bind] in H |- *. rewrite <- (IHm _ _ H).
      reflexivity. }
  rewrite (Hall n _ b' Hb).
  assert (Hz : _tokens b' == 0) by (rewrite Ht, HC; ring).
  unfold consume. cbn [wait_loop].
  destruct (PyQ.ltb (_tokens (refill b' now)) (inject_Z 1)) eqn:E;
    [reflexivity|].
  apply ltb_ge in E. exfalso. cbn [refill _tokens] in E.
  pose proof (min_le_r (inject_Z (capacity b'))
                (_tokens b' + (now - _last b') * refill_rate b')) as Hm.
  assert (Hv : _tokens b' + (now - _last b') * refill_rate b' == 0)
    by (rewrite Hz, Hl; ring).
  assert (Hm0 : PyQ.min (inject_Z (capacity b'))
                  (_tokens b' + (now - _last b') * refill_rate b') <= 0).
  { eapply Qle_trans; [exact Hm|]. rewrite Hv. apply Qle_refl. }
  change (inject_Z 1) with 1 in E. qlra.
Qed.

Lemma fresh_bucket_burst_witness :
  exists b',
    burst 5 (new_bucket 5 5 0) 0 = Some b' /\ _tokens b' == 0
    /\ burst 6 (new_bucket 5 5 0) 0 = None.
Proof.
  destruct (fresh_bucket_burst 5 5 0 5 ltac:(lia)) as [(b' & Hb & Ht) Hn].
  exists b'. split; [exact Hb|]. split; [rewrite Ht; reflexivity|].
  apply Hn. reflexivity.
Defined.

(** X16.  A call of [allow] that returns changes one bucket only, the one it
    consumed (under the endpoint's key or the exchange's "global" key);
    every other bucket of the limiter is as before and none is removed. *)
Theorem allow_frame (late : nat -> Q) (fuel : nat) (self out : RateLimiter)
    (exchange endpoint : string) (weight : Z) (now : Q) :
  allow late fuel self exchange endpoint weight now = Some out ->
  let key := fst (fst (pick self exchange endpoint now)) in
  (key = _key exchange endpoint \/ key = _key exchange "global")
  /\ is_Some (_buckets out !! key)
  /\ (forall k, k <> key -> _buckets out !! k = _buckets self !! k)
  /\ (forall k, is_Some (_buckets self !! k) -> is_Some (_buckets out !! k)).
Proof.
  unfold allow, pick. cbn zeta.
  destruct (_buckets self !! _key exchange endpoint) as [b1|] eqn:E1;
    [|destruct (_buckets self !! _key exchange "global") as [b2|] eqn:E2];
    cbn [fst snd];
    (match goal with
     | |- context [consume late fuel ?b weight now] =>
         destruct (consume late fuel b weight now) as [b'|]
     end; [|discriminate]);
    cbn [mbind option_bind]; intros [= <-]; cbn [_buckets].
  - split; [now left|]. split; [rewrite lookup_insert_eq; eauto|].
    split.
    + intros k Hk. now rewrite lookup_insert_ne.
    + intros k Hk. destruct (decide (_key exchange endpoint = k)) as [<-|N].
      * rewrite lookup_insert_eq. eauto.
      * now rewrite lookup_insert_ne.
  - split; [now right|]. split; [rewrite lookup_insert_eq; eauto|].
    split.
    + intros k Hk. now rewrite lookup_insert_ne.
    + intros k Hk. destruct (decide (_key exchange "global" = k)) as [<-|N].
      * rewrite lookup_insert_eq. eauto.
      * now rewrite lookup_insert_ne.
  - split; [now right|]. split; [rewrite lookup_insert_eq; eauto|].
    split.
    + intros k Hk. now rewrite !lookup_insert_ne.
    + intros k Hk. destruct (decide (_key exchange "global" = k)) as [<-|N].
      * rewrite lookup_insert_eq. eauto.
      * now rewrite !lookup_insert_ne.
Qed.

Lemma allow_frame_witness :
  exists out,
    allow (fun _ => 0) 1 busy_limiter "aster" "depth" 3 7 = Some out
    /\ _buckets out !! "aster:order" = _buckets busy_limiter !! "aster:order".
Proof.
  eexists. split; [vm_compute; reflexivity|].
  destruct (allow_frame (fun _ => 0) 1 busy_limiter _ "aster" "depth" 3 7
              ltac:(vm_compute; reflexivity)) as (_ & _ & Hf & _).
  apply Hf. vm_compute. discriminate.
Defined.

Lemma fold_install_last_conf (l : list (string * BucketConf)) (now : Q)
    (self : RateLimiter) (k : string) :
  _buckets (fold_left (fun rl ke =>
              mkLimiter (<[fst ke := fresh (snd ke) now]> (_buckets rl)))
              l self) !! k
  = match last_conf k l with
    | Some c => Some (fresh c now)
    | None => _buckets self !! k
    end.
Proof.
  revert self. induction l as [|[k' c] l IH]; intros self;
    cbn [fold_left last_conf].
  - reflexivity.
  - rewrite IH. destruct (last_conf k l); [reflexivity|].
    cbn [_buckets fst snd].
    destruct (String.eqb_spec k' k) as [->|N].
    + apply lookup_insert_eq.
    + now apply lookup_insert_ne.
Qed.

(** X17.  After [update], each key holds the fresh bucket of the last entry
    of the configuration that names it, and the old bucket if none does.
    Hence applying a configuration a second time, at whatever time the first
    one was applied, leaves exactly what applying it once leaves: nothing of
    the buckets it replaces survives. *)
Theorem update_last_wins (config : Config) (now now0 : Q)
    (self : RateLimiter) :
  (forall k,
      _buckets (update config now self) !! k
      = match last_conf k (entries config) with
        | Some c => Some (fresh c now)
        | None => _buckets self !! k
        end)
  /\ update config now (update config now0 self) = update config now self.
Proof.
  split.
  - intros k. rewrite update_entries. apply fold_install_last_conf.
  - rewrite !update_entries.
    match goal with |- ?l = ?r =>
      assert (H : _buckets l = _buckets r)
    end.
    { apply map_eq. intros k. rewrite !fold_install_last_conf.
      destruct (last_conf k (entries config)); reflexivity. }
    match goal with |- ?l = ?r => destruct l, r end.
    cbn in H. now rewrite H.
Qed.

End LimiterFacts.

(** ** More on the panel *)

Section EdgeFacts.
Import Panel PanelSpec.
Local Open Scope Q_scope.

Lemma pair_up_fst (l : list Q) : map fst (pair_up l) = l.
Proof. induction l as [|x l IH]; cbn; [reflexivity | now rewrite IH]. Qed.

Lemma pair_up_next (l : list Q) (i : nat) (b : Q * option Q) :
  pair_up l !! i = Some b -> snd b = fst <$> (pair_up l !! S i).
Proof.
  revert i. induction l as [|x l IH]; intros i H; [discriminate|].
  destruct i as [|i].
  - cbn in H. injection H as <-. cbn. destruct l; reflexivity.
  - cbn in H |- *. now apply IH.
Qed.

(** X18.  The bins [_parse_edges] builds from edges in any order have the
    edges, sorted ascending, as lower bounds, one bin per edge; each bin's
    upper bound is the next bin's lower bound and the last bin has none.
    When an edge cannot be read, the four default bins are used, which are
    laid out the same way. *)
Theorem parse_edges_bins (parts : option (list Q)) :
  let bins := _parse_edges parts in
  (forall i b, bins !! i = Some b -> snd b = fst <$> (bins !! S i))
  /\ Sorted Qle (map fst bins)
  /\ (forall ps, parts = Some ps ->
        length bins = length ps /\ Permutation ps (map fst bins))
  /\ (parts = None -> map fst bins = [3 # 2; 2; 5 # 2; 3]).
Proof.
  cbn zeta. destruct parts as [ps|]; cbn [_parse_edges].
  - destruct (durations_sorted ps) as [Hs Hp].
    split; [apply pair_up_next|]. rewrite pair_up_fst.
    split; [exact Hs|]. split; [|discriminate].
    intros ps' [= <-]. split; [|exact Hp].
    rewrite <- (length_map fst), pair_up_fst. apply sort_length.
  - split.
    + intros [|[|[|[|i]]]] b [= <-]; reflexivity.
    + split; [repeat constructor; discriminate|].
      split; [discriminate | reflexivity].
Qed.

Lemma parse_edges_bins_witness :
  let bins := _parse_edges (Some [5 # 2; 3 # 2]) in
  length bins = 2%nat /\ Permutation [5 # 2; 3 # 2] (map fst bins)
  /\ Sorted Qle (map fst bins).
Proof.
  destruct (parse_edges_bins (Some [5 # 2; 3 # 2])) as (_ & Hs & H & _).
  destruct (H _ eq_refl) as [Hl Hp]. cbn zeta. auto.
Defined.

End EdgeFacts.

Section PercentileFacts.
Import Panel PanelSpec Fixtures.
Local Open Scope Q_scope.

Lemma round_mono (x y : Q) : x <= y -> (PyQ.round x <= PyQ.round y)%Z.
Proof.
  intros Hxy. pose proof (Qfloor_resp_le x y Hxy) as Hf.
  destruct (Z.eq_dec (Qfloor x) (Qfloor y)) as [E|N].
  - unfold PyQ.round. cbn zeta. rewrite <- E.
    destruct (PyQ.ltb (x - inject_Z (Qfloor x)) (1 # 2)) eqn:X1;
      destruct (PyQ.ltb (y - inject_Z (Qfloor x)) (1 # 2)) eqn:Y1;
      destruct (PyQ.ltb (1 # 2) (x - inject_Z (Qfloor x))) eqn:X2;
      destruct (PyQ.ltb (1 # 2) (y - inject_Z (Qfloor x))) eqn:Y2;
      destruct (Z.even (Qfloor x)); try lia;
      repeat match goal with
             | H : PyQ.ltb _ _ = true |- _ => apply ltb_lt in H
             | H : PyQ.ltb _ _ = false |- _ => apply ltb_ge in H
             end; exfalso; qlra.
  - destruct (round_floor_or_next x) as [[-> _] | [-> _]];
      destruct (round_floor_or_next y) as [[-> _] | [-> _]]; lia.
Qed.

Lemma sorted_nth (l : list Q) (i j : nat) :
  Sorted Qle l -> (i <= j < length l)%nat -> nth i l 0 <= nth j l 0.
Proof.
  intros Hs. apply Sorted_StronglySorted in Hs.
  2:{ intros a b c. apply Qle_trans. }
  revert i j. induction Hs as [|a l Hs IH Ha]; intros i j Hij;
    [cbn in Hij; lia|].
  destruct i as [|i], j as [|j]; cbn [nth].
  - apply Qle_refl.
  - rewrite Forall_forall in Ha. apply Ha.
    rewrite list_elem_of_In. apply nth_In. cbn in Hij. lia.
  - lia.
  - apply IH. cbn in Hij. lia.
Qed.

(** The index [pct] reads, which is within the list. *)
Lemma pct_index (sorted : list Q) (p : Q) :
  0 <= p <= 1 -> sorted <> [] ->
  let k := Z.to_nat (PyQ.round (p * inject_Z (Z.of_nat (length sorted) - 1))) in
  pct sorted p = Some (nth k sorted 0) /\ (k < length sorted)%nat.
Proof.
  intros Hp Hne. cbn zeta.
  rewrite pct_nearest_index by exact Hp. unfold nearest_index.
  destruct sorted as [|s sorted]; [contradiction|].
  split; [reflexivity|].
  set (n := Z.of_nat (length (s :: sorted))).
  assert (Hn : (1 <= n)%Z) by (unfold n; cbn [length]; lia).
  assert (Hn1 : 0 <= inject_Z (n - 1)).
  { change 0 with (inject_Z 0). rewrite <- Zle_Qle. lia. }
  destruct (round_range (p * inject_Z (n - 1)) (n - 1)) as [Hr0 Hr1].
  - apply Qmult_le_0_compat; tauto.
  - rewrite <- (Qmult_1_l (inject_Z (n - 1))) at 2.
    apply Qmult_le_compat_r; tauto.
  - unfold n in *. lia.
Qed.

Lemma pct_mono (sorted : list Q) (p q : Q) :
  Sorted Qle sorted -> sorted <> [] -> 0 <= p -> p <= q -> q <= 1 ->
  exists a b, pct sorted p = Some a /\ pct sorted q = Some b /\ a <= b
              /\ In a sorted /\ In b sorted.
Proof.
  intros Hs Hne Hp Hpq Hq.
  destruct (pct_index sorted p) as [Ep Hkp]; [split; qlra | exact Hne|].
  destruct (pct_index sorted q) as [Eq Hkq]; [split; qlra | exact Hne|].
  cbn zeta in *.
  eexists _, _. split; [exact Ep|]. split; [exact Eq|].
  split; [|split; apply nth_In; assumption].
  apply sorted_nth; [exact Hs|]. split; [|exact Hkq].
  apply Z2Nat.inj_le.
  - assert (Hn : 0 <= inject_Z (Z.of_nat (length sorted) - 1)).
    { change 0 with (inject_Z 0). rewrite <- Zle_Qle.
      destruct sorted; [contradiction | cbn [length]; lia]. }
    destruct (round_range (p * inject_Z (Z.of_nat (length sorted) - 1))
                (Z.of_nat (length sorted) - 1)) as [H0 _]; [| |exact H0].
    + apply Qmult_le_0_compat; assumption.
    + rewrite <- (Qmult_1_l (inject_Z _)) at 2.
      apply Qmult_le_compat_r; [qlra | assumption].
  - assert (Hn : 0 <= inject_Z (Z.of_nat (length sorted) - 1)).
    { change 0 with (inject_Z 0). rewrite <- Zle_Qle.
      destruct sorted; [contradiction | cbn [length]; lia]. }
    destruct (round_range (q * inject_Z (Z.of_nat (length sorted) - 1))
                (Z.of_nat (length sorted) - 1)) as [H0 _]; [| |exact H0].
    + apply Qmult_le_0_compat; [qlra | assumption].
    + rewrite <- (Qmult_1_l (inject_Z _)) at 2.
      apply Qmult_le_compat_r; assumption.
  - apply round_mono. apply Qmult_le_compat_r; [exact Hpq|].
    change 0 with (inject_Z 0). rewrite <- Zle_Qle.
    destruct sorted; [contradiction | cbn [length]; lia].
Qed.

(** X19.  For a bin with at least one exit, the four reported percentiles
    are durations of that bin and come in order:
    [p25_s <= median_s <= p75_s <= p90_s]. *)
Theorem percentiles_ordered (lo : Q) (hi : option Q)
    (durations prob : list Q) :
  durations <> [] ->
  let st := bin_stat lo hi durations prob in
  exists a b c d,
    p25_s st = Some a /\ median_s st = Some b /\ p75_s st = Some c
    /\ p90_s st = Some d
    /\ a <= b /\ b <= c /\ c <= d
    /\ In a durations /\ In b durations /\ In c durations /\ In d durations.
Proof.
  intros Hne. cbn zeta. unfold bin_stat.
  cbn [p25_s median_s p75_s p90_s].
  destruct (durations_sorted durations) as [Hs Hp].
  assert (Hne' : sort Qle_bool durations <> []).
  { intros E. apply Hne. apply Permutation_nil. now rewrite <- E. }
  destruct (pct_mono _ (1 # 4) (1 # 2) Hs Hne') as (a & b & Ea & Eb & Hab & Ia & Ib);
    try discriminate.
  destruct (pct_mono _ (1 # 2) (3 # 4) Hs Hne') as (b' & c & Eb' & Ec & Hbc & _ & Ic);
    try discriminate.
  destruct (pct_mono _ (3 # 4) (9 # 10) Hs Hne') as (c' & d & Ec' & Ed & Hcd & _ & Id);
    try discriminate.
  rewrite Eb in Eb'. injection Eb' as <-.
  rewrite Ec in Ec'. injection Ec' as <-.
  exists a, b, c, d. rewrite Ea, Eb, Ec, Ed.
  assert (Hin : forall x, In x (sort Qle_bool durations) -> In x durations).
  { intros x Hx. eapply Permutation_in; [symmetry; exact Hp | exact Hx]. }
  repeat split; auto.
Qed.

Lemma percentiles_ordered_witness :
  exists a b c d,
    p25_s (bin_stat 2 None [4; 1; 3; 2] []) = Some a
    /\ median_s (bin_stat 2 None [4; 1; 3; 2] []) = Some b
    /\ p75_s (bin_stat 2 None [4; 1; 3; 2] []) = Some c
    /\ p90_s (bin_stat 2 None [4; 1; 3; 2] []) = Some d
    /\ a <= b /\ b <= c /\ c <= d.
Proof.
  destruct (percentiles_ordered 2 None [4; 1; 3; 2] [] ltac:(discriminate))
    as (a & b & c & d & H1 & H2 & H3 & H4 & H5 & H6 & H7 & _).
  exists a, b, c, d. auto 10.
Defined.

End PercentileFacts.

Section RangeFacts.
Import Panel PanelSpec BookSpec Fixtures.
Local Open Scope Q_scope.

Lemma find_exit_lt (rest : list Q) (exit_z : Q) (j0 j : nat) :
  find_exit rest exit_z j0 = Some j -> (j < j0 + length rest)%nat.
Proof.
  revert j0. induction rest as [|a rest IH]; intros j0; cbn; [discriminate|].
  destruct (Qle_bool a exit_z).
  - intros [= <-]. lia.
  - intros H. apply IH in H. lia.
Qed.

Lemma sorted_nth_Z (l : list Z) (i j : nat) :
  Sorted Z.le l -> (i <= j < length l)%nat -> (nth i l 0 <= nth j l 0)%Z.
Proof.
  intros Hs. apply Sorted_StronglySorted in Hs.
  2:{ intros a b c. apply Z.le_trans. }
  revert i j. induction Hs as [|a l Hs IH Ha]; intros i j Hij;
    [cbn in Hij; lia|].
  destruct i as [|i], j as [|j]; cbn [nth].
  - lia.
  - rewrite Forall_forall in Ha. apply Ha.
    rewrite list_elem_of_In. apply nth_In. cbn in Hij. lia.
  - lia.
  - apply IH. cbn in Hij. lia.
Qed.

Lemma scan_ranges (absz : list Q) (tms : list Z) (countdown : list (option Q))
    (lo : Q) (hi : option Q) (exit_z : Q) :
  Sorted Z.le tms -> length tms = length absz ->
  forall fuel i s p s' p',
    Forall (fun x => 0 <= x) s -> Forall (fun x => 0 <= x <= 1) p ->
    scan fuel absz tms countdown lo hi exit_z i s p = Some (s', p') ->
    Forall (fun x => 0 <= x) s' /\ Forall (fun x => 0 <= x <= 1) p'.
Proof.
  intros Hs Hlen. induction fuel as [|fuel IH]; intros i s p s' p' Hsm Hpr;
    cbn [scan]; destruct (Nat.ltb_spec i (length absz)) as [Hi|Hi];
    try discriminate; try (intros [= <- <-]; auto).
  destruct (_ && _ && _).
  - destruct (find_exit (skipn i absz) exit_z i) as [j|] eqn:Hj.
    + pose proof (find_exit_ge _ _ _ _ Hj) as Hge.
      apply find_exit_lt in Hj. rewrite length_skipn in Hj.
      assert (Hdt : 0 <= inject_Z (nth j tms 0%Z - nth i tms 0%Z) / 1000).
      { apply Qle_shift_div_l; [reflexivity|].
        rewrite Qmult_0_l. change 0 with (inject_Z 0). rewrite <- Zle_Qle.
        pose proof (sorted_nth_Z tms i j Hs ltac:(lia)). lia. }
      apply IH.
      * apply Forall_app. split; [exact Hsm | repeat constructor; exact Hdt].
      * destruct (nth i countdown None); [|exact Hpr].
        apply Forall_app. split; [exact Hpr|]. repeat constructor;
          destruct (Qle_bool _ _); discriminate.
    + now apply IH.
  - now apply IH.
Qed.

Lemma sum_unit_bounds (l : list Q) (a : Q) :
  Forall (fun x => 0 <= x <= 1) l ->
  a <= fold_left Qplus l a
  /\ fold_left Qplus l a <= a + inject_Z (Z.of_nat (length l)).
Proof.
  intros H. revert a. induction H as [|x l [Hx0 Hx1] _ IH]; intros a.
  - cbn [fold_left length]. change (inject_Z (Z.of_nat 0)) with 0.
    split; [apply Qle_refl | qlra].
  - cbn [fold_left]. destruct (IH (a + x)) as [I1 I2].
    change (length (x :: l)) with (S (length l)).
    rewrite Nat2Z.inj_succ. unfold Z.succ. rewrite inject_Z_plus.
    change (inject_Z 1) with 1. split; qlra.
Qed.

Lemma pct_in (sorted : list Q) (p q : Q) :
  0 <= p <= 1 -> pct sorted p = Some q -> In q sorted.
Proof.
  intros Hp H.
  assert (Hne : sorted <> []) by (intros ->; discriminate).
  destruct (pct_index sorted p Hp Hne) as [E Hk].
  cbn zeta in E, Hk. rewrite E in H. injection H as <-.
  apply nth_In. exact Hk.
Qed.

Lemma bin_stat_in_range (lo : Q) (hi : option Q) (durations prob : list Q) :
  Forall (fun x => 0 <= x) durations ->
  Forall (fun x => 0 <= x <= 1) prob ->
  in_range (bin_stat lo hi durations prob).
Proof.
  intros Hd Hp. unfold in_range, bin_stat.
  cbn [p25_s median_s p75_s p90_s prob_exit_before_funding]. split.
  - intros q Hq.
    assert (Hin : In q (sort Qle_bool durations)).
    { cbn in Hq. destruct Hq as [H|[H|[H|[H|[]]]]];
        eapply pct_in; try exact H; split; discriminate. }
    rewrite Forall_forall in Hd. apply Hd. rewrite list_elem_of_In.
    eapply Permutation_in; [symmetry; apply sort_perm | exact Hin].
  - intros pr Hpr. destruct prob as [|x prob]; [discriminate|].
    injection Hpr as <-.
    destruct (sum_unit_bounds (x :: prob) 0 Hp) as [S0 S1].
    unfold PyQ.sum. change (S (length prob)) with (length (x :: prob)).
    assert (Hn : 0 < inject_Z (Z.of_nat (length (x :: prob)))).
    { change 0 with (inject_Z 0). rewrite <- Zlt_Qlt. cbn [length]. lia. }
    set (n := inject_Z (Z.of_nat (length (x :: prob)))) in *.
    set (t := fold_left Qplus (x :: prob) 0) in *.
    clearbody n t. split.
    + apply Qle_shift_div_l; [exact Hn | qlra].
    + apply Qle_shift_div_r; [exact Hn | qlra].
Qed.

Lemma each_bin_in_range (absz : list Q) (tms : list Z)
    (countdown : list (option Q)) (exit_z : Q) (fuel : nat) :
  Sorted Z.le tms -> length tms = length absz ->
  forall bins stats,
    each_bin fuel absz tms countdown exit_z bins = Some stats ->
    Forall in_range stats.
Proof.
  intros Hs Hlen. induction bins as [|[lo hi] bins IH]; intros stats;
    cbn [each_bin].
  - intros [= <-]. constructor.
  - destruct (scan fuel absz tms countdown lo hi exit_z 1 [] [])
      as [[durations prob]|] eqn:E; [|discriminate].
    cbn [mbind option_bind].
    destruct (each_bin fuel absz tms countdown exit_z bins) as [rest|];
      [|discriminate].
    cbn [mbind option_bind]. intros [= <-].
    destruct (scan_ranges absz tms countdown lo hi exit_z Hs Hlen
                fuel 1%nat [] [] durations prob) as [R1 R2];
      [constructor | constructor | exact E|].
    constructor; [now apply bin_stat_in_range | now apply IH].
Qed.

Lemma rows_sorted (seq : list Row) :
  Sorted Z.le
    (map ts_ms (sort (fun r1 r2 => (ts_ms r1 <=? ts_ms r2)%Z) seq)).
Proof.
  assert (H : Sorted (fun r1 r2 => (ts_ms r1 <= ts_ms r2)%Z)
                (sort (fun r1 r2 => (ts_ms r1 <=? ts_ms r2)%Z) seq)).
  { apply sort_sorted.
    - intros x y. apply Z.leb_le.
    - intros x y E. apply Z.leb_gt in E. lia. }
  induction H as [|r l Hs IH Hhd]; cbn [map]; constructor; [exact IH|].
  destruct Hhd; cbn [map]; constructor. assumption.
Qed.

(** X20.  Whatever [GET /api/stats/bins] answers, no reported percentile is
    negative (exits are timed on the samples sorted by time) and every
    [prob_exit_before_funding] lies between 0 and 1. *)
Theorem stats_in_range (fuel : nat) (pair : string) (rows : list Row)
    (now_ms days : Z) (exit_z : Q) (parts : option (list Q))
    (stats : list BinStat) :
  api_stats_bins fuel pair rows now_ms days exit_z parts = Some (Ok stats) ->
  Forall in_range stats.
Proof.
  unfold api_stats_bins.
  destruct (String.eqb pair EmptyString); [discriminate|]. cbn zeta.
  match goal with |- context [each_bin _ ?a ?t ?c _ ?b] =>
    destruct (each_bin fuel a t c exit_z b) as [st|] eqn:E; [|discriminate];
    pose proof (each_bin_in_range a t c exit_z fuel) as H
  end.
  cbn [mbind option_bind]. intros [= <-].
  eapply H; [| |exact E].
  - apply rows_sorted.
  - now rewrite !length_map.
Qed.

Lemma stats_in_range_witness :
  exists stats,
    api_stats_bins 9 "BTCUSDT" four_exits 15000 7 (1 # 2)
      (Some [3 # 2; 5 # 2]) = Some (Ok stats)
    /\ Forall in_range stats.
Proof.
  eexists. split; [vm_compute; reflexivity|].
  eapply (stats_in_range 9 "BTCUSDT" four_exits 15000 7 (1 # 2)
            (Some [3 # 2; 5 # 2])).
  vm_compute. reflexivity.
Defined.

End RangeFacts.

(** ** The simulator's costs *)

Section CostFacts.
Import Panel PanelSpec BookSpec Fixtures.
Local Open Scope Q_scope.

Lemma slip_nonneg (avg mid : Q) :
  0 < mid ->
  0 <= (if PyQ.ltb 0 avg then Qabs (avg - mid) / mid else 0).
Proof.
  intros Hm. destruct (PyQ.ltb 0 avg); [|apply Qle_refl].
  apply Qle_shift_div_l; [exact Hm|].
  rewrite Qmult_0_l. apply Qabs_nonneg.
Qed.

(** X22.  [api_simulate] answers with a simulation only for a configured
    pair and one of the two entry patterns.  With positive mids, a notional
    that is not negative and taker fees that are not negative, no slippage
    and no fee of the answer is negative, so the total cost is at least the
    two fees. *)
Theorem simulate_cost (m : Upstream) (notional : Q) (pattern : string)
    (r : Simulation) :
  api_simulate m notional pattern = Ok r ->
  0 < quoted_mid_a m -> 0 < quoted_mid_b m -> 0 <= notional ->
  0 <= or_zero (taker_a m) -> 0 <= or_zero (taker_b m) ->
  configured m = true
  /\ (pattern = "enter_short_A_long_B" \/ pattern = "enter_long_A_short_B")
  /\ 0 <= slip_a_pct r /\ 0 <= slip_b_pct r
  /\ 0 <= slip_a_usd r /\ 0 <= slip_b_usd r
  /\ 0 <= fee_a_usd r /\ 0 <= fee_b_usd r
  /\ fee_a_usd r + fee_b_usd r <= total_cost_usd r.
Proof.
  intros E Ha Hb Hn Hfa Hfb. unfold api_simulate in E.
  destruct (configured m); cbn [negb] in E; [|discriminate].
  rewrite !div_Some_Q in E by (intros Z; rewrite Z in *; discriminate).
  split; [reflexivity|].
  assert (Hp : pattern = "enter_short_A_long_B"
               \/ pattern = "enter_long_A_short_B").
  { destruct (String.eqb_spec pattern "enter_short_A_long_B") as [->|_];
      [left; reflexivity|].
    destruct (String.eqb_spec pattern "enter_long_A_short_B") as [->|_];
      [right; reflexivity | discriminate]. }
  split; [exact Hp|].
  assert (Hmul : forall s f, 0 <= s -> 0 <= f -> 0 <= s * f).
  { intros s f Hs Hf. apply Qmult_le_0_compat; assumption. }
  destruct Hp as [-> | ->]; cbn [String.eqb Ascii.eqb Bool.eqb] in E;
    destruct (_avg_exec_price _ (notional / quoted_mid_a m) _) as [aa fa];
    destruct (_avg_exec_price _ (notional / quoted_mid_b m) _) as [ab fb];
    set (sa := if PyQ.ltb 0 aa then _ else _) in E;
    set (sb := if PyQ.ltb 0 ab then _ else _) in E;
    assert (Sa : 0 <= sa) by (apply slip_nonneg; exact Ha);
    assert (Sb : 0 <= sb) by (apply slip_nonneg; exact Hb);
    clearbody sa sb;
    injection E as <-;
    cbn [slip_a_pct slip_b_pct slip_a_usd slip_b_usd fee_a_usd fee_b_usd
         total_cost_usd];
    pose proof (Hmul _ _ Sa Hn) as Ua;
    pose proof (Hmul _ _ Sb Hn) as Ub;
    pose proof (Hmul _ _ Hfa Hn) as Fa;
    pose proof (Hmul _ _ Hfb Hn) as Fb;
    repeat split; try assumption; qlra.
Qed.

Lemma simulate_cost_witness :
  exists r,
    api_simulate s4_market 150 "enter_short_A_long_B" = Ok r
    /\ fee_a_usd r + fee_b_usd r <= total_cost_usd r.
Proof.
  eexists. split; [vm_compute; reflexivity|].
  eapply (simulate_cost s4_market 150 "enter_short_A_long_B").
  - vm_compute. reflexivity.
  - reflexivity.
  - reflexivity.
  - discriminate.
  - vm_compute. discriminate.
  - vm_compute. discriminate.
Defined.

End CostFacts.

(** ** The WebSocket manager and the subscribers of a pair *)

Section ManagerFacts.
Import Panel PanelSpec Manager Fixtures.

Lemma subscribed_connect (p q : string) (ws : positive) (st : Server) :
  subscribed (connect p ws st) q
  = if decide (p = q) then subscribed st p ∪ {[ws]} else subscribed st q.
Proof.
  unfold subscribed, connect. cbn [active].
  destruct (decide (p = q)) as [->|N].
  - rewrite lookup_insert_eq. reflexivity.
  - rewrite lookup_insert_ne by exact N. reflexivity.
Qed.

Lemma subscribed_disconnect (p q : string) (ws : positive) (st : Server) :
  subscribed (disconnect p ws st) q
  = if decide (p = q) then subscribed st p ∖ {[ws]} else subscribed st q.
Proof.
  unfold subscribed, disconnect.
  destruct (active st !! p) as [subs|] eqn:E; cbn [active].
  - destruct (decide (p = q)) as [->|N].
    + rewrite lookup_insert_eq. reflexivity.
    + rewrite lookup_insert_ne by exact N. reflexivity.
  - destruct (decide (p = q)) as [<-|N]; [|reflexivity].
    rewrite E. cbn. set_solver.
Qed.

(** X23.  [WSManager.connect] subscribes the socket to its pair;
    disconnecting it again leaves the pair's other subscribers, every other
    pair, the table and the pushed messages as they were; and a socket that
    was not subscribed before is gone without a trace. *)
Theorem connect_then_disconnect (p : string) (ws : positive) (st : Server) :
  let st1 := connect p ws st in
  let st2 := disconnect p ws st1 in
  ws ∈ subscribed st1 p
  /\ subscribed st2 p = subscribed st p ∖ {[ws]}
  /\ (ws ∉ subscribed st p -> subscribed st2 p = subscribed st p)
  /\ (forall q, q <> p ->
        subscribed st1 q = subscribed st q
        /\ subscribed st2 q = subscribed st q)
  /\ db st2 = db st /\ pushed st2 = pushed st.
Proof.
  cbn zeta.
  assert (E2 : subscribed (disconnect p ws (connect p ws st)) p
               = subscribed st p ∖ {[ws]}).
  { rewrite subscribed_disconnect, decide_True by reflexivity.
    rewrite subscribed_connect, decide_True by reflexivity. set_solver. }
  split.
  { rewrite subscribed_connect, decide_True by reflexivity. set_solver. }
  split; [exact E2|]. split.
  { intros N. rewrite E2. set_solver. }
  split.
  { intros q N. split.
    - rewrite subscribed_connect, decide_False by congruence. reflexivity.
    - rewrite subscribed_disconnect, decide_False by congruence.
      rewrite subscribed_connect, decide_False by congruence. reflexivity. }
  unfold disconnect, connect. cbn [active db pushed].
  rewrite lookup_insert_eq. cbn [db pushed]. split; reflexivity.
Qed.

Lemma broadcast_active (broken : gset positive) (p : string)
    (message : gmap string jvalue) (conns : list positive) (st : Server) :
  let st' :=
    fold_left
      (fun st ws =>
         if decide (ws ∈ broken) then disconnect p ws st
         else mkServer (db st) (active st) (pushed st ++ [(ws, message)]))
      conns st in
  forall q,
    subscribed st' q
    = if decide (p = q)
      then subscribed st p ∖ (broken ∩ list_to_set conns)
      else subscribed st q.
Proof.
  cbn zeta. revert st.
  induction conns as [|ws conns IH]; intros st q; cbn [fold_left].
  - destruct (decide (p = q)) as [<-|N]; [set_solver | reflexivity].
  - rewrite IH. destruct (decide (ws ∈ broken)) as [Hb|Hb].
    + rewrite !subscribed_disconnect.
      destruct (decide (p = q)) as [<-|N]; [|reflexivity].
      rewrite decide_True by reflexivity.
      apply set_eq. intros x. set_unfold.
      destruct (decide (x = ws)) as [->|Nx]; naive_solver.
    + change (subscribed (mkServer (db st) (active st) _))
        with (subscribed st).
      destruct (decide (p = q)) as [<-|N]; [|reflexivity].
      apply set_eq. intros x. set_unfold.
      destruct (decide (x = ws)) as [->|Nx]; naive_solver.
Qed.

Lemma broadcast_subscribed (broken : gset positive) (pair : jvalue)
    (message : gmap string jvalue) (st : Server) (q : string) :
  subscribed (broadcast broken pair message st) q
  = match pair with
    | JStr p =>
        if decide (p = q) then subscribed st q ∖ broken else subscribed st q
    | _ => subscribed st q
    end.
Proof.
  unfold broadcast, subscribers.
  destruct pair as [| | | |p| |]; try reflexivity.
  rewrite (broadcast_active broken p message).
  destruct (decide (p = q)) as [<-|N]; [|reflexivity].
  fold (subscribed st p). apply set_eq. intros x. set_unfold.
  naive_solver.
Qed.

(** X24.  [WSManager.broadcast] pushes to the pair's subscribers and drops
    exactly the broken ones: afterwards the pair's subscribers are those it
    had that are not broken, every other pair keeps its subscribers, and a
    second broadcast to the pair finds no broken socket left, so it drops
    nothing. *)
Theorem broadcast_drops_broken (broken : gset positive) (p : string)
    (message message' : gmap string jvalue) (st : Server) :
  let st' := broadcast broken (JStr p) message st in
  subscribed st' p = subscribed st p ∖ broken
  /\ (forall q, q <> p -> subscribed st' q = subscribed st q)
  /\ (forall q,
        subscribed (broadcast broken (JStr p) message' st') q
        = subscribed st' q).
Proof.
  cbn zeta. split; [|split].
  - rewrite broadcast_subscribed, decide_True by reflexivity. reflexivity.
  - intros q N. rewrite broadcast_subscribed, decide_False by congruence.
    reflexivity.
  - intros q. rewrite (broadcast_subscribed broken (JStr p) message').
    destruct (decide (p = q)) as [<-|N]; [|reflexivity].
    rewrite broadcast_subscribed, decide_True by reflexivity. set_solver.
Qed.

End ManagerFacts.

Section IngestSubscribers.
Import Panel PanelSpec Manager Fixtures.
Variable int_of_str : string -> option Z.
Variable float_of_str : string -> option Q.

Abbreviation ingest' := (ingest_spread int_of_str float_of_str).

(** X25.  Whatever the payload, [ingest_spread] adds no subscriber: an
    answer that is not ok leaves every pair's subscribers alone, and an ok
    answer removes the broken sockets from the payload's pair and from no
    other pair. *)
Theorem ingest_subscribers (broken : gset positive)
    (payload : gmap string jvalue) (st : Server) (q : string) :
  let r := ingest' broken payload st in
  subscribed (snd r) q ⊆ subscribed st q
  /\ (fst r <> Ok tt -> subscribed (snd r) q = subscribed st q)
  /\ (payload !! "pair" <> Some (JStr q) ->
      subscribed (snd r) q = subscribed st q)
  /\ (fst r = Ok tt -> payload !! "pair" = Some (JStr q) ->
      subscribed (snd r) q = subscribed st q ∖ broken).
Proof.
  cbn zeta. unfold ingest_spread.
  destruct (find _ required) as [k|]; cbn [fst snd].
  { repeat split; try reflexivity; intros; try reflexivity; discriminate. }
  destruct (row_of int_of_str float_of_str payload) as [row|]; cbn;
    [|repeat split; try reflexivity; intros; try reflexivity; discriminate].
  destruct (insert_spread st row) as [st'|] eqn:Ei; cbn [fst snd];
    [|repeat split; try reflexivity; intros; try reflexivity; discriminate].
  assert (Ha : subscribed st' q = subscribed st q).
  { unfold insert_spread in Ei.
    destruct (s_pair row); try discriminate;
      destruct (_ && _ && _); try discriminate; injection Ei as <-;
      reflexivity. }
  rewrite broadcast_subscribed, Ha.
  destruct (payload !! "pair") as [v|] eqn:Ep; cbn [from_option]; unfold Datatypes.id.
  - destruct v as [| | | |p| |];
      try (repeat split; try reflexivity; intros; try reflexivity;
           discriminate).
    destruct (decide (p = q)) as [<-|N].
    + split; [intros x Hx; apply elem_of_difference in Hx; tauto|].
      split; [intros C; exfalso; apply C; reflexivity|].
      split; [intros C; exfalso; apply C; reflexivity | reflexivity].
    + repeat split; try reflexivity; intros; try reflexivity; congruence.
  - repeat split; try reflexivity; intros; try reflexivity; discriminate.
Qed.

End IngestSubscribers.

Section IngestSubscribersExamples.
Import Panel PanelSpec Manager Fixtures.

Lemma ingest_subscribers_witness :
  let r := ingest_spread no_text_int no_text_float {[2%positive]}
             good_sample two_subscribers in
  fst r = Ok tt
  /\ subscribed (snd r) "BTCUSDT" = subscribed two_subscribers "BTCUSDT" ∖ {[2%positive]}.
Proof.
  cbn zeta.
  assert (E : fst (ingest_spread no_text_int no_text_float {[2%positive]}
                     good_sample two_subscribers) = Ok tt)
    by (vm_compute; reflexivity).
  split; [exact E|].
  apply (ingest_subscribers no_text_int no_text_float {[2%positive]}
           good_sample two_subscribers "BTCUSDT");
    [exact E | vm_compute; reflexivity].
Defined.

End IngestSubscribersExamples.

(** ** The schema of the store *)

Section SchemaFacts.
Import Storage.

Lemma existsb_eqb_In (c : string) (l : list string) :
  existsb (String.eqb c) l = true <-> In c l.
Proof.
  rewrite existsb_exists. split.
  - intros (x & Hx & E). apply String.eqb_eq in E. subst x. exact Hx.
  - intros H. exists c. split; [exact H | apply String.eqb_refl].
Qed.

Lemma filter_perm {A : Type} (f : A -> bool) (l l' : list A) :
  Permutation l l' -> Permutation (List.filter f l) (List.filter f l').
Proof.
  induction 1 as [|x l l' _ IH|x y l|l l' l'' _ IH1 _ IH2];
    cbn [List.filter].
  - constructor.
  - destruct (f x); [apply perm_skip|]; exact IH.
  - destruct (f x), (f y); try reflexivity. apply perm_swap.
  - etransitivity; eassumption.
Qed.

Lemma missing_spec (expected : list string) (table : list (string * string))
    (c : string) :
  In c (missing expected table)
  <-> In c expected /\ ~ In c (map fst table).
Proof.
  unfold missing. rewrite List.filter_In, negb_true_iff.
  pose proof (existsb_eqb_In c (map fst table)) as H.
  destruct (existsb (String.eqb c) (map fst table)); split;
    intros [H1 H2]; try discriminate; split; try assumption;
    try reflexivity.
  - exfalso. apply H2, H. reflexivity.
  - intros N. apply H in N. discriminate.
Qed.

(** A name the engine finds in a table of lower-case names is there as
    written. *)
Lemma clash_In (table : list (string * string)) (c : string) :
  Forall (fun col => lowercase (fst col) = fst col) table ->
  lowercase c = c ->
  existsb (fun col => String.eqb (lowercase (fst col)) (lowercase c)) table
  = true ->
  In c (map fst table).
Proof.
  intros Hl Hc E. apply existsb_exists in E as (col & Hin & E).
  apply String.eqb_eq in E.
  rewrite List.Forall_forall in Hl. rewrite (Hl col Hin), Hc in E.
  subst c. apply in_map. exact Hin.
Qed.

Lemma add_all_fresh (cs : list string) :
  NoDup cs -> Forall (fun c => lowercase c = c) cs ->
  forall table,
    Forall (fun col => lowercase (fst col) = fst col) table ->
    (forall c, In c cs -> ~ In c (map fst table)) ->
    add_all cs table = Some (table ++ map typed cs).
Proof.
  induction 1 as [|c cs Hc Hnd IH]; intros Hlow table Ht Hfresh;
    cbn [add_all map].
  - rewrite app_nil_r. reflexivity.
  - apply Forall_cons in Hlow as [Hlc Hlow].
    unfold add_column.
    destruct (existsb _ table) eqn:E.
    { exfalso. apply (Hfresh c); [left; reflexivity|].
      apply clash_In; assumption. }
    cbn. rewrite IH.
    + rewrite <- app_assoc. reflexivity.
    + exact Hlow.
    + apply Forall_app. split; [exact Ht|].
      constructor; [exact Hlc | constructor].
    + intros c' Hin. rewrite map_app, in_app_iff. cbn.
      intros [H | [H | []]].
      * apply (Hfresh c'); [right; exact Hin | exact H].
      * subst c'. apply Hc, list_elem_of_In. exact Hin.
Qed.

Lemma expected_lower : Forall (fun c => lowercase c = c) EXPECTED_COLUMNS.
Proof. repeat constructor. Qed.

Lemma expected_nodup : NoDup EXPECTED_COLUMNS.
Proof. apply (bool_decide_unpack _). vm_compute. exact I. Qed.

Lemma insert_columns :
  columns = EXPECTED_COLUMNS /\ selected = tl columns
  /\ columns = Panel.required ++ Panel.extra_columns.
Proof. repeat split. Qed.

(** X26.  On a table whose column names are in lower case, as those of
    [CREATE_TABLE_SQL] are, [ensure_schema] succeeds in whatever order the
    set [EXPECTED_COLUMNS] is iterated: it keeps the columns the table has,
    in place, and adds after them exactly the expected names the table does
    not have, [advice] as TEXT and the others as REAL.  Afterwards every
    column that [insert_spread] writes and [get_spreads] selects is in the
    table, and a second run adds nothing. *)
Theorem ensure_schema_complete (expected : list string)
    (table : list (string * string)) :
  Permutation expected EXPECTED_COLUMNS ->
  Forall (fun col => lowercase (fst col) = fst col) table ->
  exists added,
    ensure_schema expected table = Some (table ++ added)
    /\ Permutation (map fst added) (missing EXPECTED_COLUMNS table)
    /\ Forall (fun col =>
                 snd col
                 = if String.eqb (fst col) "advice" then "TEXT" else "REAL")
         added
    /\ incl columns (map fst (table ++ added))
    /\ incl selected (map fst (table ++ added))
    /\ ensure_schema expected (table ++ added) = Some (table ++ added).
Proof.
  intros Hp Ht.
  assert (Hin : forall c, In c expected <-> In c EXPECTED_COLUMNS).
  { intros c. split; apply Permutation_in;
      [exact Hp | symmetry; exact Hp]. }
  assert (Hnd : NoDup (missing expected table)).
  { apply NoDup_ListNoDup, List.NoDup_filter.
    apply (Permutation_NoDup (l := EXPECTED_COLUMNS));
      [symmetry; exact Hp | apply NoDup_ListNoDup, expected_nodup]. }
  assert (Hlow : Forall (fun c => lowercase c = c) (missing expected table)).
  { apply List.Forall_forall. intros c Hc. apply missing_spec in Hc as [Hc _].
    apply Hin in Hc. pose proof expected_lower as L.
    rewrite List.Forall_forall in L. exact (L c Hc). }
  exists (map typed (missing expected table)).
  assert (Hnames : map fst (map typed (missing expected table))
                   = missing expected table).
  { rewrite map_map. cbn. apply map_id. }
  assert (Hall : incl EXPECTED_COLUMNS
                   (map fst (table ++ map typed (missing expected table)))).
  { intros c Hc. rewrite map_app, Hnames, in_app_iff.
    destruct (in_dec string_dec c (map fst table)) as [H|H];
      [left; exact H | right].
    apply missing_spec. split; [apply Hin; exact Hc | exact H]. }
  split.
  { unfold ensure_schema. apply add_all_fresh; try assumption.
    intros c Hc. apply missing_spec in Hc. tauto. }
  split.
  { rewrite Hnames. apply filter_perm. exact Hp. }
  split.
  { apply List.Forall_forall. intros col Hc. apply in_map_iff in Hc
      as (c & <- & _). reflexivity. }
  split; [exact Hall|].
  split.
  { intros c Hc. apply Hall.
    change (In c (tl EXPECTED_COLUMNS)) in Hc. right. exact Hc. }
  unfold ensure_schema.
  assert (E : missing expected (table ++ map typed (missing expected table))
              = []).
  { destruct (missing expected (table ++ _)) as [|c l] eqn:E; [reflexivity|].
    assert (Hc : In c (missing expected
                         (table ++ map typed (missing expected table))))
      by (rewrite E; left; reflexivity).
    apply missing_spec in Hc as [Hc N]. exfalso. apply N, Hall, Hin, Hc. }
  rewrite E. reflexivity.
Qed.

Lemma ensure_schema_complete_witness :
  exists added,
    ensure_schema (rev EXPECTED_COLUMNS) (open_db None)
    = Some (open_db None ++ added)
    /\ Permutation (map fst added)
         ["net_funding_cycle_usd"; "expect_funding_next_usd"; "age_a_ms";
          "age_b_ms"; "skew_ms"; "latency_ms"; "stale"].
Proof.
  destruct (ensure_schema_complete (rev EXPECTED_COLUMNS) (open_db None))
    as (added & E & P & _).
  - symmetry. apply Permutation_rev.
  - repeat constructor.
  - exists added. split; [exact E | exact P].
Defined.

End SchemaFacts.

(** ** The newest lines of a pair *)

Section QueryFacts.
Import Storage Panel.

Variable Line : Type.
Variable pair_of : Line -> string.
Variable ts_of : Line -> Z.
Variable order_by_ts_desc : list Line -> list Line.

Abbreviation later := (fun a b : Line => (ts_of b <= ts_of a)%Z).
Abbreviation earlier := (fun a b : Line => (ts_of a <= ts_of b)%Z).

Lemma sorted_app (R : Line -> Line -> Prop) (l1 l2 : list Line) :
  StronglySorted R l1 -> StronglySorted R l2 ->
  (forall a b, In a l1 -> In b l2 -> R a b) ->
  StronglySorted R (l1 ++ l2).
Proof.
  induction 1 as [|x l1 Hs IH Hx]; intros H2 Hc; cbn; [exact H2|].
  constructor.
  - apply IH; [exact H2|]. intros a b Ha Hb. apply Hc; [right|]; assumption.
  - apply List.Forall_forall. intros b Hb. apply in_app_iff in Hb as [Hb|Hb].
    + rewrite List.Forall_forall in Hx. apply Hx, Hb.
    + apply Hc; [left; reflexivity | exact Hb].
Qed.

Lemma sorted_rev (l : list Line) :
  StronglySorted later l -> StronglySorted earlier (rev l).
Proof.
  induction 1 as [|x l Hs IH Hx]; cbn; [constructor|].
  apply sorted_app; [exact IH | repeat constructor|].
  intros a b Ha [<-|[]]. apply List.in_rev in Ha.
  rewrite List.Forall_forall in Hx. apply Hx, Ha.
Qed.

Lemma in_firstn (l : list Line) (k : nat) (a : Line) :
  In a (firstn k l) -> In a l.
Proof.
  intros H. rewrite <- (firstn_skipn k l). apply in_or_app. left. exact H.
Qed.

Lemma in_skipn (l : list Line) (k : nat) (a : Line) :
  In a (skipn k l) -> In a l.
Proof.
  intros H. rewrite <- (firstn_skipn k l). apply in_or_app. right. exact H.
Qed.

Lemma sorted_split (l : list Line) (k : nat) :
  StronglySorted later l ->
  forall a b, In a (firstn k l) -> In b (skipn k l) -> later a b.
Proof.
  intros Hs. revert k.
  induction Hs as [|x l Hs IH Hx]; intros k a b Ha Hb.
  - destruct k; destruct Ha.
  - destruct k as [|k]; [destruct Ha|]. cbn in Ha, Hb.
    destruct Ha as [<-|Ha].
    + rewrite List.Forall_forall in Hx. apply Hx.
      apply (in_skipn l k). exact Hb.
    + apply (IH k); assumption.
Qed.

Hypothesis order_perm : forall l, Permutation (order_by_ts_desc l) l.
Hypothesis order_sorted : forall l, Sorted later (order_by_ts_desc l).

(** X27.  [GET /api/spreads] answers 400 for an empty pair.  For a pair
    that is named it fails as a server error when the table lacks a column
    the query names, as the table just created does until [ensure_schema]
    has run; when the table has them all it answers with lines of that pair
    from the table, oldest first, at most 5000 of them and as many as the
    limit asks, a limit below 1 counting as 1; and they are the newest: a
    line of the pair that is left out is no later than any line returned. *)
Theorem api_spreads_newest (schema : list (string * string))
    (table : list Line) (pair : string) (limit : Z) :
  let answer :=
    api_spreads Line pair_of order_by_ts_desc schema table pair limit in
  (pair = EmptyString -> answer = HTTPException 400 "pair is required")
  /\ (pair <> EmptyString ->
      (exists c, In c columns
                 /\ forall col, In col schema ->
                      lowercase (fst col) <> lowercase c) ->
      answer = Raised)
  /\ (pair <> EmptyString -> incl columns (map fst schema) ->
      exists rows,
        answer = Ok rows
        /\ length rows
           = Nat.min (Z.to_nat (Z.min (Z.max limit 1) 5000))
               (length (List.filter
                          (fun l => String.eqb (pair_of l) pair) table))
        /\ (length rows <= 5000)%nat
        /\ (forall r, In r rows -> In r table /\ pair_of r = pair)
        /\ StronglySorted earlier rows
        /\ (forall l, In l table -> pair_of l = pair ->
              In l rows \/ forall r, In r rows -> (ts_of l <= ts_of r)%Z)).
Proof.
  cbn zeta. unfold api_spreads, get_spreads.
  change ("pair" :: selected) with columns.
  split; [|split].
  - intros ->. reflexivity.
  - intros Hpair (c & Hc & Hno).
    destruct (String.eqb_spec pair EmptyString) as [E|_]; [contradiction|].
    assert (F : forallb (has_column schema) columns = false).
    { destruct (forallb (has_column schema) columns) eqn:F; [|reflexivity].
      rewrite forallb_forall in F. specialize (F c Hc).
      unfold has_column in F. apply existsb_exists in F as (col & Hin & E).
      apply String.eqb_eq in E. exfalso. exact (Hno col Hin E). }
    rewrite F. reflexivity.
  - intros Hpair Hcols.
    destruct (String.eqb_spec pair EmptyString) as [E|_]; [contradiction|].
    assert (F : forallb (has_column schema) columns = true).
    { apply forallb_forall. intros c Hc. apply Hcols in Hc.
      apply in_map_iff in Hc as (col & <- & Hin).
      unfold has_column. apply existsb_exists. exists col.
      split; [exact Hin | apply String.eqb_refl]. }
    rewrite F.
    set (sel := List.filter (fun l => String.eqb (pair_of l) pair) table).
    set (k := Z.min (Z.max limit 1) 5000).
    assert (Hk : (1 <= k <= 5000)%Z) by (unfold k; lia).
    destruct (Z.ltb_spec k 0) as [C|_]; [lia|].
    eexists. split; [reflexivity|].
    assert (Hs : StronglySorted later (order_by_ts_desc sel)).
    { apply Sorted_StronglySorted; [|apply order_sorted].
      intros a b c Hab Hbc. lia. }
    assert (Hlen : length (order_by_ts_desc sel) = length sel)
      by (apply Permutation_length, order_perm).
    split.
    { rewrite length_rev, length_firstn, Hlen. reflexivity. }
    split.
    { rewrite length_rev, length_firstn. lia. }
    split.
    { intros r Hr. apply List.in_rev in Hr. apply in_firstn in Hr.
      apply (Permutation_in _ (order_perm sel)) in Hr.
      unfold sel in Hr. apply List.filter_In in Hr as [Hin Heq].
      apply String.eqb_eq in Heq. split; assumption. }
    split.
    { apply sorted_rev.
      rewrite <- (firstn_skipn (Z.to_nat k) (order_by_ts_desc sel)) in Hs.
      clear - Hs. induction (firstn _ _) as [|x l IH]; [constructor|].
      cbn in Hs. inversion Hs as [|? ? Hs' Hx]; subst.
      constructor; [apply IH; exact Hs'|].
      apply Forall_app in Hx as [Hx _]. exact Hx. }
    intros l Hin Hl.
    assert (Hsel : In l (order_by_ts_desc sel)).
    { apply (Permutation_in _ (Permutation_sym (order_perm sel))).
      unfold sel. apply List.filter_In. split; [exact Hin|].
      apply String.eqb_eq. exact Hl. }
    rewrite <- (firstn_skipn (Z.to_nat k) (order_by_ts_desc sel)) in Hsel.
    apply in_app_iff in Hsel as [H|H].
    + left. apply List.in_rev. rewrite rev_involutive. exact H.
    + right. intros r Hr. apply List.in_rev in Hr.
      exact (sorted_split _ _ Hs r l Hr H).
Qed.

End QueryFacts.

Section QueryExamples.
Import Storage Panel Samples.

Lemma incl_check (l m : list string) :
  forallb (fun c => existsb (String.eqb c) m) l = true -> incl l m.
Proof.
  intros H c Hc. rewrite forallb_forall in H.
  apply existsb_eqb_In. exact (H c Hc).
Qed.

Lemma api_spreads_newest_witness :
  api_spreads (string * Z) fst
    (sort (fun a b => (snd b <=? snd a)%Z)) upgraded four_lines "BTCUSDT" 2
  = Ok [("BTCUSDT", 20%Z); ("BTCUSDT", 30%Z)]
  /\ api_spreads (string * Z) fst
       (sort (fun a b => (snd b <=? snd a)%Z)) (open_db None) four_lines
       "BTCUSDT" 2
     = Raised.
Proof.
  destruct (api_spreads_newest (string * Z) fst snd
              (sort (fun a b => (snd b <=? snd a)%Z))
              ltac:(intros l; symmetry; apply sort_perm)
              ltac:(intros l; apply sort_sorted;
                    [intros x y; apply Z.leb_le
                    |intros x y E; apply Z.leb_gt in E; lia])
              upgraded four_lines "BTCUSDT" 2) as (_ & _ & H).
  destruct (H ltac:(discriminate)
              ltac:(apply incl_check; vm_compute; reflexivity))
    as (rows & E & _).
  split; [|vm_compute; reflexivity].
  rewrite E. vm_compute in E. injection E as <-. reflexivity.
Defined.

End QueryExamples.

(** ** Market ids and fees from the books of Lighter *)

Section BooksFacts.
Import Books Samples.

Lemma find_app {A : Type} (f : A -> bool) (l1 l2 : list A) :
  find f (l1 ++ l2)
  = match find f l1 with Some x => Some x | None => find f l2 end.
Proof.
  induction l1 as [|x l1 IH]; cbn [app find]; [reflexivity|].
  destruct (f x); [reflexivity | exact IH].
Qed.

Lemma fill_spec (books : list Book) :
  forall mapping m,
    fill books mapping = Some m ->
    Forall (fun ob => is_Some (market_id ob)) books
    /\ forall s,
         m !! s
         = match find (fun ob => String.eqb (symbol ob) s) (rev books) with
           | Some ob => market_id ob
           | None => mapping !! s
           end.
Proof.
  induction books as [|ob books IH]; intros mapping m E; cbn [fill] in E.
  - injection E as <-. split; [constructor | reflexivity].
  - destruct (market_id ob) as [mid|] eqn:Em; [|discriminate]. cbn in E.
    destruct (IH _ _ E) as [Hall Hm]. split.
    + constructor; [rewrite Em; eexists; reflexivity | exact Hall].
    + intros s. rewrite Hm. cbn [rev].
      rewrite find_app.
      destruct (find _ (rev books)) as [ob'|]; [reflexivity|].
      cbn [find]. destruct (String.eqb_spec (symbol ob) s) as [<-|N].
      * rewrite lookup_insert_eq. symmetry. exact Em.
      * rewrite lookup_insert_ne by exact N. reflexivity.
Qed.

Lemma find_unique (books : list Book) (ob : Book) :
  NoDup (map symbol books) -> In ob books ->
  find (fun b => String.eqb (symbol b) (symbol ob)) books = Some ob.
Proof.
  induction books as [|b books IH]; intros Hnd Hin; [destruct Hin|].
  cbn [map] in Hnd. apply NoDup_cons in Hnd as [Hb Hnd]. cbn [find].
  rewrite list_elem_of_In in Hb.
  destruct Hin as [->|Hin].
  - rewrite String.eqb_refl. reflexivity.
  - destruct (String.eqb_spec (symbol b) (symbol ob)) as [E|_].
    + exfalso. apply Hb. rewrite E. apply in_map. exact Hin.
    + apply IH; assumption.
Qed.

(** X28.  When [fetch_market_map] returns, every book served has a market
    id, the map sends a symbol to the id of the last book listed under it,
    and [get_fees], whether it reads the cache just filled or fetches
    itself, reports for a symbol the fees of the first book listed under
    it, never a taker fee without a maker fee.  So when no symbol is listed
    twice the id and the fees of a symbol come from the same book. *)
Theorem ids_and_fees (served : list Book) (m : gmap string Z) :
  fst (fetch_market_map served) = Some m ->
  let cache := snd (fetch_market_map served) in
  Forall (fun ob => is_Some (market_id ob)) served
  /\ (forall s,
        m !! s
        = find (fun ob => String.eqb (symbol ob) s) (rev served)
          ≫= market_id)
  /\ (forall s, exists maker taker,
        fst (get_fees served cache s) = Some (maker, taker)
        /\ fst (get_fees served None s) = Some (maker, taker)
        /\ (maker, taker)
           = match find (fun ob => String.eqb (symbol ob) s) served with
             | Some ob => read_fees ob
             | None => (None, None)
             end
        /\ (is_Some taker -> is_Some maker))
  /\ (NoDup (map symbol served) ->
      forall ob, In ob served ->
        m !! symbol ob = market_id ob
        /\ fst (get_fees served cache (symbol ob)) = Some (read_fees ob)).
Proof.
  unfold fetch_market_map. cbn [fst snd]. intros E.
  destruct (fill_spec served ∅ m E) as [Hall Hm].
  assert (Hid : forall s,
             m !! s
             = find (fun ob => String.eqb (symbol ob) s) (rev served)
               ≫= market_id).
  { intros s. rewrite Hm. destruct (find _ (rev served)); [reflexivity|].
    apply lookup_empty. }
  split; [exact Hall|]. split; [exact Hid|]. split.
  - intros s. unfold get_fees, fetch_market_map. rewrite E.
    destruct (find _ served) as [ob|]; cbn [fst].
    + exists (fst (read_fees ob)), (snd (read_fees ob)).
      rewrite <- surjective_pairing. repeat split.
      unfold read_fees. destruct (maker_fee ob); cbn [fst snd];
        [intros _; eexists; reflexivity | intros H; exact H].
    + exists None, None. repeat split. intros H; exact H.
  - intros Hnd ob Hin. split.
    + rewrite Hid. rewrite find_unique.
      * reflexivity.
      * rewrite List.map_rev. apply NoDup_ListNoDup.
        apply (Permutation_NoDup (l := map symbol served));
          [apply Permutation_rev | apply NoDup_ListNoDup, Hnd].
      * apply List.in_rev. rewrite rev_involutive. exact Hin.
    + unfold get_fees. rewrite (find_unique served ob Hnd Hin). reflexivity.
Qed.

Lemma ids_and_fees_witness :
  exists m,
    fst (fetch_market_map two_books) = Some m
    /\ m !! "ETH" = Some 2%Z
    /\ fst (get_fees two_books (Some two_books) "ETH") = Some (None, None).
Proof.
  eexists. split; [vm_compute; reflexivity|].
  destruct (ids_and_fees two_books _ ltac:(vm_compute; reflexivity))
    as (_ & _ & _ & H).
  destruct (H ltac:(apply (bool_decide_unpack _); vm_compute; exact I)
              (mkBook "ETH" (Some 2%Z) None (Some (5 # 10000)))
              ltac:(right; left; reflexivity)) as [H1 H2].
  split; [exact H1 | exact H2].
Defined.

End BooksFacts.
